(** * XFSM: the Espruino finite-state-machine core (src/src/xfsm.c)

    A shallow embedding of the Machine / Service engine of [xfsm.c] over an
    explicit store of JavaScript values, and the properties of the engine
    stated in the specification.

    The engine manipulates [JsVar *] values of the Espruino interpreter.
    The interpreter itself is not part of the repository; it is modelled
    here by
    - a store ([Heap]) of mutable cells, one per object or array, addressed
      by the position of the cell (a [JsVar *] to an object is a reference
      [JRef r]; two references to the same cell alias);
    - a [Host], the interpreter's two entry points used by the engine
      ([jspExecuteFunction], [jspEvaluateVar]), which stays a parameter.

    Reference counting ([jsvLockAgain]/[jsvUnLock]) has no counterpart:
    cells are never freed.  Allocation never fails. *)

From Stdlib Require Import String Ascii ZArith List Bool Lia.
From stdpp Require Import base list.

Local Open Scope string_scope.
Local Open Scope list_scope.

(** ** Values and store *)

(** Modelled from the spec: the dynamic values of the host (a tagged value
    with variants undefined, null, boolean, number, string, array,
    object/map, function), as a [JsVar *].  The null pointer is how the host
    represents [undefined]; it is the constructor [JUndef], so the C test
    [if (!v)] is [is_undef v].  Objects and arrays are references into the
    store. *)
Inductive JsVar : Type :=
| JUndef
| JNull
| JBool (b : bool)
| JInt (z : Z)
| JStr (s : string)
| JFun (f : nat)
| JRef (r : nat).

(** Modelled from the spec: a cell of the store, for the keyed child get/set
    and ordered iteration of the host: an object keeps its children in
    insertion order, an array keeps its items by index. *)
Inductive Cell : Type :=
| CObj (kvs : list (string * JsVar))
| CArr (items : list JsVar).

Abbreviation Heap := (list Cell).

Definition JsVar_eqb (a b : JsVar) : bool :=
  match a, b with
  | JUndef, JUndef => true
  | JNull, JNull => true
  | JBool x, JBool y => Bool.eqb x y
  | JInt x, JInt y => Z.eqb x y
  | JStr x, JStr y => String.eqb x y
  | JFun x, JFun y => Nat.eqb x y
  | JRef x, JRef y => Nat.eqb x y
  | _, _ => false
  end.

#[global] Instance JsVar_eq_dec : EqDecision JsVar.
Proof.
  intros a b. unfold Decision.
  decide equality;
    solve [apply Bool.bool_dec | apply Z.eq_dec | apply string_dec
          | apply Nat.eq_dec].
Defined.

Definition is_undef (v : JsVar) : bool :=
  match v with JUndef => true | _ => false end.

(** Modelled from the spec: the value kind tests of the host (is-string,
    is-function, is-object, is-array); the kinds are disjoint. *)
Definition jsvIsString (v : JsVar) : bool :=
  match v with JStr _ => true | _ => false end.

Definition jsvIsFunction (v : JsVar) : bool :=
  match v with JFun _ => true | _ => false end.

Definition cell_of (h : Heap) (v : JsVar) : option Cell :=
  match v with JRef r => h !! r | _ => None end.

Definition jsvIsObject (h : Heap) (v : JsVar) : bool :=
  match cell_of h v with Some (CObj _) => true | _ => false end.

Definition jsvIsArray (h : Heap) (v : JsVar) : bool :=
  match cell_of h v with Some (CArr _) => true | _ => false end.

(** Children of an object, in iteration order ([JsvObjectIterator]); no
    children for anything that is not an object. *)
Definition obj_entries (h : Heap) (v : JsVar) : list (string * JsVar) :=
  match cell_of h v with Some (CObj kvs) => kvs | _ => [] end.

Fixpoint assoc_get (k : string) (kvs : list (string * JsVar)) : JsVar :=
  match kvs with
  | [] => JUndef
  | (k', v) :: rest => if String.eqb k k' then v else assoc_get k rest
  end.

(** Replace the value of an existing child in place, or append a new one. *)
Fixpoint assoc_set (k : string) (v : JsVar) (kvs : list (string * JsVar))
  : list (string * JsVar) :=
  match kvs with
  | [] => [(k, v)]
  | (k', v') :: rest =>
      if String.eqb k k' then (k', v) :: rest
      else (k', v') :: assoc_set k v rest
  end.

(** Modelled from the spec: keyed child get, [jsvObjectGetChild(o, k, 0)]:
    the child, or 0 when there is none (or when [o] is not an object). *)
Definition jsvObjectGetChild (h : Heap) (o : JsVar) (k : string) : JsVar :=
  assoc_get k (obj_entries h o).

(** Modelled from the spec: keyed child set,
    [jsvObjectSetChildAndUnLock(o, k, v)]: writes the cell of [o] in place;
    nothing happens when [o] is not an object. *)
Definition jsvObjectSetChild (o : JsVar) (k : string) (v : JsVar) (h : Heap)
  : Heap :=
  match o with
  | JRef r =>
      match h !! r with
      | Some (CObj kvs) => <[r := CObj (assoc_set k v kvs)]> h
      | _ => h
      end
  | _ => h
  end.

Definition arr_items (h : Heap) (v : JsVar) : list JsVar :=
  match cell_of h v with Some (CArr items) => items | _ => [] end.

Definition jsvGetArrayLength (h : Heap) (a : JsVar) : nat :=
  length (arr_items h a).

Definition jsvGetArrayItem (h : Heap) (a : JsVar) (i : nat) : JsVar :=
  match arr_items h a !! i with Some v => v | None => JUndef end.

Definition jsvArrayPush (a v : JsVar) (h : Heap) : Heap :=
  match a with
  | JRef r =>
      match h !! r with
      | Some (CArr items) => <[r := CArr (items ++ [v])]> h
      | _ => h
      end
  | _ => h
  end.

(** Modelled from the spec: [jsvNewObject()] / [jsvNewArray(NULL,0)], a fresh
    cell at the end of the store. *)
Definition heap_alloc (c : Cell) (h : Heap) : JsVar * Heap :=
  (JRef (length h), h ++ [c]).

(** ** Strings read into C buffers *)

Fixpoint str_take (n : nat) (s : string) : string :=
  match n, s with
  | S n', String c s' => String c (str_take n' s')
  | _, _ => EmptyString
  end.

(** What C reads back from a [char] buffer: the characters before the first
    NUL. *)
Fixpoint c_str (s : string) : string :=
  match s with
  | EmptyString => EmptyString
  | String c s' =>
      if Ascii.eqb c Ascii.zero then EmptyString else String c (c_str s')
  end.

(** Modelled from the spec: the host primitive [jsvGetString(v, buf, len)] is
    not part of the repository; the spec describes it as the string
    materialization of a string-kind value into a fixed-capacity buffer.  It
    stores at most [len - 1] characters and a terminator. *)
Definition jsvGetString (s : string) (len : nat) : string :=
  c_str (str_take (len - 1) s).

(** [str_from_jsv(s, buf, bufSize)], for a buffer that was initialised to the
    empty string: the buffer is left alone unless [s] is a string, and then
    receives [jsvGetString(s, buf, bufSize-1)]. *)
Definition str_from_jsv (s : JsVar) (bufSize : nat) : string :=
  match s with
  | JStr x => if Nat.eqb bufSize 0 then "" else jsvGetString x (bufSize - 1)
  | _ => ""
  end.

Definition str_nonempty (s : string) : bool :=
  match s with EmptyString => false | _ => true end.

(** Modelled from the spec: the host primitive [jsvGetBool] is not part of the
    repository; the spec gives the generic truthiness rule: 0, the empty
    string, null, undefined and false are false, everything else is true. *)
Definition jsvGetBool (v : JsVar) : bool :=
  match v with
  | JUndef | JNull => false
  | JBool b => b
  | JInt z => negb (Z.eqb z 0)
  | JStr s => str_nonempty s
  | JFun _ | JRef _ => true
  end.

(** ** Key strings (xfsm.c, lines 120-142) *)

Definition K_CFG := "config".
Definition K_STATES := "states".
Definition K_ON := "on".
Definition K_ENTRY := "entry".
Definition K_EXIT := "exit".
Definition K_TARGET := "target".
Definition K_ACTIONS := "actions".
Definition K_CONTEXT := "context".
Definition K_COND := "cond".
Definition S_VALUE := "value".
Definition S_CTX := "context".
Definition S_ACTS := "actions".
Definition K_MACHINE := "_machine".
Definition K_SSTATE := "_state".
Definition K_SCTX := "_context".
Definition K_SSTATUS := "_status".

(** ** The world: the store and the trace of host calls *)

(** One completed call of a JavaScript function by the engine. *)
Record Call : Type := mkCall {
  call_fn : JsVar;
  call_this : JsVar;
  call_args : list JsVar;
  call_res : JsVar
}.

Record World : Type := mkWorld {
  heap : Heap;
  calls : list Call
}.

Definition with_heap (f : Heap -> Heap) (w : World) : World :=
  mkWorld (f (heap w)) (calls w).

Definition jsvNewObject (w : World) : JsVar * World :=
  let '(o, h) := heap_alloc (CObj []) (heap w) in (o, mkWorld h (calls w)).

Definition jsvNewArray (w : World) : JsVar * World :=
  let '(o, h) := heap_alloc (CArr []) (heap w) in (o, mkWorld h (calls w)).

(** Modelled from the spec: the call-out primitive of the host,
    [invoke(callable, thisBinding, args) -> Value], and the evaluation of
    source text.  [host_exec fn this args h] runs
    the JavaScript function [fn] to completion on the store [h]: it may read
    and write the store.  [host_eval src] is the value of the JavaScript
    expression [src] (the engine only evaluates function literals). *)
Record Host : Type := mkHost {
  host_exec : JsVar -> JsVar -> list JsVar -> Heap -> JsVar * Heap;
  host_eval : string -> JsVar
}.

(** ** The engine *)

Section Engine.

Variable host : Host.

(** [jspExecuteFunction(fn, this, argc, argv)]: the host runs the function;
    the call and its result are appended to the trace. *)
Definition jspExecuteFunction (fn this : JsVar) (args : list JsVar)
  (w : World) : JsVar * World :=
  let '(res, h') := host_exec host fn this args (heap w) in
  (res, mkWorld h' (calls w ++ [mkCall fn this args res])).

Definition jspEvaluateVar (src : string) : JsVar := host_eval host src.

Definition set_child (o : JsVar) (k : string) (v : JsVar) (w : World) : World :=
  with_heap (jsvObjectSetChild o k v) w.

(** *** Event normalization (lines 92-117) *)

Definition xfsm_normalize_event (event : JsVar) (w : World) : JsVar * World :=
  if is_undef event then (JUndef, w)
  else if jsvIsString event then
    let '(obj, w1) := jsvNewObject w in
    (* jsvAsString of a string is that string *)
    (obj, set_child obj "type" event w1)
  else if jsvIsObject (heap w) event then
    let t := jsvObjectGetChild (heap w) event "type" in
    if is_undef t || negb (jsvIsString t)
    then (event, set_child event "type" (JStr "") w)
    else (event, w)
  else (JUndef, w).

(** *** Function invocation helper (lines 145-151) *)

Definition xfsm_callJsFunction (fn thisArg : JsVar) (args : list JsVar)
  (w : World) : JsVar * World :=
  if is_undef fn || negb (jsvIsFunction fn) then (JUndef, w)
  else
    let thisObj := if is_undef thisArg then JNull else thisArg in
    jspExecuteFunction fn thisObj args w.

(** *** Listener notification (lines 161-189) *)

(** The loop over the children of [service._listeners] (lines 171-185).
    The children are walked as they stand when the loop starts.  The
    iterator of the source is a cursor into the table itself; it visits
    these children, in this order, as long as the functions called leave the
    table as it is, which is what the statements about a notification
    assume of the host. *)
Fixpoint notify_each (service st : JsVar) (ls : list (string * JsVar))
  (w : World) : World :=
  match ls with
  | [] => w
  | (_, fn) :: rest =>
      let w1 :=
        if negb (is_undef fn) && jsvIsFunction fn && negb (is_undef st)
        then snd (jspExecuteFunction fn service [st] w)
        else w in
      notify_each service st rest w1
  end.

Definition xfsm_notify_listeners (service : JsVar) (w : World) : World :=
  if is_undef service || negb (jsvIsObject (heap w) service) then w
  else
    let listeners := jsvObjectGetChild (heap w) service "_listeners" in
    if is_undef listeners || negb (jsvIsObject (heap w) listeners) then w
    else
      (* the getter fallback reads the same field *)
      let st := jsvObjectGetChild (heap w) service K_SSTATE in
      notify_each service st (obj_entries (heap w) listeners) w.

(** *** Flat machine validation (lines 193-243) *)

Definition validate_src : string :=
  "(function(cfg){if (!cfg || !cfg.states) return '';var s = cfg.states, k;for (k in s) { if (s[k] && s[k].states) return k || '<unknown>'; }return '';})".

(** The check runs a JavaScript function on the configuration; its verdict
    only selects whether a diagnostic is printed. *)
Definition xfsm_validate_no_nested_states (machineConfig : JsVar) (w : World)
  : bool * World :=
  if is_undef machineConfig || negb (jsvIsObject (heap w) machineConfig)
  then (true, w)
  else
    let fn := jspEvaluateVar validate_src in
    if is_undef fn then (true, w)
    else if jsvIsFunction fn then
      let '(res, w1) := jspExecuteFunction fn JUndef [machineConfig] w in
      match res with
      | JStr s => (negb (str_nonempty (c_str (str_take 63 s))), w1)
      | _ => (true, w1)
      end
    else (true, w).

(** *** State objects (lines 275-302) *)

Definition matches_src : string := "(function(s){return this.value===s;})".

Definition new_state_obj (value : string) (ctx acts : JsVar) (changed : bool)
  (w : World) : JsVar * World :=
  let '(st, w1) := jsvNewObject w in
  let w2 := if str_nonempty value then set_child st S_VALUE (JStr value) w1
            else w1 in
  let w3 := if is_undef ctx then w2 else set_child st S_CTX ctx w2 in
  let w4 := if is_undef acts then w3 else set_child st S_ACTS acts w3 in
  let w5 := set_child st "changed" (JBool changed) w4 in
  let fn := jspEvaluateVar matches_src in
  let w6 := if negb (is_undef fn) && jsvIsFunction fn
            then set_child st "matches" fn w5 else w5 in
  (st, w6).

(** *** Named function resolution (lines 306-336) *)

Definition getChildObj (h : Heap) (o : JsVar) (k : string) : JsVar :=
  let v := jsvObjectGetChild h o k in
  if is_undef v then JUndef else if jsvIsObject h v then v else JUndef.

Definition resolveNamedFromConfig (h : Heap) (owner : JsVar) (name : string)
  : JsVar :=
  let cfg := jsvObjectGetChild h owner K_CFG in
  if is_undef cfg || negb (jsvIsObject h cfg) then JUndef
  else
    let cfgActs := getChildObj h cfg K_ACTIONS in
    if is_undef cfgActs then JUndef
    else
      let fn := jsvObjectGetChild h cfgActs name in
      if jsvIsFunction fn then fn else JUndef.

(** [root] stands for [execInfo.root], the interpreter's global object. *)
Definition resolveNamedFromGlobal (h : Heap) (root : JsVar) (name : string)
  : JsVar :=
  if is_undef root then JUndef
  else
    let fn := jsvObjectGetChild h root name in
    if jsvIsFunction fn then fn else JUndef.

Definition resolveFunc (h : Heap) (root owner item : JsVar) : JsVar :=
  if is_undef item then JUndef
  else if jsvIsFunction item then item
  else if jsvIsString item then
    let name := str_from_jsv item 48 in
    if negb (str_nonempty name) then JUndef
    else
      let fn := resolveNamedFromConfig h owner name in
      if is_undef fn then resolveNamedFromGlobal h root name else fn
  else JUndef.

(** *** Built-in assign (lines 367-449) *)

(** The two call arguments [{ ctx, eventObj ? eventObj : jsvNewObject() }]. *)
Definition assign_args (ctx eventObj : JsVar) (w : World)
  : list JsVar * World :=
  let '(a1, w1) := if is_undef eventObj then jsvNewObject w
                   else (eventObj, w) in
  ([ctx; a1], w1).

(** Function form, the merge loop over the children of the result.  The
    children are walked as they stand when the loop starts. *)
Fixpoint merge_result (ctx : JsVar) (kvs : list (string * JsVar)) (h : Heap)
  : Heap :=
  match kvs with
  | [] => h
  | (k, v) :: rest =>
      let h1 :=
        if is_undef v then h
        else
          let keybuf := jsvGetString k 64 in
          if str_nonempty keybuf then jsvObjectSetChild ctx keybuf v h else h in
      merge_result ctx rest h1
  end.

(** Map form, the loop over the children of the map.  The children are
    walked as they stand when the loop starts. *)
Fixpoint assign_map (ctx eventObj : JsVar) (kvs : list (string * JsVar))
  (w : World) : World :=
  match kvs with
  | [] => w
  | (k, v) :: rest =>
      let keybuf := jsvGetString k 64 in
      let w1 :=
        if str_nonempty keybuf then
          let '(out, w') :=
            if negb (is_undef v) && jsvIsFunction v then
              let '(args, wa) := assign_args ctx eventObj w in
              xfsm_callJsFunction v JUndef args wa
            else (v, w) in
          if is_undef out then w' else set_child ctx keybuf out w'
        else w in
      assign_map ctx eventObj rest w1
  end.

(** The payload of an assign action (lines 377-383): the [assignment] child
    of an object, else the object itself; a function stands for itself. *)
Definition assign_payload (h : Heap) (assignAction : JsVar) : JsVar :=
  if jsvIsObject h assignAction then
    let p := jsvObjectGetChild h assignAction "assignment" in
    if is_undef p then assignAction else p
  else if jsvIsFunction assignAction then assignAction
  else JUndef.

(** [apply_assignment(svc, pCtx, assignAction, eventObj)]; the result is the
    new value of [*pCtx]. *)
Definition apply_assignment (svc ctx assignAction eventObj : JsVar)
  (w : World) : JsVar * World :=
  (* ensure we have a context object to write to *)
  let '(ctx1, w1) :=
    if is_undef ctx || negb (jsvIsObject (heap w) ctx) then jsvNewObject w
    else (ctx, w) in
  let payload := assign_payload (heap w1) assignAction in
  if is_undef payload then (ctx1, w1)
  (* case 1: function (ctx, evt) -> object to merge *)
  else if jsvIsFunction payload then
    let '(args, w2) := assign_args ctx1 eventObj w1 in
    let '(res, w3) := xfsm_callJsFunction payload JUndef args w2 in
    if negb (is_undef res) && jsvIsObject (heap w3) res
    then (ctx1, with_heap (merge_result ctx1 (obj_entries (heap w3) res)) w3)
    else (ctx1, w3)
  (* case 2: object map { key: const | fn(ctx,evt) } *)
  else if jsvIsObject (heap w1) payload then
    (ctx1, assign_map ctx1 eventObj (obj_entries (heap w1) payload) w1)
  else (ctx1, w1).

(** *** The action pipeline (lines 479-641) *)

(** The named-actions table: service._options.actions, else
    service._machine._options.actions, else
    service._machine.config.options.actions, else
    service._machine.config.actions (lines 493-524). *)
Definition resolve_actions_map (h : Heap) (service : JsVar) : JsVar :=
  let opts := jsvObjectGetChild h service "_options" in
  let m1 := if is_undef opts then JUndef
            else jsvObjectGetChild h opts "actions" in
  if negb (is_undef m1) then m1
  else
    let mach := jsvObjectGetChild h service "_machine" in
    if is_undef mach then JUndef
    else
      let mopts := jsvObjectGetChild h mach "_options" in
      let m2 := if is_undef mopts then JUndef
                else jsvObjectGetChild h mopts "actions" in
      if negb (is_undef m2) then m2
      else
        let cfg := jsvObjectGetChild h mach "config" in
        if is_undef cfg then JUndef
        else
          let copt := jsvObjectGetChild h cfg "options" in
          let m3 := if is_undef copt then JUndef
                    else jsvObjectGetChild h copt "actions" in
          if negb (is_undef m3) then m3
          else jsvObjectGetChild h cfg "actions".

(** [argv] of an action call:
    [{ *pCtx ? *pCtx : jsvNewObject(), eventObj ? eventObj : jsvNewObject() }]. *)
Definition action_argv (ctx eventObj : JsVar) (w : World)
  : list JsVar * World :=
  let '(a0, w1) := if is_undef ctx then jsvNewObject w else (ctx, w) in
  let '(a1, w2) := if is_undef eventObj then jsvNewObject w1
                   else (eventObj, w1) in
  ([a0; a1], w2).

(** Call an action function with the service as [this]; the result is
    dropped. *)
Definition exec_action (fn service ctx eventObj : JsVar) (w : World)
  : World :=
  let '(argv, w1) := action_argv ctx eventObj w in
  snd (jspExecuteFunction fn service argv w1).

(** Branch B2 of the loop body (lines 567-603): [{ type: "..." }].  The
    result says whether the item was handled. *)
Definition run_typed_item (service actsMap eventObj item ctx : JsVar)
  (w : World) : bool * (JsVar * World) :=
  let typ := jsvObjectGetChild (heap w) item "type" in
  if negb (is_undef typ) && jsvIsString typ then
    let tbuf := match typ with JStr s => jsvGetString s 31 | _ => "" end in
    if String.eqb tbuf "xstate.assign" || String.eqb tbuf "assign" then
      (true, apply_assignment service ctx item eventObj w)
    else if negb (is_undef actsMap) && jsvIsObject (heap w) actsMap then
      let fn := jsvObjectGetChild (heap w) actsMap tbuf in
      if negb (is_undef fn) && jsvIsFunction fn
      then (true, (ctx, exec_action fn service ctx eventObj w))
      else (false, (ctx, w))
    else (false, (ctx, w))
  else (false, (ctx, w)).

(** The body of the loop for one non-null item (lines 532-636); the result is
    the new value of [*pCtx]. *)
Definition run_action_item (service actsMap eventObj item ctx : JsVar)
  (w : World) : JsVar * World :=
  (* A) direct function *)
  if jsvIsFunction item then (ctx, exec_action item service ctx eventObj w)
  (* B) object action *)
  else if jsvIsObject (heap w) item then
    let exec := jsvObjectGetChild (heap w) item "exec" in
    (* B1) { exec:function } *)
    if negb (is_undef exec) && jsvIsFunction exec
    then (ctx, exec_action exec service ctx eventObj w)
    else
      (* B2) { type:"..." } *)
      let '(handled, (ctx1, w1)) :=
        run_typed_item service actsMap eventObj item ctx w in
      (* B3) if (!handled) apply_assignment(...) *)
      if handled then (ctx1, w1)
      else apply_assignment service ctx1 item eventObj w1
  (* C) "name" *)
  else if jsvIsString item && negb (is_undef actsMap)
          && jsvIsObject (heap w) actsMap then
    let nbuf := match item with JStr s => jsvGetString s 31 | _ => "" end in
    let fn := jsvObjectGetChild (heap w) actsMap nbuf in
    if negb (is_undef fn) && jsvIsFunction fn
    then (ctx, exec_action fn service ctx eventObj w)
    else (ctx, w)
  else (ctx, w).

(** [for (i = 0; i < len; i++)] with [len] read before the loop and the item
    read from the array at each turn; [n] counts the turns left. *)
Fixpoint run_actions_loop (service actsMap actionsArr eventObj : JsVar)
  (i n : nat) (ctx : JsVar) (w : World) : JsVar * World :=
  match n with
  | O => (ctx, w)
  | S n' =>
      let item := jsvGetArrayItem (heap w) actionsArr i in
      let '(ctx1, w1) :=
        if is_undef item then (ctx, w)
        else run_action_item service actsMap eventObj item ctx w in
      run_actions_loop service actsMap actionsArr eventObj (S i) n' ctx1 w1
  end.

(** [run_actions_raw(service, &ctx, actionsArr, eventObj, fromName, toName)];
    the result is the final value of [ctx].  The two names are unused, as in
    the source ([(void)fromName; (void)toName;]). *)
Definition run_actions_raw (service ctx actionsArr eventObj : JsVar)
  (fromName toName : string) (w : World) : JsVar * World :=
  if is_undef actionsArr || negb (jsvIsArray (heap w) actionsArr)
  then (ctx, w)
  else
    let actsMap := resolve_actions_map (heap w) service in
    let len := jsvGetArrayLength (heap w) actionsArr in
    run_actions_loop service actsMap actionsArr eventObj 0 len ctx w.

(** *** Machine (lines 803-1086) *)

Definition xfsm_machine_initial_state (machine : JsVar) (w : World)
  : JsVar * World :=
  if is_undef machine || negb (jsvIsObject (heap w) machine) then (JUndef, w)
  else
    let cfg := jsvObjectGetChild (heap w) machine K_CFG in
    if is_undef cfg then (JUndef, w)
    else
      let '(_, w1) := xfsm_validate_no_nested_states cfg w in
      let h := heap w1 in
      let initBuf := str_from_jsv (jsvObjectGetChild h cfg "initial") 64 in
      if negb (str_nonempty initBuf) then (JUndef, w1)
      else
        let states := jsvObjectGetChild h cfg K_STATES in
        if is_undef states || negb (jsvIsObject h states) then (JUndef, w1)
        else
          let node := jsvObjectGetChild h states initBuf in
          let entryArr :=
            if negb (is_undef node) && jsvIsObject h node
            then jsvObjectGetChild h node K_ENTRY else JUndef in
          let ctx := jsvObjectGetChild h cfg K_CONTEXT in
          new_state_obj initBuf ctx entryArr false w1.

(** The source state name [fromBuf] (lines 904-921). *)
Definition transition_from (h : Heap) (cfg stateOrValue : JsVar) : string :=
  let fromBuf :=
    if is_undef stateOrValue then ""
    else if jsvIsObject h stateOrValue
    then str_from_jsv (jsvObjectGetChild h stateOrValue S_VALUE) 64
    else str_from_jsv stateOrValue 64 in
  if negb (str_nonempty fromBuf)
  then str_from_jsv (jsvObjectGetChild h cfg "initial") 64
  else fromBuf.

(** The context handed to guards, [guardCtx] (lines 905-925). *)
Definition transition_guardCtx (h : Heap) (cfg stateOrValue : JsVar) : JsVar :=
  let g :=
    if negb (is_undef stateOrValue) && jsvIsObject h stateOrValue
    then jsvObjectGetChild h stateOrValue S_CTX else JUndef in
  if is_undef g then jsvObjectGetChild h cfg K_CONTEXT else g.

(** Guard of one candidate (lines 960-972 and 992-1004): [pass]. *)
Definition eval_cond (c guardCtx eventObj : JsVar) (w : World)
  : bool * World :=
  let cond := jsvObjectGetChild (heap w) c K_COND in
  if is_undef cond then (true, w)
  else if jsvIsFunction cond then
    let '(a0, w1) := if is_undef guardCtx then jsvNewObject w
                     else (guardCtx, w) in
    let '(res, w2) := xfsm_callJsFunction cond JUndef [a0; eventObj] w1 in
    (if is_undef res then false else jsvGetBool res, w2)
  else (true, w).

(** Shorthand ["B" -> { target:"B" }] (lines 953-957 and 982-985). *)
Definition shorthand_candidate (s : JsVar) (w : World) : JsVar * World :=
  let toTmp := str_from_jsv s 64 in
  let '(obj, w1) := jsvNewObject w in
  (obj, set_child obj K_TARGET (JStr toTmp) w1).

(** The loop over an array of candidates (lines 976-1008); [n] counts the
    turns left. *)
Fixpoint select_in_array (cands guardCtx eventObj : JsVar) (i n : nat)
  (w : World) : JsVar * World :=
  match n with
  | O => (JUndef, w)
  | S n' =>
      let el := jsvGetArrayItem (heap w) cands i in
      if is_undef el then select_in_array cands guardCtx eventObj (S i) n' w
      else
        let '(c, w1) :=
          if jsvIsString el then shorthand_candidate el w
          else if jsvIsObject (heap w) el then (el, w)
          else (JUndef, w) in
        if is_undef c then select_in_array cands guardCtx eventObj (S i) n' w1
        else
          let '(pass, w2) := eval_cond c guardCtx eventObj w1 in
          if pass then (c, w2)
          else select_in_array cands guardCtx eventObj (S i) n' w2
  end.

(** Candidate selection (lines 949-1010): [candSel]. *)
Definition select_candidate (cands guardCtx eventObj : JsVar) (w : World)
  : JsVar * World :=
  if is_undef cands then (JUndef, w)
  else if jsvIsString cands then shorthand_candidate cands w
  else if jsvIsObject (heap w) cands then
    let '(pass, w1) := eval_cond cands guardCtx eventObj w in
    (if pass then cands else JUndef, w1)
  else if jsvIsArray (heap w) cands then
    select_in_array cands guardCtx eventObj 0
      (jsvGetArrayLength (heap w) cands) w
  else (JUndef, w).

(** Appending an action list to [allActs] (lines 1026-1033, 1037-1044 and
    1058-1064): the items of an array that are not null, or the value itself
    when it is not an array. *)
Fixpoint push_items_loop (dst src : JsVar) (i n : nat) (h : Heap) : Heap :=
  match n with
  | O => h
  | S n' =>
      let a := jsvGetArrayItem h src i in
      push_items_loop dst src (S i) n'
        (if is_undef a then h else jsvArrayPush dst a h)
  end.

Definition push_actions (dst src : JsVar) (h : Heap) : Heap :=
  if is_undef src then h
  else if jsvIsArray h src
  then push_items_loop dst src 0 (jsvGetArrayLength h src) h
  else jsvArrayPush dst src h.

(** What the function has read when it reaches candidate selection (lines
    883-946): [states], [fromBuf], [srcNode], [guardCtx], [exitArr] and
    [cands]; [None] stands for the early [return 0]. *)
Record Prelude : Type := mkPrelude {
  p_states : JsVar;
  p_from : string;
  p_srcNode : JsVar;
  p_guardCtx : JsVar;
  p_exitArr : JsVar;
  p_cands : JsVar
}.

Definition transition_prelude (h : Heap) (machine stateOrValue eventObj : JsVar)
  : option Prelude :=
  if is_undef machine || negb (jsvIsObject h machine)
     || is_undef eventObj || negb (jsvIsObject h eventObj)
  then None
  else
    let cfg := jsvObjectGetChild h machine K_CFG in
    if is_undef cfg then None
    else
      let states := jsvObjectGetChild h cfg K_STATES in
      if is_undef states || negb (jsvIsObject h states) then None
      else
        let evBuf := str_from_jsv (jsvObjectGetChild h eventObj "type") 64 in
        if negb (str_nonempty evBuf) then None
        else
          let fromBuf := transition_from h cfg stateOrValue in
          let guardCtx := transition_guardCtx h cfg stateOrValue in
          if negb (str_nonempty fromBuf) then None
          else
            let srcNode := jsvObjectGetChild h states fromBuf in
            if is_undef srcNode || negb (jsvIsObject h srcNode) then None
            else
              let onObj := jsvObjectGetChild h srcNode K_ON in
              let exitArr := jsvObjectGetChild h srcNode K_EXIT in
              let cands :=
                if negb (is_undef onObj) && jsvIsObject h onObj
                then jsvObjectGetChild h onObj evBuf else JUndef in
              Some (mkPrelude states fromBuf srcNode guardCtx exitArr cands).

(** The target name [toBuf] of the selected candidate (lines 1047-1051). *)
Definition candidate_target (h : Heap) (candSel : JsVar) : string :=
  str_from_jsv (jsvObjectGetChild h candSel K_TARGET) 64.

(** Building the next state object once a candidate is selected (lines
    1022-1085). *)
Definition transition_build (p : Prelude) (candSel : JsVar) (w1 : World)
  : JsVar * World :=
  let '(allActs, w2) := jsvNewArray w1 in
  (* exit[] *)
  let w3 := with_heap (push_actions allActs (p_exitArr p)) w2 in
  (* transition.actions *)
  let transActs := jsvObjectGetChild (heap w3) candSel K_ACTIONS in
  let w4 := with_heap (push_actions allActs transActs) w3 in
  (* target? *)
  let toBuf := candidate_target (heap w4) candSel in
  let targetless := negb (str_nonempty toBuf) in
  (* entry[] if targeted *)
  let w5 :=
    if targetless then w4
    else
      let dstNode := jsvObjectGetChild (heap w4) (p_states p) toBuf in
      if negb (is_undef dstNode) && jsvIsObject (heap w4) dstNode
      then
        let entryArr := jsvObjectGetChild (heap w4) dstNode K_ENTRY in
        with_heap (push_actions allActs entryArr) w4
      else w4 in
  let changed := negb targetless && negb (String.eqb (p_from p) toBuf) in
  new_state_obj (if targetless then p_from p else toBuf)
    (p_guardCtx p) allActs changed w5.

(** [xfsm_machine_transition_ex(machine, stateOrValue, eventObj)]: the reads
    up to the candidates, the selection, the construction of the result. *)
Definition xfsm_machine_transition_ex (machine stateOrValue eventObj : JsVar)
  (w : World) : JsVar * World :=
  match transition_prelude (heap w) machine stateOrValue eventObj with
  | None => (JUndef, w)
  | Some p =>
      let '(candSel, w1) :=
        select_candidate (p_cands p) (p_guardCtx p) eventObj w in
      if is_undef candSel then (JUndef, w1)
      else transition_build p candSel w1
  end.

(** The string-event shim (lines 862-871). *)
Definition xfsm_machine_transition (machine stateOrValue eventStr : JsVar)
  (w : World) : JsVar * World :=
  if is_undef machine || negb (jsvIsObject (heap w) machine)
     || is_undef eventStr || negb (jsvIsString eventStr)
  then (JUndef, w)
  else
    let '(evtObj, w1) := jsvNewObject w in
    xfsm_machine_transition_ex machine stateOrValue evtObj
      (set_child evtObj "type" eventStr w1).

(** *** Service / interpreter (lines 1093-1290) *)

(** [xfsm_ensure_unsub_factory] only caches a function value in a static
    variable that no function of the Service reads; it has no counterpart
    here (the variable is modelled on its own further down). *)
Definition xfsm_service_init (serviceObj machineObj : JsVar) (w : World)
  : World :=
  if is_undef serviceObj || negb (jsvIsObject (heap w) serviceObj) then w
  else if is_undef machineObj || negb (jsvIsObject (heap w) machineObj) then w
  else
    let w1 := set_child serviceObj K_MACHINE machineObj w in
    let cfg := jsvObjectGetChild (heap w1) machineObj K_CFG in
    let w2 :=
      if is_undef cfg then w1
      else
        let ctx := jsvObjectGetChild (heap w1) cfg K_CONTEXT in
        if is_undef ctx then w1 else set_child serviceObj K_SCTX ctx w1 in
    let '(st, w3) := xfsm_machine_initial_state machineObj w2 in
    let w4 := if is_undef st then w3 else set_child serviceObj K_SSTATE st w3 in
    set_child serviceObj K_SSTATUS (JStr "NotStarted") w4.

(** Writing the context back once the action list has run (lines 1157-1162
    and 1239-1243): into the service, and into the state object. *)
Definition persist_context (svc st ctx : JsVar) (w : World) : World :=
  if is_undef ctx then w
  else set_child st S_CTX ctx (set_child svc K_SCTX ctx w).

Definition status_is (h : Heap) (svc : JsVar) (s : string) : bool :=
  let st := jsvObjectGetChild h svc K_SSTATUS in
  negb (is_undef st) && jsvIsString st && String.eqb (str_from_jsv st 16) s.

Definition xfsm_service_start (svc : JsVar) (w : World) : JsVar * World :=
  if is_undef svc || negb (jsvIsObject (heap w) svc) then (JUndef, w)
  else if status_is (heap w) svc "Running" then (svc, w)
  else
    let m := jsvObjectGetChild (heap w) svc K_MACHINE in
    if is_undef m then (JUndef, w)
    else
      let '(st, w1) := xfsm_machine_initial_state m w in
      if is_undef st then (JUndef, w1)
      else
        (* run entry actions with xstate.init *)
        let ctx := jsvObjectGetChild (heap w1) svc K_SCTX in
        let acts := jsvObjectGetChild (heap w1) st S_ACTS in
        let '(evtInit, w2) := jsvNewObject w1 in
        let w3 := set_child evtInit "type" (JStr "xstate.init") w2 in
        let toBuf := str_from_jsv (jsvObjectGetChild (heap w1) st S_VALUE) 64 in
        let '(ctx1, w4) := run_actions_raw svc ctx acts evtInit "" toBuf w3 in
        (* persist updated context back to service and state object *)
        let w5 := persist_context svc st ctx1 w4 in
        (* commit state + status *)
        let w6 := set_child svc K_SSTATE st w5 in
        let w7 := set_child svc K_SSTATUS (JStr "Running") w6 in
        (svc, xfsm_notify_listeners svc w7).

Definition xfsm_service_stop (svc : JsVar) (w : World) : JsVar * World :=
  if is_undef svc then (JUndef, w)
  else
    let w1 := set_child svc K_SSTATUS (JStr "Stopped") w in
    let '(empty, w2) := jsvNewObject w1 in
    (svc, set_child svc "_listeners" empty w2).

Definition xfsm_service_send (svc event : JsVar) (w : World)
  : JsVar * World :=
  if is_undef svc || is_undef event then (JUndef, w)
  (* must be running *)
  else if negb (status_is (heap w) svc "Running") then (JUndef, w)
  else
    let m := jsvObjectGetChild (heap w) svc K_MACHINE in
    if is_undef m then (JUndef, w)
    else
      (* normalize event *)
      let '(evtObj, w1) := xfsm_normalize_event event w in
      if is_undef evtObj then (JUndef, w1)
      else
        (* previous service state (for fromStr) *)
        let prev := jsvObjectGetChild (heap w1) svc K_SSTATE in
        let fromBuf :=
          if is_undef prev then ""
          else str_from_jsv (jsvObjectGetChild (heap w1) prev S_VALUE) 64 in
        (* compute next pure state: the state argument is the constant 0 *)
        let '(next, w2) := xfsm_machine_transition_ex m JUndef evtObj w1 in
        if is_undef next then (JUndef, w2)
        else
          (* execute actions *)
          let acts := jsvObjectGetChild (heap w2) next S_ACTS in
          let ctx := jsvObjectGetChild (heap w2) svc K_SCTX in
          let toBuf :=
            str_from_jsv (jsvObjectGetChild (heap w2) next S_VALUE) 64 in
          let '(ctx1, w3) :=
            run_actions_raw svc ctx acts evtObj fromBuf toBuf w2 in
          (* reflect updated ctx both into service and into state object *)
          let w4 := persist_context svc next ctx1 w3 in
          (* store next state object on service *)
          let w5 := set_child svc K_SSTATE next w4 in
          let w6 := xfsm_notify_listeners svc w5 in
          (jsvObjectGetChild (heap w6) next S_VALUE, w6).

Definition xfsm_service_get_state (h : Heap) (svc : JsVar) : JsVar :=
  if is_undef svc then JUndef else jsvObjectGetChild h svc K_SSTATE.

Definition xfsm_service_get_status (h : Heap) (svc : JsVar) : JsVar :=
  if is_undef svc then JUndef
  else
    let v := jsvObjectGetChild h svc K_SSTATUS in
    if is_undef v then JStr "NotStarted" else v.

Definition xfsm_service_get_status_num (h : Heap) (svc : JsVar) : Z :=
  if is_undef svc then 0%Z
  else if status_is h svc "Running" then 1%Z
  else if status_is h svc "Stopped" then 2%Z
  else 0%Z.

End Engine.

(** ** Vocabulary of the properties

    The notions the statements below are written with: well-formed stores,
    the items of an action list, the elements of [on[event]] and the trace of
    their guard evaluations, the next state in the words of the
    specification, the value an assignment leaves under a key; then the
    example programs. *)

(** A value is valid in a store when it is not a dangling reference; a store
    is closed when every value kept in one of its cells is valid. *)
Definition valid (h : Heap) (v : JsVar) : bool :=
  match v with JRef r => Nat.ltb r (length h) | _ => true end.

Definition cell_vals (c : Cell) : list JsVar :=
  match c with CObj kvs => map snd kvs | CArr items => items end.

Definition closed (h : Heap) : bool :=
  forallb (fun c => forallb (valid h) (cell_vals c)) h.

(** The items an action list contributes: the non-null items of an array, or
    the value itself when it is not an array. *)
Definition action_items (h : Heap) (v : JsVar) : list JsVar :=
  if is_undef v then []
  else if jsvIsArray h v
  then filter (fun x => is_undef x = false) (arr_items h v)
  else [v].

(** The children of a state object built by [new_state_obj]. *)
Definition state_fields (host : Host) (value : string) (ctx acts : JsVar)
  (changed : bool) : list (string * JsVar) :=
  let f1 := if str_nonempty value then [(S_VALUE, JStr value)] else [] in
  let f2 := if is_undef ctx then f1 else assoc_set S_CTX ctx f1 in
  let f3 := if is_undef acts then f2 else assoc_set S_ACTS acts f2 in
  let f4 := assoc_set "changed" (JBool changed) f3 in
  let fn := jspEvaluateVar host matches_src in
  if negb (is_undef fn) && jsvIsFunction fn
  then assoc_set "matches" fn f4 else f4.

(** The entry actions of the node a target names, and what a possibly
    empty target contributes (lines 1054-1069). *)
Definition target_entry (h : Heap) (states : JsVar) (toBuf : string)
  : list JsVar :=
  let dstNode := jsvObjectGetChild h states toBuf in
  if negb (is_undef dstNode) && jsvIsObject h dstNode
  then action_items h (jsvObjectGetChild h dstNode K_ENTRY)
  else [].

Definition entry_items (h : Heap) (states : JsVar) (toBuf : string)
  : list JsVar :=
  if str_nonempty toBuf then target_entry h states toBuf else [].

(** The state object built for a selected candidate, as a function of what
    is read from the store [h]: its action list, its value and its [changed]
    flag. *)
Definition built_actions (h : Heap) (p : Prelude) (candSel : JsVar)
  : list JsVar :=
  action_items h (p_exitArr p)
  ++ action_items h (jsvObjectGetChild h candSel K_ACTIONS)
  ++ entry_items h (p_states p) (candidate_target h candSel).

Definition built_value (h : Heap) (p : Prelude) (candSel : JsVar) : string :=
  let toBuf := candidate_target h candSel in
  if str_nonempty toBuf then toBuf else p_from p.

Definition built_changed (h : Heap) (p : Prelude) (candSel : JsVar) : bool :=
  let toBuf := candidate_target h candSel in
  str_nonempty toBuf && negb (String.eqb (p_from p) toBuf).

(** The host does not write existing cells: a call may only allocate. *)
Definition host_frame (host : Host) : Prop :=
  forall fn th args h, h `prefix_of` snd (host_exec host fn th args h).

(** The elements of [on[event]] in declared order: a name or an object
    stands for itself, an array for its items. *)
Definition cand_elems (h : Heap) (cands : JsVar) : list JsVar :=
  if is_undef cands then []
  else if jsvIsString cands then [cands]
  else if jsvIsObject h cands then [cands]
  else if jsvIsArray h cands then arr_items h cands
  else [].

(** An element is a candidate when it is a name (shorthand) or an object. *)
Definition is_candidate (h : Heap) (el : JsVar) : bool :=
  jsvIsString el || jsvIsObject h el.

Definition cand_cond (h : Heap) (el : JsVar) : JsVar :=
  jsvObjectGetChild h el K_COND.

(** A logged call is the evaluation of the guard [cond] on [(g, e)]. *)
Definition guard_call (g e cond : JsVar) (c : Call) : Prop :=
  call_fn c = cond /\ jsvIsFunction cond = true /\ call_this c = JNull
  /\ exists a0, call_args c = [a0; e] /\ (is_undef g = false -> a0 = g).

(** [FirstMatch h g e els tr o]: walking [els] in declared order, [tr] is
    the sequence of guard evaluations made and [o] the element selected.
    An element that is not a candidate is passed over; a candidate whose
    [cond] is not a function is selected without any evaluation; a candidate
    whose [cond] is a function is evaluated, selected if the result is
    truthy, and passed over otherwise.  Nothing after the selected element
    is looked at. *)
Inductive FirstMatch (h : Heap) (g e : JsVar)
  : list JsVar -> list Call -> option JsVar -> Prop :=
| FM_end : FirstMatch h g e [] [] None
| FM_skip el els tr o :
    is_candidate h el = false ->
    FirstMatch h g e els tr o ->
    FirstMatch h g e (el :: els) tr o
| FM_pass el els :
    is_candidate h el = true ->
    jsvIsFunction (cand_cond h el) = false ->
    FirstMatch h g e (el :: els) [] (Some el)
| FM_accept el els c :
    is_candidate h el = true ->
    guard_call g e (cand_cond h el) c ->
    jsvGetBool (call_res c) = true ->
    FirstMatch h g e (el :: els) [c] (Some el)
| FM_reject el els c tr o :
    is_candidate h el = true ->
    guard_call g e (cand_cond h el) c ->
    jsvGetBool (call_res c) = false ->
    FirstMatch h g e els tr o ->
    FirstMatch h g e (el :: els) (c :: tr) o.

(** How the selected value [c] relates to the element [el] it comes from:
    an object is selected as it is, a name as a fresh [{ target: name }]. *)
Definition Selected (h : Heap) (el c : JsVar) (h' : Heap) : Prop :=
  (jsvIsObject h el = true /\ c = el)
  \/ (jsvIsString el = true /\ valid h c = false
      /\ cell_of h' c = Some (CObj [(K_TARGET, JStr (str_from_jsv el 64))])).

Definition Outcome (h : Heap) (o : option JsVar) (c : JsVar) (h' : Heap)
  : Prop :=
  match o with
  | None => c = JUndef
  | Some el => Selected h el c h'
  end.

(** What the selected element contributes, read from the store [h] the
    transition started from. *)
Definition cand_target (h : Heap) (el : JsVar) : string :=
  if jsvIsString el then str_from_jsv el 64 else candidate_target h el.

Definition cand_actions (h : Heap) (el : JsVar) : JsVar :=
  if jsvIsString el then JUndef else jsvObjectGetChild h el K_ACTIONS.

(** The next state in the words of the specification: the action list is
    the exit actions of the source node, then the actions of the candidate,
    then the entry actions of the target node when there is a target; the
    value is the target, or the source when there is none; [changed] holds
    when there is a target and it differs from the source. *)
Definition next_actions (h : Heap) (p : Prelude) (el : JsVar) : list JsVar :=
  action_items h (jsvObjectGetChild h (p_srcNode p) K_EXIT)
  ++ action_items h (cand_actions h el)
  ++ entry_items h (p_states p) (cand_target h el).

Definition next_value (h : Heap) (p : Prelude) (el : JsVar) : string :=
  if str_nonempty (cand_target h el) then cand_target h el else p_from p.

Definition next_changed (h : Heap) (p : Prelude) (el : JsVar) : bool :=
  str_nonempty (cand_target h el)
  && negb (String.eqb (p_from p) (cand_target h el)).

(** What a caller reads from a state object. *)
Definition state_view (h : Heap) (st : JsVar)
  : JsVar * JsVar * JsVar * list JsVar :=
  (jsvObjectGetChild h st S_VALUE, jsvObjectGetChild h st S_CTX,
   jsvObjectGetChild h st "changed",
   arr_items h (jsvObjectGetChild h st S_ACTS)).

(** A candidate was evaluated and rejected. *)
Definition rejected_by (h : Heap) (g e : JsVar) (el : JsVar) (c : Call)
  : Prop :=
  guard_call g e (cand_cond h el) c /\ jsvGetBool (call_res c) = false.

(** The event carries a usable type: a non-empty string. *)
Definition event_type_ok (h : Heap) (ev : JsVar) : bool :=
  match jsvObjectGetChild h ev "type" with
  | JStr s => str_nonempty s
  | _ => false
  end.








(** ** Example programs *)

(** The functions of the examples.  None of them writes the store.
    - [JFun 0]: [function(){}], returns undefined;
    - [JFun 1]: [function(ctx){ return ctx.n + 1; }];
    - [JFun 2]: the value of the function literal [matches_src];
    - [JFun 3]: the value of the function literal [validate_src] (the
      examples are flat machines: it returns the empty string);
    - [JFun 4]: [function(){ return false; }];
    - [JFun 5]: [function(){ return true; }];
    - [JFun 6]: [function(){ return this._context.n; }]. *)
Definition demo_result (fn this : JsVar) (args : list JsVar) (h : Heap)
  : JsVar :=
  match fn with
  | JFun 1 =>
      match args with
      | ctx :: _ =>
          match jsvObjectGetChild h ctx "n" with
          | JInt z => JInt (z + 1)
          | _ => JUndef
          end
      | [] => JUndef
      end
  | JFun 3 => JStr ""
  | JFun 4 => JBool false
  | JFun 5 => JBool true
  | JFun 6 => jsvObjectGetChild h (jsvObjectGetChild h this K_SCTX) "n"
  | _ => JUndef
  end.

Definition demo_exec (fn this : JsVar) (args : list JsVar) (h : Heap)
  : JsVar * Heap :=
  (demo_result fn this args h, h).

Definition demo_eval (src : string) : JsVar :=
  if String.eqb src matches_src then JFun 2
  else if String.eqb src validate_src then JFun 3
  else JUndef.

Definition demo_host : Host := mkHost demo_exec demo_eval.

(** The traffic light of the specification:
    [{initial:"green", context:{n:0}, states:{
       green:{on:{NEXT:"yellow"}, exit:[{count:()=>{}}]},
       yellow:{entry:[{n:(ctx)=>ctx.n+1}], on:{NEXT:"red"}},
       red:{on:{NEXT:"green"}}}}];
    cell 0 is the machine, cell 15 a new Service object. *)
Definition traffic_heap : Heap :=
  [ CObj [("config", JRef 1); ("_options", JRef 2)];
    CObj [("initial", JStr "green"); ("context", JRef 3); ("states", JRef 4)];
    CObj [];
    CObj [("n", JInt 0)];
    CObj [("green", JRef 5); ("yellow", JRef 6); ("red", JRef 7)];
    CObj [("on", JRef 8); ("exit", JRef 9)];
    CObj [("entry", JRef 11); ("on", JRef 13)];
    CObj [("on", JRef 14)];
    CObj [("NEXT", JStr "yellow")];
    CArr [JRef 10];
    CObj [("count", JFun 0)];
    CArr [JRef 12];
    CObj [("n", JFun 1)];
    CObj [("NEXT", JStr "red")];
    CObj [("NEXT", JStr "green")];
    CObj [] ].

Definition traffic_machine : JsVar := JRef 0.
Definition traffic_service : JsVar := JRef 15.

(** A machine with guards:
    [{initial:"a", context:{n:0}, actions:{never:()=>false}, states:{
       a:{exit:[f0],
          on:{GO:[{cond:()=>false,target:"b"},{cond:()=>false,target:"c"},
                  {target:"d"}],
              NAMED:{target:"b", cond:"never"},
              STAY:{actions:[f5]},
              "":"b",
              LIST:[{cond:"never",target:"b"},{target:"c"}]}},
       b:{entry:[f0]}, c:{}, d:{entry:[f0]}}}];
    cell 0 is the machine, cells 20 to 23 are the events
    [{type:"GO"}], [{type:"NAMED"}], [{type:"STAY"}] and [{}], cell 27 the
    event [{type:"LIST"}]. *)
Definition guard_heap : Heap :=
  [ CObj [("config", JRef 1)];
    CObj [("initial", JStr "a"); ("context", JRef 2); ("states", JRef 3);
          ("actions", JRef 4)];
    CObj [("n", JInt 0)];
    CObj [("a", JRef 5); ("b", JRef 6); ("c", JRef 7); ("d", JRef 8)];
    CObj [("never", JFun 4)];
    CObj [("exit", JRef 9); ("on", JRef 10)];
    CObj [("entry", JRef 11)];
    CObj [];
    CObj [("entry", JRef 12)];
    CArr [JFun 0];
    CObj [("GO", JRef 13); ("NAMED", JRef 17); ("STAY", JRef 18);
          ("", JStr "b"); ("LIST", JRef 24)];
    CArr [JFun 0];
    CArr [JFun 0];
    CArr [JRef 14; JRef 15; JRef 16];
    CObj [("cond", JFun 4); ("target", JStr "b")];
    CObj [("cond", JFun 4); ("target", JStr "c")];
    CObj [("target", JStr "d")];
    CObj [("target", JStr "b"); ("cond", JStr "never")];
    CObj [("actions", JRef 19)];
    CArr [JFun 5];
    CObj [("type", JStr "GO")];
    CObj [("type", JStr "NAMED")];
    CObj [("type", JStr "STAY")];
    CObj [];
    CArr [JRef 25; JRef 26];
    CObj [("cond", JStr "never"); ("target", JStr "b")];
    CObj [("target", JStr "c")];
    CObj [("type", JStr "LIST")] ].

Definition guard_machine : JsVar := JRef 0.
Definition guard_world : World := mkWorld guard_heap [].

(** A machine whose [initial] names no state:
    [{initial:"ghost", context:{n:0}, states:{a:{}}}]. *)
Definition ghost_heap : Heap :=
  [ CObj [("config", JRef 1)];
    CObj [("initial", JStr "ghost"); ("context", JRef 2); ("states", JRef 3)];
    CObj [("n", JInt 0)];
    CObj [("a", JRef 4)];
    CObj [] ].

(** A running Service (cell 0) with context [{n:0, count:5}] (cell 3), a
    named-actions table [{known: f0}], and three action sources: the list
    [[{type:"missing"}]] (cell 5), the list [[{n:1}, f6]] (cell 7) and the
    assignment map [{count: f0}] (cell 9); cell 10 is the event
    [{type:"GO"}]. *)
Definition pipe_heap : Heap :=
  [ CObj [("_machine", JRef 1); ("_context", JRef 3);
          ("_status", JStr "Running")];
    CObj [("config", JRef 2)];
    CObj [("actions", JRef 4)];
    CObj [("n", JInt 0); ("count", JInt 5)];
    CObj [("known", JFun 0)];
    CArr [JRef 6];
    CObj [("type", JStr "missing")];
    CArr [JRef 8; JFun 6];
    CObj [("n", JInt 1)];
    CObj [("count", JFun 0)];
    CObj [("type", JStr "GO")] ].

Definition pipe_world : World := mkWorld pipe_heap [].

(** ** The single-object FSM and the subscription helpers

    The rest of [xfsm.c]: the single-object FSM (lines 646-798), which keeps
    its state and status on the object that holds the configuration, the
    helpers it uses, and the unsubscribe factory (lines 38-85). *)

Definition K_STATUS := "status".
Definition K_STATE := "state".

(** [XfsmStatus] (xfsm.h). *)
Inductive XfsmStatus : Type :=
| XFSM_STATUS_NOTSTARTED
| XFSM_STATUS_RUNNING
| XFSM_STATUS_STOPPED.

(** What [xfsm_send_object] has read when it reaches the guard (lines
    722-740): [fromBuf], [cfg], [states], [srcNode] and [trans]. *)
Record SendPrelude : Type := mkSendPrelude {
  sp_from : string;
  sp_cfg : JsVar;
  sp_states : JsVar;
  sp_srcNode : JsVar;
  sp_trans : JsVar
}.

(** The source text of the unsubscribe factory (lines 46-54). *)
Definition unsub_src : string :=
  "(function(m,i){i = ''+i;return function(){try { return m._unsubById(i); }catch(e){ return false; }};})".

Section EngineV1.

Variable host : Host.

(** [execInfo.root], the interpreter's global object. *)
Variable root : JsVar.

(** [set_status(obj, txt)] (lines 247-250). *)
Definition set_status (obj : JsVar) (txt : string) (w : World) : World :=
  set_child obj K_STATUS (JStr txt) w.

(** Raw actions accessors (lines 452-464). *)
Definition getActionListRaw (h : Heap) (node : JsVar) (key : string) : JsVar :=
  let v := jsvObjectGetChild h node key in
  if is_undef v then JUndef else if jsvIsArray h v then v else JUndef.

Definition getTransitionActionsRaw (h : Heap) (transitionObj : JsVar)
  : JsVar :=
  if is_undef transitionObj || negb (jsvIsObject h transitionObj) then JUndef
  else jsvObjectGetChild h transitionObj K_ACTIONS.

(** [xfsm_init_object] (lines 646-650). *)
Definition xfsm_init_object (fsmObject : JsVar) (w : World) : World :=
  if is_undef fsmObject then w
  else
    let v := jsvObjectGetChild (heap w) fsmObject K_STATUS in
    if is_undef v then set_status fsmObject "NotStarted" w else w.

(** The state [xfsm_start_object] chooses (lines 656-666): the argument when
    it is a string, else [config.initial] when it is a string, else
    ["idle"]. *)
Definition start_chosen (h : Heap) (fsmObject initialState : JsVar) : JsVar :=
  if negb (is_undef initialState) && jsvIsString initialState
  then initialState
  else
    let cfg0 := jsvObjectGetChild h fsmObject K_CFG in
    let chosen :=
      if negb (is_undef cfg0) && jsvIsObject h cfg0 then
        let init := jsvObjectGetChild h cfg0 "initial" in
        if negb (is_undef init) && jsvIsString init then init else JUndef
      else JUndef in
    if is_undef chosen then JStr "idle" else chosen.

(** [xfsm_start_object] (lines 652-695).  The entry actions run with a null
    event and a null [fromName]. *)
Definition xfsm_start_object (fsmObject initialState : JsVar) (w : World)
  : XfsmStatus * World :=
  if is_undef fsmObject then (XFSM_STATUS_NOTSTARTED, w)
  else
    let chosen := start_chosen (heap w) fsmObject initialState in
    let w1 := set_child fsmObject K_STATE chosen w in
    let w2 := set_status fsmObject "Running" w1 in
    (* entry actions *)
    let h := heap w2 in
    let cfg := getChildObj h fsmObject K_CFG in
    let ctx := if is_undef cfg then JUndef
               else jsvObjectGetChild h cfg K_CONTEXT in
    let states := if is_undef cfg then JUndef
                  else getChildObj h cfg K_STATES in
    let stateVal := jsvObjectGetChild h fsmObject K_STATE in
    let toBuf := if is_undef stateVal then "" else str_from_jsv stateVal 64 in
    let node := if negb (is_undef states) && str_nonempty toBuf
                then jsvObjectGetChild h states toBuf else JUndef in
    let entryActs := if negb (is_undef node) && jsvIsObject h node
                     then getActionListRaw h node K_ENTRY else JUndef in
    let '(ctx1, w3) :=
      run_actions_raw host fsmObject ctx entryActs JUndef "" toBuf w2 in
    let w4 :=
      if is_undef cfg then w3
      else if is_undef ctx1 then w3 else set_child cfg K_CONTEXT ctx1 w3 in
    (XFSM_STATUS_RUNNING, w4).

(** [xfsm_stop_object] (line 697). *)
Definition xfsm_stop_object (fsmObject : JsVar) (w : World) : World :=
  if is_undef fsmObject then w else set_status fsmObject "Stopped" w.

(** [xfsm_status_object] (lines 699-711). *)
Definition xfsm_status_object (h : Heap) (fsmObject : JsVar) : XfsmStatus :=
  if is_undef fsmObject then XFSM_STATUS_NOTSTARTED
  else
    let v := jsvObjectGetChild h fsmObject K_STATUS in
    if is_undef v then XFSM_STATUS_NOTSTARTED
    else if jsvIsString v then
      let sbuf := str_from_jsv v 16 in
      if String.eqb sbuf "Running" then XFSM_STATUS_RUNNING
      else if String.eqb sbuf "Stopped" then XFSM_STATUS_STOPPED
      else XFSM_STATUS_NOTSTARTED
    else XFSM_STATUS_NOTSTARTED.

(** [xfsm_current_state_var] (lines 713-718). *)
Definition xfsm_current_state_var (h : Heap) (fsmObject : JsVar) : JsVar :=
  if is_undef fsmObject then JUndef
  else
    let v := jsvObjectGetChild h fsmObject K_STATE in
    if is_undef v || negb (jsvIsString v) then JUndef else v.

(** The reads of [xfsm_send_object] up to the transition (lines 722-740);
    [None] stands for the early [return 0].  The event is a string (the
    contract of the parameter, which the wrapper [jswrap_xfsm_send] checks);
    for any other value the buffer [evKey] would be read uninitialised. *)
Definition send_prelude (h : Heap) (fsmObject : JsVar) (event : string)
  : option SendPrelude :=
  if is_undef fsmObject || negb (jsvIsObject h fsmObject) then None
  else
    let cur := jsvObjectGetChild h fsmObject K_STATE in
    if is_undef cur || negb (jsvIsString cur) then None
    else
      let fromBuf := str_from_jsv cur 64 in
      let cfg := getChildObj h fsmObject K_CFG in
      let states := if is_undef cfg then JUndef
                    else getChildObj h cfg K_STATES in
      if is_undef cfg || is_undef states then None
      else
        let srcNode := jsvObjectGetChild h states fromBuf in
        if is_undef srcNode || negb (jsvIsObject h srcNode) then None
        else
          let onObj := getChildObj h srcNode K_ON in
          if is_undef onObj then None
          else
            let evKey := str_from_jsv (JStr event) 64 in
            let trans := jsvObjectGetChild h onObj evKey in
            if is_undef trans then None
            else Some (mkSendPrelude fromBuf cfg states srcNode trans).

(** The guard (lines 743-760): whether the transition may proceed.  A
    [cond] that resolves to no function lets it proceed. *)
Definition send_guard (fsmObject : JsVar) (event : string) (p : SendPrelude)
  (w : World) : bool * World :=
  let h := heap w in
  if jsvIsObject h (sp_trans p) then
    let cond := jsvObjectGetChild h (sp_trans p) K_COND in
    if is_undef cond then (true, w)
    else
      let fn := resolveFunc h root fsmObject cond in
      if is_undef fn then (true, w)
      else
        let ctxg0 := jsvObjectGetChild h (sp_cfg p) K_CONTEXT in
        let '(ctxg, w1) :=
          if is_undef ctxg0 || negb (jsvIsObject h ctxg0) then jsvNewObject w
          else (ctxg0, w) in
        let '(meta, w2) := jsvNewObject w1 in
        let w3 := if str_nonempty (sp_from p)
                  then set_child meta "state" (JStr (sp_from p)) w2 else w2 in
        let '(res, w4) :=
          xfsm_callJsFunction host fn JUndef [ctxg; JStr event; meta] w3 in
        (if is_undef res then false else jsvGetBool res, w4)
  else (true, w).

(** The target name [toBuf] of the transition (lines 763-771). *)
Definition send_target (h : Heap) (trans : JsVar) : string :=
  if jsvIsString trans then str_from_jsv trans 64
  else if jsvIsObject h trans then
    let tgt := jsvObjectGetChild h trans K_TARGET in
    if negb (is_undef tgt) && jsvIsString tgt then str_from_jsv tgt 64 else ""
  else "".

(** Target, actions and commit (lines 762-797). *)
Definition send_commit (fsmObject : JsVar) (event : string) (p : SendPrelude)
  (w : World) : JsVar * World :=
  let h := heap w in
  let trans := sp_trans p in
  let toBuf := send_target h trans in
  let transActs :=
    if jsvIsString trans then JUndef
    else if jsvIsObject h trans then getTransitionActionsRaw h trans
    else JUndef in
  if negb (str_nonempty toBuf) then (JUndef, w)
  else
    let exitActs := getActionListRaw h (sp_srcNode p) K_EXIT in
    let dstNode := jsvObjectGetChild h (sp_states p) toBuf in
    let entryActs := if negb (is_undef dstNode) && jsvIsObject h dstNode
                     then getActionListRaw h dstNode K_ENTRY else JUndef in
    let ctx := jsvObjectGetChild h (sp_cfg p) K_CONTEXT in
    let ev := JStr event in
    let '(ctx1, w1) :=
      run_actions_raw host fsmObject ctx exitActs ev (sp_from p) toBuf w in
    let '(ctx2, w2) :=
      run_actions_raw host fsmObject ctx1 transActs ev (sp_from p) toBuf w1 in
    let '(ctx3, w3) :=
      run_actions_raw host fsmObject ctx2 entryActs ev (sp_from p) toBuf w2 in
    let w4 := set_child fsmObject K_STATE (JStr toBuf) w3 in
    let w5 := if is_undef ctx3 then w4
              else set_child (sp_cfg p) K_CONTEXT ctx3 w4 in
    (JStr toBuf, w5).

(** [xfsm_send_object(fsmObject, event)] (lines 721-798). *)
Definition xfsm_send_object (fsmObject : JsVar) (event : string) (w : World)
  : JsVar * World :=
  match send_prelude (heap w) fsmObject event with
  | None => (JUndef, w)
  | Some p =>
      let '(pass, w1) := send_guard fsmObject event p w in
      if pass then send_commit fsmObject event p w1 else (JUndef, w1)
  end.

(** [xfsm_machine_init] (line 803) does nothing. *)
Definition xfsm_machine_init (m : JsVar) (w : World) : World := w.

(** [xfsm_ensure_unsub_factory] (lines 42-62).  The static variable
    [xfsm_unsub_factory] is passed explicitly: the function maps its value
    before the call to its value after the call. *)
Definition xfsm_ensure_unsub_factory (factory : JsVar) : JsVar :=
  if negb (is_undef factory) && jsvIsFunction factory then factory
  else
    let fn := jspEvaluateVar host unsub_src in
    if negb (is_undef fn) && jsvIsFunction fn then fn else JUndef.

(** [xfsm_make_unsubscribe(svc, id)] (lines 67-85), for the value [factory]
    of the static variable.  [native] is the function value that
    [jsvNewNativeFunction] creates for a null function pointer and the
    signature [JSWAT_VOID]. *)
Definition xfsm_make_unsubscribe (native factory svc : JsVar) (id : Z)
  (w : World) : JsVar * World :=
  if negb (negb (is_undef factory) && jsvIsFunction factory)
  then (native, w)
  else
    let '(fn, w1) := jspExecuteFunction host factory JUndef [svc; JInt id] w in
    if negb (is_undef fn) && jsvIsFunction fn then (fn, w1)
    else (native, w1).

End EngineV1.

(** ** Vocabulary of the further properties *)

(** The listeners [xfsm_notify_listeners] calls: the function-valued
    children of [service._listeners], in iteration order, when there is a
    committed state to hand them. *)
Definition listener_fns (h : Heap) (service : JsVar) : list JsVar :=
  let listeners := jsvObjectGetChild h service "_listeners" in
  if is_undef (jsvObjectGetChild h service K_SSTATE) then []
  else filter (fun fn => jsvIsFunction fn = true)
         (map snd (obj_entries h listeners)).

(** A string holds no NUL character. *)
Fixpoint nul_free (s : string) : bool :=
  match s with
  | EmptyString => true
  | String c s' => negb (Ascii.eqb c Ascii.zero) && nul_free s'
  end.

(** The cells of the store [h0] other than the one of the context [c0] are
    as they were; the working context is [c0] or an object allocated since. *)
Definition run_frame (h0 : Heap) (c0 : JsVar) (c : JsVar) (h : Heap) : Prop :=
  length h0 <= length h
  /\ (c = c0 \/ valid h0 c = false)
  /\ forall x, valid h0 x = true -> x <> c0 -> cell_of h x = cell_of h0 x.

(** A logged call is the evaluation, by [xfsm_send_object], of the guard of
    the transition read in [p]: the function its [cond] resolves to, called
    with a null [this] on the context of the configuration (a new object
    when that is no object), the event and a new object. *)
Definition send_guard_call (h : Heap) (root fsm : JsVar) (event : string)
  (p : SendPrelude) (c : Call) : Prop :=
  let cond := jsvObjectGetChild h (sp_trans p) K_COND in
  let ctx := jsvObjectGetChild h (sp_cfg p) K_CONTEXT in
  jsvIsObject h (sp_trans p) = true
  /\ call_fn c = resolveFunc h root fsm cond
  /\ jsvIsFunction (call_fn c) = true
  /\ call_this c = JNull
  /\ exists ctxg meta,
       call_args c = [ctxg; JStr event; meta]
       /\ (if jsvIsObject h ctx then ctxg = ctx else valid h ctxg = false)
       /\ valid h meta = false
       /\ meta <> ctxg.

(** ** Further example programs *)

(** The traffic-light Service once bound to its machine, and once
    started. *)
Definition traffic_bound : World :=
  xfsm_service_init demo_host traffic_service traffic_machine
    (mkWorld traffic_heap []).

Definition traffic_started : World :=
  snd (xfsm_service_start demo_host traffic_service traffic_bound).

(** The started traffic-light Service with one listener, [f0], in a new
    listener table. *)
Definition traffic_subscribed : World :=
  let '(l, w1) := jsvNewObject traffic_started in
  set_child traffic_service "_listeners" l (set_child l "1" (JFun 0) w1).

(** A machine whose initial state has a single function, not an array, as
    [entry], [{initial:"a", actions:{known: f0}, states:{a:{entry: f5}}}]
    (cell 0), a Service bound to it with one listener, [f0] (cell 4), and
    the action list [["nope"]] (cell 6). *)
Definition single_heap : Heap :=
  [ CObj [("config", JRef 1)];
    CObj [("initial", JStr "a"); ("states", JRef 2); ("actions", JRef 7)];
    CObj [("a", JRef 3)];
    CObj [("entry", JFun 5)];
    CObj [("_machine", JRef 0); ("_status", JStr "NotStarted");
          ("_listeners", JRef 5)];
    CObj [("1", JFun 0)];
    CArr [JStr "nope"];
    CObj [("known", JFun 0)] ].

(** A machine whose only transition is refused by its guard,
    [{initial:"a", context:{n:0}, states:{
       a:{exit:[f0], on:{NO:[{cond:()=>false, target:"b"}]}},
       b:{entry:[f0]}}}] (cell 0), and a running Service on it (cell 10)
    with one listener, [f0]. *)
Definition refuse_heap : Heap :=
  [ CObj [("config", JRef 1)];
    CObj [("initial", JStr "a"); ("context", JRef 2); ("states", JRef 3)];
    CObj [("n", JInt 0)];
    CObj [("a", JRef 4); ("b", JRef 5)];
    CObj [("exit", JRef 9); ("on", JRef 6)];
    CObj [("entry", JRef 9)];
    CObj [("NO", JRef 7)];
    CArr [JRef 8];
    CObj [("cond", JFun 4); ("target", JStr "b")];
    CArr [JFun 0];
    CObj [("_machine", JRef 0); ("_context", JRef 2);
          ("_status", JStr "Running"); ("_listeners", JRef 11)];
    CObj [("1", JFun 0)] ].

Definition refuse_world : World := mkWorld refuse_heap [].

(** A single-object FSM (cell 0):
    [{config: {initial:"idle", context:{n:0},
               actions:{never:()=>false, always:()=>true},
               states:{
                 idle:{exit:[f0],
                       on:{GO:{target:"busy", cond:"always"},
                           BLOCKED:{target:"busy", cond:"never"},
                           STAY:{actions:[f0]}}},
                 busy:{entry:[{n:(ctx)=>ctx.n+1}], on:{DONE:"idle"}}}}}]. *)
Definition fsm_heap : Heap :=
  [ CObj [("config", JRef 1)];
    CObj [("initial", JStr "idle"); ("context", JRef 2); ("states", JRef 3);
          ("actions", JRef 4)];
    CObj [("n", JInt 0)];
    CObj [("idle", JRef 5); ("busy", JRef 6)];
    CObj [("never", JFun 4); ("always", JFun 5)];
    CObj [("on", JRef 7); ("exit", JRef 8)];
    CObj [("entry", JRef 9); ("on", JRef 10)];
    CObj [("GO", JRef 11); ("BLOCKED", JRef 12); ("STAY", JRef 13)];
    CArr [JFun 0];
    CArr [JRef 14];
    CObj [("DONE", JStr "idle")];
    CObj [("target", JStr "busy"); ("cond", JStr "always")];
    CObj [("target", JStr "busy"); ("cond", JStr "never")];
    CObj [("actions", JRef 8)];
    CObj [("n", JFun 1)] ].

Definition fsm_object : JsVar := JRef 0.
Definition fsm_world : World := mkWorld fsm_heap [].

(** The FSM once started, with no initial state given. *)
Definition fsm_started : World :=
  snd (xfsm_start_object demo_host fsm_object JUndef fsm_world).

(** ** Store lemmas *)

#[global] Arguments jsvObjectGetChild : simpl never.
#[global] Arguments jsvObjectSetChild : simpl never.
#[global] Arguments jsvArrayPush : simpl never.
#[global] Arguments jsvGetArrayItem : simpl never.
#[global] Arguments jsvGetArrayLength : simpl never.
#[global] Arguments jsvIsObject : simpl never.
#[global] Arguments jsvIsArray : simpl never.
#[global] Arguments obj_entries : simpl never.
#[global] Arguments arr_items : simpl never.
#[global] Arguments str_from_jsv : simpl never.
#[global] Arguments jsvGetString : simpl never.

Lemma assoc_get_set_eq k v kvs : assoc_get k (assoc_set k v kvs) = v.
Proof.
  induction kvs as [|[k' v'] rest IH]; simpl.
  - by rewrite String.eqb_refl.
  - destruct (String.eqb k k') eqn:E; simpl; rewrite E; auto.
Qed.

Lemma assoc_get_set_ne k k' v kvs :
  k <> k' -> assoc_get k' (assoc_set k v kvs) = assoc_get k' kvs.
Proof.
  intros Hne. induction kvs as [|[k2 v2] rest IH]; simpl.
  - destruct (String.eqb k' k) eqn:E; auto.
    apply String.eqb_eq in E. congruence.
  - destruct (String.eqb k k2) eqn:E; simpl.
    + apply String.eqb_eq in E. subst k2.
      destruct (String.eqb k' k) eqn:E2; auto.
      apply String.eqb_eq in E2. congruence.
    + destruct (String.eqb k' k2); auto.
Qed.

Lemma assoc_get_in k kvs :
  assoc_get k kvs = JUndef \/ In (assoc_get k kvs) (map snd kvs).
Proof.
  induction kvs as [|[k' v'] rest IH]; simpl; auto.
  destruct (String.eqb k k'); auto. destruct IH; auto.
Qed.

Lemma valid_lookup h r : valid h (JRef r) = true <-> is_Some (h !! r).
Proof.
  simpl. rewrite Nat.ltb_lt. symmetry. apply lookup_lt_is_Some.
Qed.

Lemma valid_mono h h' v :
  length h <= length h' -> valid h v = true -> valid h' v = true.
Proof.
  destruct v; simpl; auto. rewrite !Nat.ltb_lt. lia.
Qed.

Lemma valid_prefix h h' v :
  h `prefix_of` h' -> valid h v = true -> valid h' v = true.
Proof. intros Hp. apply valid_mono. by apply prefix_length. Qed.

Lemma cell_of_prefix h h' v :
  h `prefix_of` h' -> valid h v = true -> cell_of h' v = cell_of h v.
Proof.
  intros [ext ->] Hv. destruct v; simpl in *; auto.
  apply Nat.ltb_lt in Hv. by apply lookup_app_l.
Qed.

Lemma cell_of_valid h v c : cell_of h v = Some c -> valid h v = true.
Proof.
  destruct v; simpl; try discriminate. intros H.
  apply Nat.ltb_lt. by eapply lookup_lt_Some.
Qed.

Lemma isObject_valid h v : jsvIsObject h v = true -> valid h v = true.
Proof.
  unfold jsvIsObject. destruct (cell_of h v) eqn:E; [|discriminate].
  intros _. by eapply cell_of_valid.
Qed.

Lemma isArray_valid h v : jsvIsArray h v = true -> valid h v = true.
Proof.
  unfold jsvIsArray. destruct (cell_of h v) eqn:E; [|discriminate].
  intros _. by eapply cell_of_valid.
Qed.

Lemma closed_cell h v c :
  closed h = true -> cell_of h v = Some c ->
  forall x, In x (cell_vals c) -> valid h x = true.
Proof.
  unfold closed. rewrite forallb_forall. intros Hc Hl x Hx.
  destruct v; simpl in Hl; try discriminate.
  assert (Hin : In c h) by (apply list_elem_of_In; by eapply list_elem_of_lookup_2).
  specialize (Hc c Hin). rewrite forallb_forall in Hc. auto.
Qed.

Lemma get_valid h o k :
  closed h = true -> valid h (jsvObjectGetChild h o k) = true.
Proof.
  intros Hc. unfold jsvObjectGetChild, obj_entries.
  destruct (cell_of h o) as [[kvs|items]|] eqn:E; simpl; auto.
  destruct (assoc_get_in k kvs) as [-> | Hin]; auto.
  eapply closed_cell; eauto.
Qed.

Lemma item_valid h a i :
  closed h = true -> valid h (jsvGetArrayItem h a i) = true.
Proof.
  intros Hc. unfold jsvGetArrayItem, arr_items.
  destruct (cell_of h a) as [[kvs|items]|] eqn:E; simpl; auto.
  destruct (items !! i) eqn:Ei; auto.
  eapply closed_cell; eauto. simpl.
  apply list_elem_of_In. by eapply list_elem_of_lookup_2.
Qed.

(** Reads of a valid value do not see what is allocated later. *)
Section Stable.
Context (h h' : Heap) (Hp : h `prefix_of` h').

Lemma isObject_prefix v :
  valid h v = true -> jsvIsObject h' v = jsvIsObject h v.
Proof. intros. unfold jsvIsObject. by rewrite (cell_of_prefix h h'). Qed.

Lemma isArray_prefix v :
  valid h v = true -> jsvIsArray h' v = jsvIsArray h v.
Proof. intros. unfold jsvIsArray. by rewrite (cell_of_prefix h h'). Qed.

Lemma entries_prefix v :
  valid h v = true -> obj_entries h' v = obj_entries h v.
Proof. intros. unfold obj_entries. by rewrite (cell_of_prefix h h'). Qed.

Lemma get_prefix v k :
  valid h v = true -> jsvObjectGetChild h' v k = jsvObjectGetChild h v k.
Proof. intros. unfold jsvObjectGetChild. by rewrite entries_prefix. Qed.

Lemma items_prefix v :
  valid h v = true -> arr_items h' v = arr_items h v.
Proof. intros. unfold arr_items. by rewrite (cell_of_prefix h h'). Qed.

Lemma item_prefix v i :
  valid h v = true -> jsvGetArrayItem h' v i = jsvGetArrayItem h v i.
Proof. intros. unfold jsvGetArrayItem. by rewrite items_prefix. Qed.

Lemma length_prefix v :
  valid h v = true -> jsvGetArrayLength h' v = jsvGetArrayLength h v.
Proof. intros. unfold jsvGetArrayLength. by rewrite items_prefix. Qed.
End Stable.

(** Writes. *)

Lemma set_length o k v h : length (jsvObjectSetChild o k v h) = length h.
Proof.
  unfold jsvObjectSetChild. destruct o; auto.
  destruct (h !! r) as [[kvs|items]|]; auto. by rewrite length_insert.
Qed.

Lemma push_length a v h : length (jsvArrayPush a v h) = length h.
Proof.
  unfold jsvArrayPush. destruct a; auto.
  destruct (h !! r) as [[kvs|items]|]; auto. by rewrite length_insert.
Qed.

Lemma cell_of_set_other o k v h x :
  x <> o -> cell_of (jsvObjectSetChild o k v h) x = cell_of h x.
Proof.
  intros Hne. unfold jsvObjectSetChild. destruct o; auto.
  destruct (h !! r) as [[kvs|items]|] eqn:E; auto.
  destruct x; simpl; auto. apply list_lookup_insert_ne. congruence.
Qed.

Lemma cell_of_push_other a v h x :
  x <> a -> cell_of (jsvArrayPush a v h) x = cell_of h x.
Proof.
  intros Hne. unfold jsvArrayPush. destruct a; auto.
  destruct (h !! r) as [[kvs|items]|] eqn:E; auto.
  destruct x; simpl; auto. apply list_lookup_insert_ne. congruence.
Qed.

Lemma entries_set o k v h :
  jsvIsObject h o = true ->
  obj_entries (jsvObjectSetChild o k v h) o = assoc_set k v (obj_entries h o).
Proof.
  unfold jsvIsObject, obj_entries, jsvObjectSetChild.
  destruct o; simpl; try discriminate.
  destruct (h !! r) as [[kvs|items]|] eqn:E; try discriminate. intros _.
  rewrite list_lookup_insert_eq; auto. by eapply lookup_lt_Some.
Qed.

Lemma isObject_set o k v h x :
  jsvIsObject (jsvObjectSetChild o k v h) x = jsvIsObject h x.
Proof.
  unfold jsvIsObject.
  destruct (decide (x = o)) as [->|Hne]; [|by rewrite cell_of_set_other].
  unfold jsvObjectSetChild. destruct o; auto. simpl.
  destruct (h !! r) as [[kvs|items]|] eqn:E; rewrite ?E; auto.
  rewrite list_lookup_insert_eq; auto. by eapply lookup_lt_Some.
Qed.

(** Writes to the cell allocated last. *)

Lemma set_fresh h k v kvs :
  jsvObjectSetChild (JRef (length h)) k v (h ++ [CObj kvs])
  = h ++ [CObj (assoc_set k v kvs)].
Proof.
  unfold jsvObjectSetChild.
  rewrite lookup_app_r, Nat.sub_diag by lia. simpl.
  rewrite insert_app_r_alt, Nat.sub_diag by lia. done.
Qed.

Lemma push_fresh h v xs :
  jsvArrayPush (JRef (length h)) v (h ++ [CArr xs]) = h ++ [CArr (xs ++ [v])].
Proof.
  unfold jsvArrayPush.
  rewrite lookup_app_r, Nat.sub_diag by lia. simpl.
  rewrite insert_app_r_alt, Nat.sub_diag by lia. done.
Qed.

Lemma action_items_prefix h h' v :
  h `prefix_of` h' -> valid h v = true ->
  action_items h' v = action_items h v.
Proof.
  intros Hp Hv. unfold action_items.
  by rewrite (isArray_prefix h h'), (items_prefix h h').
Qed.

Lemma push_items_loop_fresh h src xs n i :
  valid h src = true ->
  i + n = length (arr_items h src) ->
  push_items_loop (JRef (length h)) src i n (h ++ [CArr xs])
  = h ++ [CArr (xs ++ filter (fun x => is_undef x = false)
                         (drop i (arr_items h src)))].
Proof.
  intros Hv. revert i xs. induction n as [|n IH]; intros i xs Hn; simpl.
  - rewrite drop_ge by lia. by rewrite app_nil_r.
  - assert (Hp : h `prefix_of` h ++ [CArr xs]) by apply prefix_app_r, reflexivity.
    rewrite (item_prefix h _ Hp) by done.
    unfold jsvGetArrayItem.
    destruct (arr_items h src !! i) as [x|] eqn:Ei.
    2:{ apply lookup_ge_None in Ei. lia. }
    rewrite (drop_S _ _ _ Ei). rewrite filter_cons.
    destruct (is_undef x) eqn:Ex.
    + rewrite decide_False by discriminate. apply IH. lia.
    + rewrite decide_True by done. rewrite push_fresh.
      rewrite IH by lia. by rewrite <- app_assoc.
Qed.

Lemma push_actions_fresh h src xs :
  valid h src = true ->
  push_actions (JRef (length h)) src (h ++ [CArr xs])
  = h ++ [CArr (xs ++ action_items h src)].
Proof.
  intros Hv. unfold push_actions, action_items.
  assert (Hp : h `prefix_of` h ++ [CArr xs]) by apply prefix_app_r, reflexivity.
  destruct (is_undef src); [by rewrite app_nil_r|].
  rewrite (isArray_prefix h _ Hp), (length_prefix h _ Hp) by done.
  destruct (jsvIsArray h src).
  - by rewrite push_items_loop_fresh.
  - apply push_fresh.
Qed.

(** Strings read through a buffer. *)

Lemma c_str_idem t : c_str (c_str t) = c_str t.
Proof.
  induction t as [|c t IH]; cbn; auto.
  destruct (Ascii.eqb c Ascii.zero) eqn:E; cbn; auto. by rewrite E, IH.
Qed.

Lemma str_take_c_str m x :
  str_take m (c_str (str_take m x)) = c_str (str_take m x).
Proof.
  revert x. induction m as [|m IH]; intros [|c x]; cbn; auto.
  destruct (Ascii.eqb c Ascii.zero); cbn; auto. by rewrite IH.
Qed.

Lemma jsvGetString_idem x n : jsvGetString (jsvGetString x n) n = jsvGetString x n.
Proof. unfold jsvGetString. by rewrite str_take_c_str, c_str_idem. Qed.

Lemma str_from_jsv_idem s n :
  str_from_jsv (JStr (str_from_jsv s n)) n = str_from_jsv s n.
Proof.
  assert (He : forall m, jsvGetString "" m = "").
  { intros m. unfold jsvGetString. by destruct (m - 1). }
  unfold str_from_jsv.
  destruct s; destruct (Nat.eqb n 0); auto using jsvGetString_idem.
Qed.

(** Rewriting the reads of a later store into reads of the store [h0] it
    extends, innermost first. *)
Ltac stab h0 h Hp Hcl :=
  repeat match goal with
  | |- context [jsvObjectGetChild h ?v ?k] =>
      rewrite (get_prefix h0 h Hp v k)
        by (first [assumption | by apply get_valid])
  | |- context [jsvIsObject h ?v] =>
      rewrite (isObject_prefix h0 h Hp v)
        by (first [assumption | by apply get_valid])
  | |- context [jsvIsArray h ?v] =>
      rewrite (isArray_prefix h0 h Hp v)
        by (first [assumption | by apply get_valid])
  | |- context [action_items h ?v] =>
      rewrite (action_items_prefix h0 h v Hp)
        by (first [assumption | by apply get_valid])
  end.

(** ** Facts about the engine *)

Section EngineFacts.

Variable host : Host.

Lemma new_state_obj_spec value ctx acts changed w :
  new_state_obj host value ctx acts changed w
  = (JRef (length (heap w)),
     mkWorld (heap w ++ [CObj (state_fields host value ctx acts changed)])
       (calls w)).
Proof.
  unfold new_state_obj, state_fields, jsvNewObject, heap_alloc, set_child,
    with_heap.
  destruct w as [h cs]. cbn [heap calls].
  destruct (str_nonempty value); cbn [heap calls];
    destruct (is_undef ctx); cbn [heap calls];
    destruct (is_undef acts); cbn [heap calls];
    destruct (negb (is_undef (jspEvaluateVar host matches_src))
              && jsvIsFunction (jspEvaluateVar host matches_src));
    cbn [heap calls]; rewrite ?set_fresh; reflexivity.
Qed.

Lemma state_fields_value value ctx acts changed :
  str_nonempty value = true ->
  assoc_get S_VALUE (state_fields host value ctx acts changed) = JStr value.
Proof.
  intros Hv. unfold state_fields. rewrite Hv.
  destruct (is_undef ctx), (is_undef acts),
    (negb (is_undef (jspEvaluateVar host matches_src))
     && jsvIsFunction (jspEvaluateVar host matches_src)); reflexivity.
Qed.

Lemma state_fields_ctx value ctx acts changed :
  assoc_get S_CTX (state_fields host value ctx acts changed) = ctx.
Proof.
  unfold state_fields.
  destruct (str_nonempty value), (is_undef ctx) eqn:Ec, (is_undef acts),
    (negb (is_undef (jspEvaluateVar host matches_src))
     && jsvIsFunction (jspEvaluateVar host matches_src));
    try reflexivity; destruct ctx; try discriminate; reflexivity.
Qed.

Lemma state_fields_acts value ctx acts changed :
  assoc_get S_ACTS (state_fields host value ctx acts changed) = acts.
Proof.
  unfold state_fields.
  destruct (str_nonempty value), (is_undef ctx), (is_undef acts) eqn:Ea,
    (negb (is_undef (jspEvaluateVar host matches_src))
     && jsvIsFunction (jspEvaluateVar host matches_src));
    try reflexivity; destruct acts; try discriminate; reflexivity.
Qed.

Lemma state_fields_changed value ctx acts changed :
  assoc_get "changed" (state_fields host value ctx acts changed) = JBool changed.
Proof.
  unfold state_fields.
  destruct (str_nonempty value), (is_undef ctx), (is_undef acts),
    (negb (is_undef (jspEvaluateVar host matches_src))
     && jsvIsFunction (jspEvaluateVar host matches_src)); reflexivity.
Qed.

Lemma transition_build_spec p candSel w1 :
  let h1 := heap w1 in
  let dst := jsvObjectGetChild h1 (p_states p) (candidate_target h1 candSel) in
  valid h1 (p_exitArr p) = true ->
  valid h1 (p_states p) = true ->
  valid h1 candSel = true ->
  valid h1 (jsvObjectGetChild h1 candSel K_ACTIONS) = true ->
  valid h1 dst = true ->
  valid h1 (jsvObjectGetChild h1 dst K_ENTRY) = true ->
  transition_build host p candSel w1
  = (JRef (S (length h1)),
     mkWorld (h1 ++ [CArr (built_actions h1 p candSel);
                     CObj (state_fields host (built_value h1 p candSel)
                             (p_guardCtx p) (JRef (length h1))
                             (built_changed h1 p candSel))])
       (calls w1)).
Proof.
  intros h1 dst Hx Hs Hcand Ha Hd He.
  unfold transition_build, jsvNewArray, heap_alloc, with_heap.
  destruct w1 as [h cs]. cbn [heap calls] in *. subst h1.
  assert (Hp : forall xs, h `prefix_of` h ++ [CArr xs])
    by (intros; apply prefix_app_r; reflexivity).
  rewrite (push_actions_fresh h (p_exitArr p) []) by exact Hx. cbn [app].
  rewrite (get_prefix h _ (Hp _) candSel) by exact Hcand.
  rewrite (push_actions_fresh h (jsvObjectGetChild h candSel K_ACTIONS))
    by exact Ha.
  unfold candidate_target.
  rewrite (get_prefix h _ (Hp _) candSel) by exact Hcand.
  fold (candidate_target h candSel).
  unfold built_actions, built_value, built_changed, entry_items, target_entry.
  destruct (str_nonempty (candidate_target h candSel)) eqn:Et;
    cbn [negb andb].
  - rewrite (get_prefix h _ (Hp _) (p_states p)) by exact Hs.
    fold dst.
    rewrite (isObject_prefix h _ (Hp _) dst) by exact Hd.
    destruct (negb (is_undef dst) && jsvIsObject h dst) eqn:Ed.
    + cbn [heap calls].
      rewrite (get_prefix h _ (Hp _) dst) by exact Hd.
      rewrite (push_actions_fresh h (jsvObjectGetChild h dst K_ENTRY))
        by exact He.
      rewrite new_state_obj_spec. cbn [heap calls].
      rewrite length_app. cbn [length]. rewrite Nat.add_1_r.
      rewrite <- !app_assoc. cbn [app]. reflexivity.
    + rewrite new_state_obj_spec. cbn [heap calls].
      rewrite length_app. cbn [length]. rewrite Nat.add_1_r.
      rewrite <- !app_assoc, app_nil_r. cbn [app]. reflexivity.
  - rewrite new_state_obj_spec. cbn [heap calls].
    rewrite length_app. cbn [length]. rewrite Nat.add_1_r.
    rewrite <- !app_assoc, app_nil_r. cbn [app]. reflexivity.
Qed.

(** *** Candidate selection *)

Lemma jspExecuteFunction_frame fn th args w r w' :
  host_frame host ->
  jspExecuteFunction host fn th args w = (r, w') ->
  heap w `prefix_of` heap w' /\ calls w' = calls w ++ [mkCall fn th args r].
Proof.
  intros Hf. unfold jspExecuteFunction.
  pose proof (Hf fn th args (heap w)) as Hp.
  destruct (host_exec host fn th args (heap w)) as [res h'].
  intros [= <- <-]. auto.
Qed.

Lemma eval_cond_spec c g e w pass w' :
  host_frame host ->
  eval_cond host c g e w = (pass, w') ->
  let cond := jsvObjectGetChild (heap w) c K_COND in
  (jsvIsFunction cond = false /\ pass = true /\ w' = w)
  \/ (exists call, guard_call g e cond call
        /\ calls w' = calls w ++ [call]
        /\ pass = jsvGetBool (call_res call)
        /\ heap w `prefix_of` heap w').
Proof.
  intros Hf. unfold eval_cond. cbn zeta.
  destruct (jsvObjectGetChild (heap w) c K_COND) eqn:Ec; cbn [is_undef jsvIsFunction];
    try (intros [= <- <-]; left; by auto).
  unfold xfsm_callJsFunction. cbn [is_undef jsvIsFunction negb orb].
  destruct (is_undef g) eqn:Eg.
  - unfold jsvNewObject, heap_alloc. cbn [heap calls].
    destruct (jspExecuteFunction host (JFun f) JNull
                [JRef (length (heap w)); e]
                (mkWorld (heap w ++ [CObj []]) (calls w))) as [res w2] eqn:Ex.
    apply jspExecuteFunction_frame in Ex as [Hp Hc]; auto.
    cbn [heap calls] in *. intros [= <- <-]. right.
    eexists. split; [|split; [exact Hc|split]].
    + repeat split; cbn; eauto. eexists. split; eauto. congruence.
    + cbn. by destruct res.
    + etrans; [|exact Hp]. apply prefix_app_r. reflexivity.
  - destruct (jspExecuteFunction host (JFun f) JNull [g; e] w)
      as [res w2] eqn:Ex.
    apply jspExecuteFunction_frame in Ex as [Hp Hc]; auto.
    intros [= <- <-]. right.
    eexists. split; [|split; [exact Hc|split]].
    + repeat split; cbn; eauto.
    + cbn. by destruct res.
    + exact Hp.
Qed.

Lemma shorthand_candidate_spec s w :
  shorthand_candidate s w
  = (JRef (length (heap w)),
     mkWorld (heap w ++ [CObj [(K_TARGET, JStr (str_from_jsv s 64))]])
       (calls w)).
Proof.
  unfold shorthand_candidate, jsvNewObject, heap_alloc, set_child, with_heap.
  cbn [heap calls]. by rewrite set_fresh.
Qed.

Lemma get_not_object h v k : jsvIsObject h v = false -> jsvObjectGetChild h v k = JUndef.
Proof.
  unfold jsvIsObject, jsvObjectGetChild, obj_entries.
  by destruct (cell_of h v) as [[?|?]|].
Qed.

Lemma string_not_object h v : jsvIsString v = true -> jsvIsObject h v = false.
Proof. by destruct v. Qed.

(** Selecting a name: the fresh [{ target }] object has no guard. *)
Lemma select_shorthand h0 g e s w els :
  h0 `prefix_of` heap w ->
  jsvIsString s = true ->
  let '(c, w1) := shorthand_candidate s w in
  eval_cond host c g e w1 = (true, w1)
  /\ is_undef c = false
  /\ calls w1 = calls w ++ []
  /\ heap w `prefix_of` heap w1
  /\ FirstMatch h0 g e (s :: els) [] (Some s)
  /\ Selected h0 s c (heap w1).
Proof.
  intros Hp Hs. rewrite shorthand_candidate_spec.
  assert (Hl : cell_of (heap w ++ [CObj [(K_TARGET, JStr (str_from_jsv s 64))]])
                 (JRef (length (heap w)))
               = Some (CObj [(K_TARGET, JStr (str_from_jsv s 64))])).
  { cbn. rewrite lookup_app_r, Nat.sub_diag by lia. done. }
  split; [|split; [done|split; [by rewrite app_nil_r|split; [|split]]]].
  - unfold eval_cond. cbn [heap]. unfold jsvObjectGetChild, obj_entries.
    rewrite Hl. reflexivity.
  - apply prefix_app_r. reflexivity.
  - apply FM_pass.
    + unfold is_candidate. by rewrite Hs.
    + unfold cand_cond. by rewrite get_not_object by by apply string_not_object.
  - right. split; [done|]. split; [|exact Hl].
    cbn. apply Nat.ltb_ge. by apply prefix_length.
Qed.

Lemma select_in_array_spec h0 cands g e :
  host_frame host ->
  closed h0 = true ->
  valid h0 cands = true ->
  forall n i w c w',
    h0 `prefix_of` heap w ->
    i + n = length (arr_items h0 cands) ->
    select_in_array host cands g e i n w = (c, w') ->
    exists tr o,
      calls w' = calls w ++ tr
      /\ heap w `prefix_of` heap w'
      /\ FirstMatch h0 g e (drop i (arr_items h0 cands)) tr o
      /\ Outcome h0 o c (heap w').
Proof.
  intros Hf Hcl Hv. induction n as [|n IH]; intros i w c w' Hp Hn; cbn [select_in_array].
  - intros [= <- <-]. exists [], None. rewrite drop_ge by lia.
    repeat split; [by rewrite app_nil_r|reflexivity|constructor].
  - rewrite (item_prefix h0 _ Hp) by done.
    pose proof (item_valid h0 cands i Hcl) as Hel.
    unfold jsvGetArrayItem in *.
    destruct (arr_items h0 cands !! i) as [el|] eqn:Ei.
    2:{ apply lookup_ge_None in Ei. lia. }
    rewrite (drop_S _ _ _ Ei).
    assert (Hskip : is_candidate h0 el = false ->
              select_in_array host cands g e (S i) n w = (c, w') ->
              exists tr o, calls w' = calls w ++ tr
                /\ heap w `prefix_of` heap w'
                /\ FirstMatch h0 g e (el :: drop (S i) (arr_items h0 cands)) tr o
                /\ Outcome h0 o c (heap w')).
    { intros Hnc Hsel. apply IH in Hsel as (tr & o & ? & ? & ? & ?); auto; [|lia].
      exists tr, o. repeat split; auto. by apply FM_skip. }
    destruct (is_undef el) eqn:Eu.
    { apply Hskip. by destruct el. }
    destruct (jsvIsString el) eqn:Es.
    { pose proof (select_shorthand h0 g e el w (drop (S i) (arr_items h0 cands)) Hp Es) as Hsh.
      destruct (shorthand_candidate el w) as [c0 w1].
      destruct Hsh as (Hev & Hc0 & Hcalls & Hpre & Hfm & Hsel).
      rewrite Hc0, Hev. intros [= <- <-].
      exists [], (Some el). auto. }
    rewrite (isObject_prefix h0 _ Hp) by done.
    destruct (jsvIsObject h0 el) eqn:Eo; cbn [is_undef].
    2:{ apply Hskip. unfold is_candidate. by rewrite Es, Eo. }
    rewrite Eu.
    destruct (eval_cond host el g e w) as [pass w2] eqn:Eev.
    apply eval_cond_spec in Eev; auto. cbn zeta in Eev.
    rewrite (get_prefix h0 _ Hp) in Eev by done.
    assert (Hcand : is_candidate h0 el = true)
      by (unfold is_candidate; by rewrite Eo, orb_true_r).
    destruct Eev as [(Hnf & -> & ->) | (call & Hg & Hcalls & -> & Hpre)].
    + intros [= <- <-]. exists [], (Some el).
      repeat split; [by rewrite app_nil_r|reflexivity|by apply FM_pass|by left].
    + destruct (jsvGetBool (call_res call)) eqn:Eb.
      * intros [= <- <-]. exists [call], (Some el).
        repeat split; auto; [by apply FM_accept|by left].
      * intros Hsel.
        apply IH in Hsel as (tr & o & Hc2 & Hp2 & Hfm & Hout); [| |lia].
        2:{ by etrans. }
        exists (call :: tr), o. repeat split; auto.
        -- rewrite Hc2, Hcalls. by rewrite <- app_assoc.
        -- by etrans.
        -- by apply FM_reject.
Qed.

Lemma select_candidate_spec h0 cands g e w c w' :
  host_frame host ->
  closed h0 = true ->
  valid h0 cands = true ->
  h0 `prefix_of` heap w ->
  select_candidate host cands g e w = (c, w') ->
  exists tr o,
    calls w' = calls w ++ tr
    /\ heap w `prefix_of` heap w'
    /\ FirstMatch h0 g e (cand_elems h0 cands) tr o
    /\ Outcome h0 o c (heap w').
Proof.
  intros Hf Hcl Hv Hp. unfold select_candidate, cand_elems.
  destruct (is_undef cands) eqn:Eu.
  { intros [= <- <-]. exists [], None.
    repeat split; [by rewrite app_nil_r|reflexivity|constructor]. }
  destruct (jsvIsString cands) eqn:Es.
  { pose proof (select_shorthand h0 g e cands w [] Hp Es) as Hsh.
    destruct (shorthand_candidate cands w) as [c0 w1].
    destruct Hsh as (Hev & Hc0 & Hcalls & Hpre & Hfm & Hsel).
    intros [= <- <-]. exists [], (Some cands). auto. }
  rewrite (isObject_prefix h0 _ Hp), (isArray_prefix h0 _ Hp) by done.
  destruct (jsvIsObject h0 cands) eqn:Eo.
  { destruct (eval_cond host cands g e w) as [pass w2] eqn:Eev.
    apply eval_cond_spec in Eev; auto. cbn zeta in Eev.
    rewrite (get_prefix h0 _ Hp) in Eev by done.
    assert (Hcand : is_candidate h0 cands = true)
      by (unfold is_candidate; by rewrite Eo, orb_true_r).
    destruct Eev as [(Hnf & -> & ->) | (call & Hg & Hcalls & -> & Hpre)].
    - intros [= <- <-]. exists [], (Some cands).
      repeat split; [by rewrite app_nil_r|reflexivity|by apply FM_pass|by left].
    - destruct (jsvGetBool (call_res call)) eqn:Eb; intros [= <- <-].
      + exists [call], (Some cands).
        repeat split; auto; [by apply FM_accept|by left].
      + exists [call], None.
        repeat split; auto. apply FM_reject; auto. constructor. }
  destruct (jsvIsArray h0 cands) eqn:Ea.
  { rewrite (length_prefix h0 _ Hp) by done. intros Hsel.
    eapply select_in_array_spec in Hsel; eauto. }
  intros [= <- <-]. exists [], None.
  repeat split; [by rewrite app_nil_r|reflexivity|constructor].
Qed.

(** *** The transition as a whole *)

Lemma transition_prelude_prefix h0 h machine sv ev :
  closed h0 = true -> h0 `prefix_of` h ->
  valid h0 machine = true -> valid h0 sv = true -> valid h0 ev = true ->
  transition_prelude h machine sv ev = transition_prelude h0 machine sv ev.
Proof.
  intros Hcl Hp Hm Hs He.
  unfold transition_prelude, transition_from, transition_guardCtx.
  stab h0 h Hp Hcl. reflexivity.
Qed.

Lemma transition_prelude_valid h machine sv ev p :
  closed h = true ->
  transition_prelude h machine sv ev = Some p ->
  valid h (p_states p) = true /\ valid h (p_srcNode p) = true
  /\ valid h (p_guardCtx p) = true /\ valid h (p_exitArr p) = true
  /\ valid h (p_cands p) = true.
Proof.
  intros Hcl. unfold transition_prelude.
  repeat match goal with
  | |- context [if ?b then None else _] => destruct b; [discriminate|]
  end.
  intros [= <-]. cbn [p_states p_srcNode p_guardCtx p_exitArr p_cands].
  repeat split; try by apply get_valid.
  - unfold transition_guardCtx.
    repeat match goal with |- context [if ?b then _ else _] => destruct b end;
      try done; by apply get_valid.
  - repeat match goal with |- context [if ?b then _ else _] => destruct b end;
      try done; by apply get_valid.
Qed.

Lemma transition_prelude_exit h machine sv ev p :
  transition_prelude h machine sv ev = Some p ->
  p_exitArr p = jsvObjectGetChild h (p_srcNode p) K_EXIT.
Proof.
  unfold transition_prelude.
  repeat match goal with
  | |- context [if ?b then None else _] => destruct b; [discriminate|]
  end.
  by intros [= <-].
Qed.

Lemma Selected_reads h0 h1 el c :
  closed h0 = true -> h0 `prefix_of` h1 -> Selected h0 el c h1 ->
  is_undef c = false
  /\ valid h1 c = true
  /\ candidate_target h1 c = cand_target h0 el
  /\ jsvObjectGetChild h1 c K_ACTIONS = cand_actions h0 el
  /\ valid h0 (cand_actions h0 el) = true.
Proof.
  intros Hcl Hp [[Ho ->] | (Hs & Hnv & Hcell)].
  - pose proof (isObject_valid _ _ Ho) as Hv.
    unfold cand_target, cand_actions, candidate_target.
    assert (Hns : jsvIsString el = false).
    { by destruct el. }
    rewrite Hns. stab h0 h1 Hp Hcl.
    repeat split; auto.
    + by destruct el.
    + by eapply valid_prefix.
    + by apply get_valid.
  - unfold cand_target, cand_actions, candidate_target. rewrite Hs.
    unfold jsvObjectGetChild, obj_entries. rewrite Hcell. cbn.
    repeat split; auto.
    + by destruct c.
    + by eapply cell_of_valid.
    + apply str_from_jsv_idem.
Qed.

Lemma transition_spec h0 machine sv ev w st w' :
  host_frame host ->
  closed h0 = true -> h0 `prefix_of` heap w ->
  valid h0 machine = true -> valid h0 sv = true -> valid h0 ev = true ->
  xfsm_machine_transition_ex host machine sv ev w = (st, w') ->
  match transition_prelude h0 machine sv ev with
  | None => st = JUndef /\ w' = w
  | Some p =>
      exists tr o w1,
        calls w1 = calls w ++ tr
        /\ heap w `prefix_of` heap w1
        /\ FirstMatch h0 (p_guardCtx p) ev (cand_elems h0 (p_cands p)) tr o
        /\ match o with
           | None => st = JUndef /\ w' = w1
           | Some el =>
               st = JRef (S (length (heap w1)))
               /\ w' = mkWorld
                         (heap w1 ++
                            [CArr (next_actions h0 p el);
                             CObj (state_fields host (next_value h0 p el)
                                     (p_guardCtx p) (JRef (length (heap w1)))
                                     (next_changed h0 p el))])
                         (calls w1)
           end
  end.
Proof.
  intros Hf Hcl Hp Hm Hs He. unfold xfsm_machine_transition_ex.
  rewrite (transition_prelude_prefix h0) by done.
  destruct (transition_prelude h0 machine sv ev) as [p|] eqn:Epre.
  2:{ by intros [= <- <-]. }
  destruct (transition_prelude_valid _ _ _ _ _ Hcl Epre)
    as (Hvs & Hvn & Hvg & Hvx & Hvc).
  destruct (select_candidate host (p_cands p) (p_guardCtx p) ev w)
    as [c w1] eqn:Esel.
  eapply select_candidate_spec in Esel as (tr & o & Hcalls & Hp1 & Hfm & Hout);
    eauto.
  assert (Hp01 : h0 `prefix_of` heap w1) by (by etrans).
  intros Hres. exists tr, o, w1. repeat split; auto.
  destruct o as [el|]; cbn [Outcome] in Hout.
  2:{ subst c. cbn in Hres. by injection Hres as <- <-. }
  destruct (Selected_reads _ _ _ _ Hcl Hp01 Hout) as (Hnu & Hvc1 & Ht & Ha & Hva).
  rewrite Hnu in Hres.
  assert (Hd : valid h0 (jsvObjectGetChild h0 (p_states p) (cand_target h0 el))
               = true) by (by apply get_valid).
  rewrite transition_build_spec in Hres.
  - injection Hres as <- <-. split; [done|].
    f_equal. f_equal. f_equal.
    + unfold built_actions, next_actions, entry_items, target_entry.
      rewrite Ha, Ht. rewrite <- (transition_prelude_exit _ _ _ _ _ Epre).
      set (dst := jsvObjectGetChild h0 (p_states p) (cand_target h0 el)) in *.
      stab h0 (heap w1) Hp01 Hcl. fold dst. stab h0 (heap w1) Hp01 Hcl.
      reflexivity.
    + unfold built_value, next_value, built_changed, next_changed.
      by rewrite Ht.
  - by eapply valid_prefix.
  - by eapply valid_prefix.
  - done.
  - rewrite Ha. by eapply valid_prefix.
  - rewrite Ht. stab h0 (heap w1) Hp01 Hcl. by eapply valid_prefix.
  - rewrite Ht. stab h0 (heap w1) Hp01 Hcl.
    eapply valid_prefix; eauto. by apply get_valid.
Qed.

Lemma transition_prelude_from h machine sv ev p :
  transition_prelude h machine sv ev = Some p -> str_nonempty (p_from p) = true.
Proof.
  unfold transition_prelude.
  repeat match goal with
  | |- context [if ?b then None else _] =>
      destruct b eqn:?; [discriminate|]
  end.
  intros [= <-]. cbn [p_from].
  match goal with H : negb (str_nonempty (transition_from _ _ _)) = false
    |- _ => by apply negb_false_iff in H end.
Qed.

Lemma next_value_nonempty h machine sv ev p el :
  transition_prelude h machine sv ev = Some p ->
  str_nonempty (next_value h p el) = true.
Proof.
  intros Hp. unfold next_value.
  destruct (str_nonempty (cand_target h el)) eqn:E; auto.
  by eapply transition_prelude_from.
Qed.

Lemma built_state_view h1 acts value ctx changed :
  str_nonempty value = true ->
  state_view (h1 ++ [CArr acts;
                     CObj (state_fields host value ctx (JRef (length h1)) changed)])
    (JRef (S (length h1)))
  = (JStr value, ctx, JBool changed, acts).
Proof.
  intros Hv. unfold state_view, jsvObjectGetChild, obj_entries, arr_items.
  assert (H1 : cell_of (h1 ++ [CArr acts;
                 CObj (state_fields host value ctx (JRef (length h1)) changed)])
                 (JRef (S (length h1)))
               = Some (CObj (state_fields host value ctx (JRef (length h1)) changed))).
  { cbn. rewrite lookup_app_r by lia.
    replace (S (length h1) - length h1) with 1 by lia. done. }
  rewrite H1.
  rewrite state_fields_value, state_fields_ctx, state_fields_changed,
    state_fields_acts by done.
  cbn. rewrite lookup_app_r, Nat.sub_diag by lia. done.
Qed.

(** *** Consequences of [FirstMatch] *)

Lemma FirstMatch_split h g e els tr o :
  FirstMatch h g e els tr o ->
  match o with
  | None =>
      Forall2 (rejected_by h g e) (filter (fun el => is_candidate h el = true) els) tr
  | Some el =>
      exists pre post tr_pre,
        els = pre ++ el :: post
        /\ is_candidate h el = true
        /\ Forall2 (rejected_by h g e)
             (filter (fun x => is_candidate h x = true) pre) tr_pre
        /\ ((jsvIsFunction (cand_cond h el) = false /\ tr = tr_pre)
            \/ (exists c, guard_call g e (cand_cond h el) c
                  /\ jsvGetBool (call_res c) = true /\ tr = tr_pre ++ [c]))
  end.
Proof.
  induction 1 as [|el els tr o Hn Hfm IH|el els Hc Hnf|el els c Hc Hg Hb
                  |el els c tr o Hc Hg Hb Hfm IH].
  - constructor.
  - destruct o as [sel|].
    + destruct IH as (pre & post & tr_pre & -> & ? & ? & ?).
      exists (el :: pre), post, tr_pre. repeat split; auto.
      rewrite filter_cons, decide_False; auto. congruence.
    + rewrite filter_cons, decide_False; auto. congruence.
  - exists [], els, []. split; [done|]. split; [done|].
    split; [constructor|]. by left.
  - exists [], els, []. split; [done|]. split; [done|].
    split; [constructor|]. right. eauto.
  - destruct o as [sel|].
    + destruct IH as (pre & post & tr_pre & -> & ? & ? & Hlast).
      exists (el :: pre), post, (c :: tr_pre). repeat split; auto.
      * rewrite filter_cons, decide_True by done. constructor; auto. by split.
      * destruct Hlast as [[? ->] | (c' & ? & ? & ->)]; [by left|].
        right. exists c'. auto.
    + rewrite filter_cons, decide_True by done. constructor; auto. by split.
Qed.

Lemma FirstMatch_calls h g e els tr o :
  FirstMatch h g e els tr o ->
  forall c, In c tr ->
    exists el, In el els /\ is_candidate h el = true
               /\ guard_call g e (cand_cond h el) c.
Proof.
  induction 1 as [|el els tr o Hn Hfm IH|el els Hc Hnf|el els c0 Hc Hg Hb
                  |el els c0 tr o Hc Hg Hb Hfm IH]; intros c Hin.
  - destruct Hin.
  - destruct (IH c Hin) as (x & ? & ? & ?). exists x.
    split; [by right|]. by split.
  - destruct Hin.
  - destruct Hin as [<-|[]]. exists el. split; [by left|]. by split.
  - destruct Hin as [<-|Hin].
    + exists el. split; [by left|]. by split.
    + destruct (IH c Hin) as (x & ? & ? & ?). exists x.
      split; [by right|]. by split.
Qed.

(** When no element is selected, every evaluation is the rejection of a
    candidate. *)
Lemma FirstMatch_none_rejected h g e els tr :
  FirstMatch h g e els tr None ->
  forall c, In c tr ->
    exists el, In el els /\ is_candidate h el = true /\ rejected_by h g e el c.
Proof.
  intros Hfm. remember None as o eqn:Eo.
  induction Hfm as [|el els tr o Hn Hfm IH|el els Hc Hnf|el els c0 Hc Hg Hb
                    |el els c0 tr o Hc Hg Hb Hfm IH]; intros c Hin;
    try discriminate.
  - destruct Hin.
  - destruct (IH Eo c Hin) as (x & ? & ? & ?). exists x.
    split; [by right|]. by split.
  - destruct Hin as [<-|Hin].
    + exists el. split; [by left|]. split; [done|]. by split.
    + destruct (IH Eo c Hin) as (x & ? & ? & ?). exists x.
      split; [by right|]. by split.
Qed.

(** Without a callable [cond] nothing is evaluated and the first candidate
    is selected. *)
Lemma FirstMatch_unguarded h g e els tr o :
  (forall el, In el els -> jsvIsFunction (cand_cond h el) = false) ->
  FirstMatch h g e els tr o ->
  tr = [] /\ o = head (filter (fun el => is_candidate h el = true) els).
Proof.
  intros Hng Hfm.
  induction Hfm as [|el els tr o Hn Hfm IH|el els Hc Hnf|el els c0 Hc Hg Hb
                    |el els c0 tr o Hc Hg Hb Hfm IH].
  - auto.
  - rewrite filter_cons, decide_False by congruence.
    apply IH. intros x Hx. apply Hng. by right.
  - rewrite filter_cons, decide_True by done. auto.
  - destruct Hg as (_ & Hfn & _). rewrite Hng in Hfn; [discriminate|by left].
  - destruct Hg as (_ & Hfn & _). rewrite Hng in Hfn; [discriminate|by left].
Qed.

(** The transition, seen from its caller: the guard evaluations logged, the
    store extended with fresh cells only, and the fields of the result. *)
Lemma transition_view h0 machine sv ev w st w' :
  host_frame host ->
  closed h0 = true -> h0 `prefix_of` heap w ->
  valid h0 machine = true -> valid h0 sv = true -> valid h0 ev = true ->
  xfsm_machine_transition_ex host machine sv ev w = (st, w') ->
  match transition_prelude h0 machine sv ev with
  | None => st = JUndef /\ w' = w
  | Some p =>
      exists tr o,
        calls w' = calls w ++ tr
        /\ heap w `prefix_of` heap w'
        /\ FirstMatch h0 (p_guardCtx p) ev (cand_elems h0 (p_cands p)) tr o
        /\ match o with
           | None => st = JUndef
           | Some el =>
               is_undef st = false
               /\ state_view (heap w') st
                  = (JStr (next_value h0 p el), p_guardCtx p,
                     JBool (next_changed h0 p el), next_actions h0 p el)
           end
  end.
Proof.
  intros Hf Hcl Hp Hm Hs He Hres.
  pose proof (transition_spec _ _ _ _ _ _ _ Hf Hcl Hp Hm Hs He Hres) as Hsp.
  destruct (transition_prelude h0 machine sv ev) as [p|] eqn:Epre; [|done].
  destruct Hsp as (tr & o & w1 & Hcalls & Hp1 & Hfm & Hout).
  exists tr, o. destruct o as [el|].
  - destruct Hout as [-> ->]. cbn [heap calls]. repeat split; auto.
    + etrans; [exact Hp1|]. apply prefix_app_r. reflexivity.
    + apply built_state_view. by eapply next_value_nonempty.
  - destruct Hout as [-> ->]. auto.
Qed.

End EngineFacts.

(** ** Machine.transition: the properties of the specification *)


Lemma cand_elems_array h cands :
  jsvIsArray h cands = true -> cand_elems h cands = arr_items h cands.
Proof.
  unfold cand_elems, jsvIsArray, jsvIsObject. intros Ha.
  destruct cands; try discriminate. cbn in *.
  by destruct (h !! r) as [[?|?]|].
Qed.

(** X25.  First match in declared order, for guards given as functions.
    When [on[event.type]] is a sequence of candidates, each with no [cond]
    or a function as [cond], the transition walks them in declared order:
    the candidates before the selected one were each evaluated, in order,
    with a falsy result; the selected one has no [cond], or its guard was
    evaluated last with a truthy result; no guard of a later candidate is
    evaluated; and when every candidate is rejected the result is no
    transition.  The guards are assumed not to write the store. *)
Theorem transition_first_match_in_order host machine sv ev w st w' p :
  host_frame host ->
  closed (heap w) = true ->
  valid (heap w) machine = true -> valid (heap w) sv = true ->
  valid (heap w) ev = true ->
  let h := heap w in
  let els := arr_items h (p_cands p) in
  let g := p_guardCtx p in
  transition_prelude h machine sv ev = Some p ->
  jsvIsArray h (p_cands p) = true ->
  (forall el, In el els -> is_candidate h el = true ->
     cand_cond h el = JUndef \/ jsvIsFunction (cand_cond h el) = true) ->
  xfsm_machine_transition_ex host machine sv ev w = (st, w') ->
  exists tr,
    calls w' = calls w ++ tr
    /\ ((st = JUndef
         /\ Forall2 (rejected_by h g ev)
              (filter (fun el => is_candidate h el = true) els) tr)
        \/ (exists pre el post tr_pre,
              els = pre ++ el :: post
              /\ is_candidate h el = true
              /\ Forall2 (rejected_by h g ev)
                   (filter (fun x => is_candidate h x = true) pre) tr_pre
              /\ ((cand_cond h el = JUndef /\ tr = tr_pre)
                  \/ (exists c, guard_call g ev (cand_cond h el) c
                        /\ jsvGetBool (call_res c) = true
                        /\ tr = tr_pre ++ [c]))
              /\ is_undef st = false
              /\ jsvObjectGetChild (heap w') st S_VALUE
                 = JStr (next_value h p el))).
Proof.
  intros Hf Hcl Hm Hs He h els g Epre Harr Hc Hres.
  pose proof (transition_view host h machine sv ev w st w' Hf Hcl
                ltac:(reflexivity) Hm Hs He Hres) as Hv.
  rewrite Epre in Hv. destruct Hv as (tr & o & Hcalls & Hp & Hfm & Hout).
  rewrite cand_elems_array in Hfm by done. fold els g in Hfm.
  exists tr. split; [done|].
  apply FirstMatch_split in Hfm. destruct o as [el|].
  - right. destruct Hfm as (pre & post & tr_pre & Hels & Hcand & Hrej & Hlast).
    destruct Hout as [Hst Hview]. unfold state_view in Hview.
    injection Hview as Hval _ _ _.
    exists pre, el, post, tr_pre. repeat split; auto.
    destruct Hlast as [[Hnf ->] | Hacc]; [left|by right].
    split; [|done].
    destruct (Hc el) as [Hu | Hfn]; auto.
    + rewrite Hels. apply in_or_app. right. by left.
    + congruence.
  - left. by split.
Qed.

(** C9.  [Machine.transition] writes no cell of the store it is given (it
    only adds fresh cells), as long as the guards it calls do not; every
    function it calls is the [cond] of an element of [on[event.type]] of the
    source state, called as a guard; and when no element has a callable
    [cond], no function is called at all and calling again with the same
    arguments returns a state object with the same value, context, [changed]
    flag and action list. *)
Theorem transition_mutates_nothing host machine sv ev w st w' :
  host_frame host ->
  closed (heap w) = true ->
  valid (heap w) machine = true -> valid (heap w) sv = true ->
  valid (heap w) ev = true ->
  xfsm_machine_transition_ex host machine sv ev w = (st, w') ->
  let h := heap w in
  heap w `prefix_of` heap w'
  /\ (exists tr,
        calls w' = calls w ++ tr
        /\ forall c, In c tr ->
             exists p el,
               transition_prelude h machine sv ev = Some p
               /\ In el (cand_elems h (p_cands p))
               /\ guard_call (p_guardCtx p) ev (cand_cond h el) c)
  /\ ((forall p el,
         transition_prelude h machine sv ev = Some p ->
         In el (cand_elems h (p_cands p)) ->
         jsvIsFunction (cand_cond h el) = false) ->
      calls w' = calls w
      /\ forall st2 w2,
           xfsm_machine_transition_ex host machine sv ev w' = (st2, w2) ->
           calls w2 = calls w'
           /\ is_undef st2 = is_undef st
           /\ state_view (heap w2) st2 = state_view (heap w') st).
Proof.
  intros Hf Hcl Hm Hs He Hres h.
  pose proof (transition_view host h machine sv ev w st w' Hf Hcl
                ltac:(reflexivity) Hm Hs He Hres) as Hv.
  destruct (transition_prelude h machine sv ev) as [p|] eqn:Epre.
  - destruct Hv as (tr & o & Hcalls & Hp & Hfm & Hout).
    split; [done|]. split.
    + exists tr. split; [done|]. intros c Hin.
      destruct (FirstMatch_calls _ _ _ _ _ _ Hfm c Hin) as (el & ? & ? & ?).
      exists p, el. auto.
    + intros Hng.
      assert (Hng' : forall el, In el (cand_elems h (p_cands p)) ->
                jsvIsFunction (cand_cond h el) = false)
        by (intros el Hel; by apply (Hng p el)).
      destruct (FirstMatch_unguarded _ _ _ _ _ _ Hng' Hfm) as [-> Ho].
      rewrite app_nil_r in Hcalls. split; [done|].
      intros st2 w2 Hres2.
      pose proof (transition_view host h machine sv ev w' st2 w2 Hf Hcl
                    Hp Hm Hs He Hres2) as Hv2.
      rewrite Epre in Hv2.
      destruct Hv2 as (tr2 & o2 & Hcalls2 & Hp2 & Hfm2 & Hout2).
      destruct (FirstMatch_unguarded _ _ _ _ _ _ Hng' Hfm2) as [-> Ho2].
      rewrite app_nil_r in Hcalls2. split; [done|].
      rewrite <- Ho in Ho2. subst o2.
      destruct o as [el|].
      * destruct Hout as [-> ->], Hout2 as [-> ->]. done.
      * by subst.
  - destruct Hv as [-> ->]. split; [done|]. split.
    + exists []. split; [by rewrite app_nil_r|]. by intros c [].
    + intros _. split; [done|]. intros st2 w2 Hres2.
      rewrite Hres in Hres2. by injection Hres2 as <- <-.
Qed.

Lemma transition_prelude_no_type h machine sv ev :
  event_type_ok h ev = false -> transition_prelude h machine sv ev = None.
Proof.
  unfold event_type_ok. intros Ht.
  assert (Hev : negb (str_nonempty
                  (str_from_jsv (jsvObjectGetChild h ev "type") 64)) = true).
  { destruct (jsvObjectGetChild h ev "type") as [| | | |s| |]; try reflexivity.
    by destruct s. }
  unfold transition_prelude. rewrite Hev.
  repeat first
    [ reflexivity
    | match goal with
      | |- (if ?b then None else _) = None => destruct b
      end ].
Qed.

(** C10.  Whatever the machine and the previous state, the transition
    returns no transition, and leaves the world as it is, when the type of
    the event is missing, is not a string or is the empty string.  An object
    event in that case comes out of normalization as the same object with
    type [""], so it triggers no transition in any machine, whatever the
    keys of its [on] maps. *)
Theorem transition_requires_event_type host machine sv ev w :
  event_type_ok (heap w) ev = false ->
  xfsm_machine_transition_ex host machine sv ev w = (JUndef, w)
  /\ (jsvIsObject (heap w) ev = true ->
      forall e w1,
        xfsm_normalize_event ev w = (e, w1) ->
        e = ev
        /\ jsvObjectGetChild (heap w1) e "type" = JStr ""
        /\ forall m s, xfsm_machine_transition_ex host m s e w1 = (JUndef, w1)).
Proof.
  intros Ht.
  assert (Hno : forall m s e w0, event_type_ok (heap w0) e = false ->
            xfsm_machine_transition_ex host m s e w0 = (JUndef, w0)).
  { intros m s e w0 H0. unfold xfsm_machine_transition_ex.
    by rewrite transition_prelude_no_type. }
  split; [by apply Hno|].
  intros Hobj e w1. unfold xfsm_normalize_event.
  assert (Hu : is_undef ev = false) by (by destruct ev).
  assert (Hs : jsvIsString ev = false) by (by destruct ev).
  rewrite Hu, Hs, Hobj. unfold event_type_ok in Ht.
  destruct (jsvObjectGetChild (heap w) ev "type") as [| | | |t| |] eqn:Et;
    cbn [is_undef jsvIsString negb orb]; intros [= <- <-];
    try (unfold set_child, with_heap; cbn [heap];
         assert (Hget : jsvObjectGetChild
                          (jsvObjectSetChild ev "type" (JStr "") (heap w))
                          ev "type" = JStr "")
           by (unfold jsvObjectGetChild; rewrite entries_set by done;
               apply assoc_get_set_eq);
         split; [done|]; split; [exact Hget|];
         intros m s; apply Hno; unfold event_type_ok; cbn [heap];
         by rewrite Hget).
  destruct t; [|discriminate].
  split; [done|]. split; [done|]. intros m s. apply Hno.
  unfold event_type_ok. by rewrite Et.
Qed.

(** ** The action pipeline *)

(** Invariants of a run of the pipeline.  [I c h] relates the working
    context [c] and the store [h]; it is kept by the run as soon as it is
    kept by the calls of the host, by allocation, by writing a child of the
    working context, and by the replacement of a working context that is not
    an object by a fresh object. *)
Section RunInvariant.

Variable host : Host.
Variable I : JsVar -> Heap -> Prop.

Hypothesis I_host : forall c fn th args h,
  I c h -> I c (snd (host_exec host fn th args h)).
Hypothesis I_alloc : forall c h cell, I c h -> I c (h ++ [cell]).
Hypothesis I_set : forall c k v h, I c h -> I c (jsvObjectSetChild c k v h).
Hypothesis I_fresh : forall c h,
  I c h -> is_undef c || negb (jsvIsObject h c) = true ->
  I (JRef (length h)) (h ++ [CObj []]).

Lemma jspExecuteFunction_inv c fn th args w :
  I c (heap w) -> I c (heap (snd (jspExecuteFunction host fn th args w))).
Proof.
  intros Hi. unfold jspExecuteFunction.
  pose proof (I_host c fn th args (heap w) Hi) as H.
  by destruct (host_exec host fn th args (heap w)).
Qed.

Lemma xfsm_callJsFunction_inv c fn th args w :
  I c (heap w) -> I c (heap (snd (xfsm_callJsFunction host fn th args w))).
Proof.
  intros Hi. unfold xfsm_callJsFunction.
  destruct (is_undef fn || negb (jsvIsFunction fn)); [done|].
  by apply jspExecuteFunction_inv.
Qed.

Lemma jsvNewObject_inv c w : I c (heap w) -> I c (heap (snd (jsvNewObject w))).
Proof. intros Hi. cbn. by apply I_alloc. Qed.

Lemma action_argv_inv c x ev w :
  I c (heap w) -> I c (heap (snd (action_argv x ev w))).
Proof.
  intros Hi. unfold action_argv.
  destruct (is_undef x), (is_undef ev); cbn; auto using I_alloc.
Qed.

Lemma exec_action_inv c fn svc x ev w :
  I c (heap w) -> I c (heap (exec_action host fn svc x ev w)).
Proof.
  intros Hi. unfold exec_action.
  pose proof (action_argv_inv c x ev w Hi) as Ha.
  destruct (action_argv x ev w) as [argv w1]. cbn [snd] in Ha.
  by apply jspExecuteFunction_inv.
Qed.

Lemma assign_args_inv c x ev w :
  I c (heap w) -> I c (heap (snd (assign_args x ev w))).
Proof.
  intros Hi. unfold assign_args. destruct (is_undef ev); cbn; auto using I_alloc.
Qed.

Lemma merge_result_inv c kvs h : I c h -> I c (merge_result c kvs h).
Proof.
  revert h. induction kvs as [|[k v] rest IH]; intros h Hi; cbn; auto.
  apply IH. destruct (is_undef v); auto.
  destruct (str_nonempty (jsvGetString k 64)); auto.
Qed.

Lemma assign_map_inv c ev kvs w :
  I c (heap w) -> I c (heap (assign_map host c ev kvs w)).
Proof.
  revert w. induction kvs as [|[k v] rest IH]; intros w Hi; cbn [assign_map]; auto.
  apply IH. destruct (str_nonempty (jsvGetString k 64)); auto.
  destruct (negb (is_undef v) && jsvIsFunction v).
  - pose proof (assign_args_inv c c ev w Hi) as Ha.
    destruct (assign_args c ev w) as [args wa]. cbn [snd] in Ha.
    pose proof (xfsm_callJsFunction_inv c v JUndef args wa Ha) as Hc.
    destruct (xfsm_callJsFunction host v JUndef args wa) as [out w'].
    cbn [snd] in Hc. destruct (is_undef out); auto. cbn. by apply I_set.
  - destruct (is_undef v); auto. cbn. by apply I_set.
Qed.

Lemma apply_assignment_inv c svc a ev w :
  I c (heap w) ->
  I (fst (apply_assignment host svc c a ev w))
    (heap (snd (apply_assignment host svc c a ev w))).
Proof.
  intros Hi. unfold apply_assignment.
  set (r := if is_undef c || negb (jsvIsObject (heap w) c)
            then jsvNewObject w else (c, w)).
  assert (Hr : I (fst r) (heap (snd r))).
  { subst r. destruct (is_undef c || negb (jsvIsObject (heap w) c)) eqn:E; auto.
    cbn. by apply (I_fresh c). }
  destruct r as [c1 w1]. cbn [fst snd] in Hr.
  destruct (is_undef (assign_payload (heap w1) a)); [done|].
  destruct (jsvIsFunction (assign_payload (heap w1) a)).
  - pose proof (assign_args_inv c1 c1 ev w1 Hr) as Ha.
    destruct (assign_args c1 ev w1) as [args w2]. cbn [snd] in Ha.
    pose proof (xfsm_callJsFunction_inv c1 (assign_payload (heap w1) a)
                  JUndef args w2 Ha) as Hc.
    destruct (xfsm_callJsFunction host (assign_payload (heap w1) a) JUndef
                args w2) as [res w3].
    cbn [snd] in Hc.
    destruct (negb (is_undef res) && jsvIsObject (heap w3) res); cbn; auto.
    by apply merge_result_inv.
  - destruct (jsvIsObject (heap w1) (assign_payload (heap w1) a)); cbn; auto.
    by apply assign_map_inv.
Qed.

Lemma run_action_item_inv c svc actsMap ev item w :
  I c (heap w) ->
  I (fst (run_action_item host svc actsMap ev item c w))
    (heap (snd (run_action_item host svc actsMap ev item c w))).
Proof.
  intros Hi. unfold run_action_item.
  destruct (jsvIsFunction item); [cbn; by apply exec_action_inv|].
  destruct (jsvIsObject (heap w) item).
  - destruct (negb (is_undef (jsvObjectGetChild (heap w) item "exec"))
              && jsvIsFunction (jsvObjectGetChild (heap w) item "exec"));
      [cbn; by apply exec_action_inv|].
    unfold run_typed_item.
    destruct (negb (is_undef (jsvObjectGetChild (heap w) item "type"))
              && jsvIsString (jsvObjectGetChild (heap w) item "type")).
    2:{ by apply apply_assignment_inv. }
    match goal with |- context [if ?b then (true, _) else _] => destruct b end.
    { pose proof (apply_assignment_inv c svc item ev w Hi) as Ha.
      by destruct (apply_assignment host svc c item ev w). }
    match goal with |- context [if ?b then _ else (false, _)] => destruct b end.
    2:{ by apply apply_assignment_inv. }
    match goal with |- context [if ?b then (true, _) else _] => destruct b end.
    + cbn. by apply exec_action_inv.
    + by apply apply_assignment_inv.
  - match goal with |- context [if ?b then _ else (c, w)] => destruct b end;
      [|done].
    match goal with |- context [if ?b then _ else (c, w)] => destruct b end;
      [|done].
    cbn. by apply exec_action_inv.
Qed.

Lemma run_actions_loop_inv svc actsMap acts ev n i c w :
  I c (heap w) ->
  I (fst (run_actions_loop host svc actsMap acts ev i n c w))
    (heap (snd (run_actions_loop host svc actsMap acts ev i n c w))).
Proof.
  revert i c w. induction n as [|n IH]; intros i c w Hi; cbn [run_actions_loop];
    [done|].
  destruct (is_undef (jsvGetArrayItem (heap w) acts i)); [by apply IH|].
  pose proof (run_action_item_inv c svc actsMap ev
                (jsvGetArrayItem (heap w) acts i) w Hi) as Hs.
  destruct (run_action_item host svc actsMap ev
              (jsvGetArrayItem (heap w) acts i) c w) as [c1 w1].
  by apply IH.
Qed.

Lemma run_actions_raw_inv svc c acts ev fN tN w :
  I c (heap w) ->
  I (fst (run_actions_raw host svc c acts ev fN tN w))
    (heap (snd (run_actions_raw host svc c acts ev fN tN w))).
Proof.
  intros Hi. unfold run_actions_raw.
  destruct (is_undef acts || negb (jsvIsArray (heap w) acts)); [done|].
  by apply run_actions_loop_inv.
Qed.

End RunInvariant.

Lemma get_set_eq o k v h :
  jsvIsObject h o = true ->
  jsvObjectGetChild (jsvObjectSetChild o k v h) o k = v.
Proof.
  intros Ho. unfold jsvObjectGetChild. rewrite entries_set by done.
  apply assoc_get_set_eq.
Qed.

Lemma get_set_ne o k k' v h :
  k <> k' ->
  jsvObjectGetChild (jsvObjectSetChild o k v h) o k'
  = jsvObjectGetChild h o k'.
Proof.
  intros Hne. destruct (jsvIsObject h o) eqn:Ho.
  - unfold jsvObjectGetChild. rewrite entries_set by done.
    by apply assoc_get_set_ne.
  - rewrite !get_not_object; auto. by rewrite isObject_set.
Qed.

Lemma get_set_other o k v h x k' :
  x <> o ->
  jsvObjectGetChild (jsvObjectSetChild o k v h) x k'
  = jsvObjectGetChild h x k'.
Proof.
  intros Hne. unfold jsvObjectGetChild, obj_entries.
  by rewrite cell_of_set_other.
Qed.

(** *** Assignment *)





(** ** The pipeline and the context of the Service *)












(** ** Machine.initialState *)

(** C3 (amended).  [Machine.initialState()] fails only when the definition
    has no usable [initial] name or no [states] object.  Otherwise it looks
    up [states[initial]] and returns a fresh state object with value =
    [initial], context = the context of the definition, [changed] = false
    and, as actions, the [entry] value of that node when the node is there;
    when the node is absent (or is not an object) the state object is
    returned all the same, without actions.  The reads are made in the world
    left by the flat-machine check. *)
Theorem initial_state_without_node_is_a_state host machine w st w' :
  jsvIsObject (heap w) machine = true ->
  let cfg := jsvObjectGetChild (heap w) machine K_CFG in
  is_undef cfg = false ->
  xfsm_machine_initial_state host machine w = (st, w') ->
  let wv := snd (xfsm_validate_no_nested_states host cfg w) in
  let h := heap wv in
  let initBuf := str_from_jsv (jsvObjectGetChild h cfg "initial") 64 in
  let states := jsvObjectGetChild h cfg K_STATES in
  let node := jsvObjectGetChild h states initBuf in
  if str_nonempty initBuf && jsvIsObject h states then
    st = JRef (length h)
    /\ calls w' = calls wv
    /\ (exists fields, heap w' = h ++ [CObj fields])
    /\ jsvObjectGetChild (heap w') st S_VALUE = JStr initBuf
    /\ jsvObjectGetChild (heap w') st S_CTX = jsvObjectGetChild h cfg K_CONTEXT
    /\ jsvObjectGetChild (heap w') st "changed" = JBool false
    /\ jsvObjectGetChild (heap w') st S_ACTS
       = (if jsvIsObject h node then jsvObjectGetChild h node K_ENTRY
          else JUndef)
  else st = JUndef /\ w' = wv.
Proof.
  intros Hm cfg Hcfg. unfold xfsm_machine_initial_state.
  assert (Hu : is_undef machine = false) by (by destruct machine).
  rewrite Hu, Hm. cbn [negb orb]. fold cfg. rewrite Hcfg.
  destruct (xfsm_validate_no_nested_states host cfg w) as [ok wv0] eqn:Ev.
  cbn [snd]. cbn zeta.
  set (h := heap wv0).
  set (initBuf := str_from_jsv (jsvObjectGetChild h cfg "initial") 64).
  set (states := jsvObjectGetChild h cfg K_STATES).
  destruct (str_nonempty initBuf) eqn:Ei; cbn [negb andb].
  2:{ by intros [= <- <-]. }
  destruct (jsvIsObject h states) eqn:Es.
  2:{ rewrite orb_true_r. by intros [= <- <-]. }
  assert (Hsu : is_undef states = false) by (by destruct states).
  rewrite Hsu. cbn [negb orb].
  rewrite new_state_obj_spec. intros [= <- <-]. cbn [heap calls]. fold h.
  assert (Hget : forall fields k,
            jsvObjectGetChild (h ++ [CObj fields]) (JRef (length h)) k
            = assoc_get k fields).
  { intros. unfold jsvObjectGetChild, obj_entries. cbn.
    by rewrite lookup_app_r, Nat.sub_diag by lia. }
  rewrite !Hget.
  rewrite state_fields_value, state_fields_ctx, state_fields_changed,
    state_fields_acts by done.
  repeat split; eauto.
  set (node := jsvObjectGetChild h states initBuf).
  destruct (jsvIsObject h node) eqn:En.
  - assert (Hnu : is_undef node = false) by (by destruct node).
    by rewrite Hnu.
  - by rewrite andb_false_r.
Qed.

(** The functions of the examples do not write the store. *)
Lemma demo_host_frame : host_frame demo_host.
Proof. intros fn th args h. reflexivity. Qed.

(** ** What the code does where it departs from the specification *)

(** A [cond] that is present and is not a function (a guard name, for
    instance) passes without any evaluation. *)
Lemma eval_cond_non_function_passes host c g e w :
  jsvIsFunction (jsvObjectGetChild (heap w) c K_COND) = false ->
  eval_cond host c g e w = (true, w).
Proof.
  intros Hnf. unfold eval_cond.
  destruct (is_undef (jsvObjectGetChild (heap w) c K_COND)); [done|].
  by rewrite Hnf.
Qed.

(** An object item with a [type] that is a string other than the assign
    names and is not a function of the named-actions table, and without
    [exec], is handed to [apply_assignment] as it is. *)
Lemma unknown_typed_item_is_assigned host svc actsMap ev item ctx w tbuf :
  jsvIsObject (heap w) item = true ->
  jsvIsFunction (jsvObjectGetChild (heap w) item "exec") = false ->
  jsvObjectGetChild (heap w) item "type" = JStr tbuf ->
  String.eqb (jsvGetString tbuf 31) "xstate.assign" = false ->
  String.eqb (jsvGetString tbuf 31) "assign" = false ->
  jsvIsFunction (jsvObjectGetChild (heap w) actsMap (jsvGetString tbuf 31))
  = false ->
  run_action_item host svc actsMap ev item ctx w
  = apply_assignment host svc ctx item ev w.
Proof.
  intros Ho Hex Hty Hn1 Hn2 Hfn. unfold run_action_item.
  assert (Hnf : jsvIsFunction item = false) by (by destruct item).
  rewrite Hnf, Ho, Hex, andb_false_r. unfold run_typed_item.
  rewrite Hty. cbn [is_undef jsvIsString negb andb]. rewrite Hn1, Hn2.
  cbn [orb]. rewrite Hfn, andb_false_r.
  by destruct (negb (is_undef actsMap) && jsvIsObject (heap w) actsMap).
Qed.

(** The transition a Service computes on [send] does not depend on the
    state it has committed: the previous state handed to the transition is
    the constant 0, so the source is the [initial] of the definition. *)
Lemma transition_from_null_state h cfg :
  transition_from h cfg JUndef
  = str_from_jsv (jsvObjectGetChild h cfg "initial") 64.
Proof. reflexivity. Qed.

(** ** The claims on the example programs *)

(** C1.  The code at the input of the specification's end-to-end example:
    after [start()] and a first [send("NEXT")] the committed state is
    "yellow", whose [on.NEXT] is "red"; the second [send("NEXT")] returns
    "yellow" again, because [xfsm_service_send] hands the constant 0 to the
    transition as the previous state, which then starts from [initial]. *)
Theorem service_send_transitions_from_initial_state :
  let w0 := mkWorld traffic_heap [] in
  let w1 := xfsm_service_init demo_host traffic_service traffic_machine w0 in
  let w2 := snd (xfsm_service_start demo_host traffic_service w1) in
  let r3 := xfsm_service_send demo_host traffic_service (JStr "NEXT") w2 in
  let r4 := xfsm_service_send demo_host traffic_service (JStr "NEXT")
              (snd r3) in
  fst r3 = JStr "yellow"
  /\ jsvObjectGetChild (heap (snd r3))
       (xfsm_service_get_state (heap (snd r3)) traffic_service) S_VALUE
     = JStr "yellow"
  /\ jsvObjectGetChild traffic_heap (JRef 13) "NEXT" = JStr "red"
  /\ fst r4 = JStr "yellow"
  /\ jsvObjectGetChild (heap (snd r4)) (JRef 3) "n" = JInt 2.
Proof. vm_compute. repeat split. Qed.

(** C4.  The code on a named guard: [on.NAMED = {target:"b", cond:"never"}]
    where the table of the definition maps "never" to a function returning
    false.  The named lookup of the engine finds that function, and called
    on (context, event) it returns false; yet the transition selects the
    candidate (value "b") and calls no function at all. *)
Theorem named_guard_is_not_evaluated :
  let r := xfsm_machine_transition_ex demo_host guard_machine JUndef
             (JRef 21) guard_world in
  jsvObjectGetChild guard_heap (JRef 17) K_COND = JStr "never"
  /\ resolveFunc guard_heap JUndef guard_machine (JStr "never") = JFun 4
  /\ jsvGetBool (fst (host_exec demo_host (JFun 4) JNull [JRef 2; JRef 21]
                        guard_heap)) = false
  /\ jsvObjectGetChild (heap (snd r)) (fst r) S_VALUE = JStr "b"
  /\ calls (snd r) = [].
Proof. vm_compute. repeat split. Qed.

(** C5.  The code on an object action [{type:"missing"}] whose name is
    neither an assign name nor in the named-actions table [{known: f0}]:
    the item falls through to the shorthand-assignment branch, and the
    context receives a child [type] = "missing". *)
Theorem unknown_typed_action_patches_context :
  let r := run_actions_raw demo_host (JRef 0) (JRef 3) (JRef 5) (JRef 10)
             "" "" pipe_world in
  resolve_actions_map pipe_heap (JRef 0) = JRef 4
  /\ jsvObjectGetChild pipe_heap (JRef 4) "missing" = JUndef
  /\ obj_entries pipe_heap (JRef 3) = [("n", JInt 0); ("count", JInt 5)]
  /\ obj_entries (heap (snd r)) (JRef 3)
     = [("n", JInt 0); ("count", JInt 5); ("type", JStr "missing")]
  /\ calls (snd r) = [].
Proof. vm_compute. repeat split. Qed.

(** C6.  The code on a sequence whose first candidate has a named guard:
    [on.LIST = [{cond:"never", target:"b"}, {target:"c"}]], where "never"
    names a function returning false.  The first candidate whose [cond] is
    absent or evaluates truthy is the second one (target "c"); the
    transition selects the first (value "b") and evaluates nothing. *)
Theorem named_guard_in_sequence_is_selected :
  let r := xfsm_machine_transition_ex demo_host guard_machine JUndef
             (JRef 27) guard_world in
  arr_items guard_heap (jsvObjectGetChild guard_heap (JRef 10) "LIST")
  = [JRef 25; JRef 26]
  /\ jsvObjectGetChild guard_heap (JRef 25) K_COND = JStr "never"
  /\ resolveFunc guard_heap JUndef guard_machine (JStr "never") = JFun 4
  /\ jsvGetBool (fst (host_exec demo_host (JFun 4) JNull [JRef 2; JRef 27]
                        guard_heap)) = false
  /\ jsvObjectGetChild guard_heap (JRef 26) K_COND = JUndef
  /\ candidate_target guard_heap (JRef 26) = "c"
  /\ jsvObjectGetChild (heap (snd r)) (fst r) S_VALUE = JStr "b"
  /\ calls (snd r) = [].
Proof. vm_compute. repeat split. Qed.

(** C3, counterexample: the node [states["ghost"]] is absent and the result
    is a state object all the same. *)
Lemma initial_state_missing_node_counterexample :
  ~ (jsvObjectGetChild ghost_heap (JRef 3) "ghost" = JUndef ->
     fst (xfsm_machine_initial_state demo_host (JRef 0)
            (mkWorld ghost_heap [])) = JUndef).
Proof. intros H. specialize (H eq_refl). vm_compute in H. discriminate. Qed.

(** C3, witness: the amended statement at the machine whose [initial] names
    no state. *)
Lemma initial_state_without_node_witness :
  let w := mkWorld ghost_heap [] in
  let r := xfsm_machine_initial_state demo_host (JRef 0) w in
  jsvIsObject (heap w) (JRef 0) = true
  /\ jsvObjectGetChild ghost_heap (JRef 3) "ghost" = JUndef
  /\ fst r = JRef 5
  /\ jsvObjectGetChild (heap (snd r)) (fst r) S_VALUE = JStr "ghost"
  /\ jsvObjectGetChild (heap (snd r)) (fst r) S_CTX = JRef 2
  /\ jsvObjectGetChild (heap (snd r)) (fst r) "changed" = JBool false
  /\ jsvObjectGetChild (heap (snd r)) (fst r) S_ACTS = JUndef.
Proof.
  intros w r. split; [reflexivity|]. split; [reflexivity|].
  pose proof (initial_state_without_node_is_a_state demo_host (JRef 0) w
                (fst r) (snd r) eq_refl eq_refl (surjective_pairing r)) as H.
  vm_compute in H. vm_compute.
  destruct H as (H1 & _ & _ & H4 & H5 & H6 & H7). repeat split; assumption.
Defined.






(** X25, witness: first match at [on.GO], two rejected guards, then a
    candidate without guard. *)
Lemma transition_first_match_in_order_witness :
  let w := guard_world in
  let h := heap w in
  let p := mkPrelude (JRef 3) "a" (JRef 5) (JRef 2) (JRef 9) (JRef 13) in
  let els := arr_items h (p_cands p) in
  let r := xfsm_machine_transition_ex demo_host guard_machine JUndef
             (JRef 20) w in
  els = [JRef 14; JRef 15; JRef 16]
  /\ exists tr,
       calls (snd r) = calls w ++ tr
       /\ ((fst r = JUndef
            /\ Forall2 (rejected_by h (JRef 2) (JRef 20))
                 (filter (fun el => is_candidate h el = true) els) tr)
           \/ (exists pre el post tr_pre,
                 els = pre ++ el :: post
                 /\ is_candidate h el = true
                 /\ Forall2 (rejected_by h (JRef 2) (JRef 20))
                      (filter (fun x => is_candidate h x = true) pre) tr_pre
                 /\ ((cand_cond h el = JUndef /\ tr = tr_pre)
                     \/ (exists c, guard_call (JRef 2) (JRef 20)
                                     (cand_cond h el) c
                           /\ jsvGetBool (call_res c) = true
                           /\ tr = tr_pre ++ [c]))
                 /\ is_undef (fst r) = false
                 /\ jsvObjectGetChild (heap (snd r)) (fst r) S_VALUE
                    = JStr (next_value h p el))).
Proof.
  intros w h p els r. split; [reflexivity|].
  apply (transition_first_match_in_order demo_host guard_machine JUndef
           (JRef 20) w (fst r) (snd r) p demo_host_frame);
    try reflexivity.
  intros el Hin _. vm_compute in Hin.
  destruct Hin as [<-|[<-|[<-|[]]]]; vm_compute; auto.
Defined.

(** C9, witness: [on.STAY], which has no guard, called twice. *)
Lemma transition_mutates_nothing_witness :
  let w := guard_world in
  let r := xfsm_machine_transition_ex demo_host guard_machine JUndef
             (JRef 22) w in
  closed (heap w) = true
  /\ is_undef (fst r) = false
  /\ heap w `prefix_of` heap (snd r)
  /\ calls (snd r) = calls w
  /\ forall st2 w2,
       xfsm_machine_transition_ex demo_host guard_machine JUndef (JRef 22)
         (snd r) = (st2, w2) ->
       calls w2 = calls (snd r)
       /\ is_undef st2 = is_undef (fst r)
       /\ state_view (heap w2) st2 = state_view (heap (snd r)) (fst r).
Proof.
  intros w r. split; [reflexivity|]. split; [reflexivity|].
  destruct (transition_mutates_nothing demo_host guard_machine JUndef
              (JRef 22) w (fst r) (snd r) demo_host_frame eq_refl eq_refl
              eq_refl eq_refl (surjective_pairing r)) as (Hp & _ & Hgf).
  split; [exact Hp|]. apply Hgf.
  intros p el Hpre Hin. vm_compute in Hpre. injection Hpre as <-.
  vm_compute in Hin. destruct Hin as [<-|[]]. reflexivity.
Defined.

(** C10, witness: the event [{}] against a state whose [on] map has the key
    [""]. *)
Lemma transition_requires_event_type_witness :
  event_type_ok guard_heap (JRef 23) = false
  /\ jsvObjectGetChild guard_heap (JRef 10) "" = JStr "b"
  /\ xfsm_machine_transition_ex demo_host guard_machine (JStr "a") (JRef 23)
       guard_world = (JUndef, guard_world)
  /\ forall e w1,
       xfsm_normalize_event (JRef 23) guard_world = (e, w1) ->
       e = JRef 23
       /\ jsvObjectGetChild (heap w1) e "type" = JStr ""
       /\ forall m s,
            xfsm_machine_transition_ex demo_host m s e w1 = (JUndef, w1).
Proof.
  split; [reflexivity|]. split; [reflexivity|].
  destruct (transition_requires_event_type demo_host guard_machine (JStr "a")
              (JRef 23) guard_world eq_refl) as [H1 H2].
  split; [exact H1|]. apply H2. reflexivity.
Defined.
(** ** Further properties of the engine *)

Lemma alloc_isObject h kvs :
  jsvIsObject (h ++ [CObj kvs]) (JRef (length h)) = true.
Proof.
  unfold jsvIsObject, cell_of. by rewrite lookup_app_r, Nat.sub_diag by lia.
Qed.

Lemma alloc_get h kvs k :
  jsvObjectGetChild (h ++ [CObj kvs]) (JRef (length h)) k = assoc_get k kvs.
Proof.
  unfold jsvObjectGetChild, obj_entries, cell_of.
  by rewrite lookup_app_r, Nat.sub_diag by lia.
Qed.

Lemma cell_of_alloc h c x :
  valid h x = true -> cell_of (h ++ [c]) x = cell_of h x.
Proof. intros Hv. apply cell_of_prefix; [by apply prefix_app_r|done]. Qed.

(** *** Event normalization *)

Lemma normalize_event_cases ev w :
  let e := fst (xfsm_normalize_event ev w) in
  let w1 := snd (xfsm_normalize_event ev w) in
  calls w1 = calls w
  /\ ((e = JUndef /\ w1 = w)
      \/ (jsvIsObject (heap w1) e = true
          /\ jsvIsString (jsvObjectGetChild (heap w1) e "type") = true))
  /\ (forall x, x <> ev -> valid (heap w) x = true ->
        cell_of (heap w1) x = cell_of (heap w) x).
Proof.
  unfold xfsm_normalize_event.
  destruct ev as [| |b|z|s|f|r]; cbn [is_undef jsvIsString];
    try (unfold jsvIsObject; cbn; split; [done|]; split; [by left|done]).
  - cbn. split; [done|]. rewrite set_fresh. split.
    + right. by rewrite alloc_isObject, alloc_get.
    + intros x _ Hx. by apply cell_of_alloc.
  - destruct (jsvIsObject (heap w) (JRef r)) eqn:Ho.
    2:{ cbn. split; [done|]. split; [by left|done]. }
    destruct (jsvObjectGetChild (heap w) (JRef r) "type") eqn:Et; cbn;
      (split; [done|]);
      try (split; [right; rewrite isObject_set, get_set_eq by done; done
                  |intros x Hx _; by apply cell_of_set_other]).
    split; [right; by rewrite Ho, Et|done].
Qed.

(** X1.  [xfsm_normalize_event] calls no function and returns either null,
    leaving the world as it was, or an object whose [type] is a string; the
    only cell of the store it may write is the one of the event itself. *)
Theorem normalize_event_shape ev w :
  let e := fst (xfsm_normalize_event ev w) in
  let w1 := snd (xfsm_normalize_event ev w) in
  calls w1 = calls w
  /\ ((e = JUndef /\ w1 = w)
      \/ (jsvIsObject (heap w1) e = true
          /\ jsvIsString (jsvObjectGetChild (heap w1) e "type") = true))
  /\ (forall x, x <> ev -> valid (heap w) x = true ->
        cell_of (heap w1) x = cell_of (heap w) x).
Proof. exact (normalize_event_cases ev w). Qed.

(** X2.  Normalising is idempotent: an event that has been normalised is
    returned as it is, and the world is not touched again. *)
Theorem normalize_event_idempotent ev w :
  xfsm_normalize_event (fst (xfsm_normalize_event ev w))
    (snd (xfsm_normalize_event ev w))
  = xfsm_normalize_event ev w.
Proof.
  unfold xfsm_normalize_event at 2 3 4.
  destruct ev as [| |b|z|s|f|r]; cbn [is_undef jsvIsString];
    try (unfold jsvIsObject; cbn; done).
  - cbn. rewrite set_fresh. unfold xfsm_normalize_event. cbn.
    by rewrite alloc_isObject, alloc_get.
  - destruct (jsvIsObject (heap w) (JRef r)) eqn:Ho; [|done].
    destruct (jsvObjectGetChild (heap w) (JRef r) "type") eqn:Et; cbn;
      unfold xfsm_normalize_event; cbn;
      rewrite ?isObject_set, ?Ho, ?get_set_eq, ?Et by done; done.
Qed.

(** *** Listener notification *)

Lemma notify_each_calls host svc st ls w :
  exists tr,
    calls (notify_each host svc st ls w) = calls w ++ tr
    /\ map call_fn tr
       = (if is_undef st then []
          else filter (fun fn => jsvIsFunction fn = true) (map snd ls))
    /\ Forall (fun c => call_this c = svc /\ call_args c = [st]) tr.
Proof.
  revert w. induction ls as [|[k fn] rest IH]; intros w; cbn [notify_each].
  - exists []. rewrite app_nil_r. by destruct (is_undef st).
  - destruct (negb (is_undef fn) && jsvIsFunction fn && negb (is_undef st))
      eqn:E.
    + apply andb_prop in E as [E Est]. apply andb_prop in E as [_ Efn].
      apply negb_true_iff in Est.
      destruct (IH (snd (jspExecuteFunction host fn svc [st] w)))
        as (tr & Hc & Hm & Hf).
      unfold jspExecuteFunction in *.
      destruct (host_exec host fn svc [st] (heap w)) as [res h'].
      cbn [snd calls] in *.
      exists (mkCall fn svc [st] res :: tr). split; [|split].
      * by rewrite Hc, <- app_assoc.
      * rewrite Est in *. cbn [map snd]. rewrite filter_cons, decide_True by done.
        cbn. by rewrite Hm.
      * constructor; [by split|exact Hf].
    + destruct (IH w) as (tr & Hc & Hm & Hf). exists tr.
      split; [done|]. split; [|done]. rewrite Hm.
      destruct (is_undef st) eqn:Est; [done|].
      cbn [map snd]. rewrite filter_cons, decide_False; [done|].
      intros Hfn. rewrite Hfn in E. by destruct fn.
Qed.

Lemma notify_listeners_trace host svc w :
  exists tr,
    calls (xfsm_notify_listeners host svc w) = calls w ++ tr
    /\ map call_fn tr = listener_fns (heap w) svc
    /\ Forall (fun c => call_this c = svc
                        /\ call_args c = [jsvObjectGetChild (heap w) svc K_SSTATE])
         tr.
Proof.
  unfold xfsm_notify_listeners, listener_fns.
  destruct (is_undef svc || negb (jsvIsObject (heap w) svc)) eqn:Es.
  { exists []. rewrite app_nil_r. split; [done|]. split; [|done].
    assert (Hn : jsvIsObject (heap w) svc = false).
    { destruct svc; try done. cbn in Es. by apply negb_true_iff in Es. }
    rewrite !(get_not_object _ svc) by done. done. }
  destruct (is_undef (jsvObjectGetChild (heap w) svc "_listeners")
            || negb (jsvIsObject (heap w)
                       (jsvObjectGetChild (heap w) svc "_listeners"))) eqn:El.
  { exists []. rewrite app_nil_r. split; [done|]. split; [|done].
    assert (Hn : obj_entries (heap w)
                   (jsvObjectGetChild (heap w) svc "_listeners") = []).
    { apply orb_prop in El as [El|El].
      - by destruct (jsvObjectGetChild (heap w) svc "_listeners").
      - apply negb_true_iff in El. unfold jsvIsObject in El.
        unfold obj_entries.
        by destruct (cell_of (heap w)
                       (jsvObjectGetChild (heap w) svc "_listeners")) as [[]|]. }
    rewrite Hn.
    destruct (is_undef (jsvObjectGetChild (heap w) svc K_SSTATE)); reflexivity. }
  apply notify_each_calls.
Qed.

(** The cell of a value the host leaves as it is, is left as it is by the
    notification. *)
Lemma notify_each_cell host svc st ls x w :
  (forall fn th args h,
     cell_of (snd (host_exec host fn th args h)) x = cell_of h x) ->
  cell_of (heap (notify_each host svc st ls w)) x = cell_of (heap w) x.
Proof.
  intros Hk. revert w. induction ls as [|[k fn] rest IH]; intros w;
    cbn [notify_each]; [done|].
  rewrite IH.
  destruct (negb (is_undef fn) && jsvIsFunction fn && negb (is_undef st));
    [|done].
  unfold jspExecuteFunction.
  pose proof (Hk fn svc [st] (heap w)) as H.
  by destruct (host_exec host fn svc [st] (heap w)).
Qed.

(** X3.  When the functions called leave the listener table as it is,
    [xfsm_notify_listeners] calls the function-valued children of
    [service._listeners], each once and in their order in the table, with
    the service as [this] and the committed state as only argument, and the
    table is afterwards as it was; it calls nothing when the service has no
    committed state or no table. *)
Theorem notify_listeners_calls host svc w :
  let listeners := jsvObjectGetChild (heap w) svc "_listeners" in
  let w' := xfsm_notify_listeners host svc w in
  (forall fn th args h,
     cell_of (snd (host_exec host fn th args h)) listeners
     = cell_of h listeners) ->
  (exists tr,
     calls w' = calls w ++ tr
     /\ map call_fn tr = listener_fns (heap w) svc
     /\ Forall (fun c => call_this c = svc
                         /\ call_args c
                            = [jsvObjectGetChild (heap w) svc K_SSTATE]) tr)
  /\ obj_entries (heap w') listeners = obj_entries (heap w) listeners.
Proof.
  intros listeners w' Hk. split; [exact (notify_listeners_trace host svc w)|].
  assert (Hc : cell_of (heap w') listeners = cell_of (heap w) listeners).
  { subst w'. unfold xfsm_notify_listeners.
    destruct (is_undef svc || negb (jsvIsObject (heap w) svc)); [done|].
    fold listeners.
    destruct (is_undef listeners || negb (jsvIsObject (heap w) listeners));
      [done|].
    by apply notify_each_cell. }
  unfold obj_entries. by rewrite Hc.
Qed.

(** *** Named function resolution *)

Lemma resolveFunc_cases h root owner item :
  let fn := resolveFunc h root owner item in
  (fn = JUndef \/ jsvIsFunction fn = true)
  /\ (jsvIsFunction item = true -> fn = item)
  /\ (jsvIsString item = true ->
      let name := str_from_jsv item 48 in
      let cfgFn :=
        jsvObjectGetChild h
          (getChildObj h (jsvObjectGetChild h owner K_CFG) K_ACTIONS) name in
      let globalFn := jsvObjectGetChild h root name in
      fn = if negb (str_nonempty name) then JUndef
           else if jsvIsFunction cfgFn then cfgFn
           else if jsvIsFunction globalFn then globalFn
           else JUndef).
Proof.
  unfold resolveFunc, resolveNamedFromConfig, resolveNamedFromGlobal.
  destruct item as [| |b|z|s|f|r]; cbn [is_undef jsvIsFunction jsvIsString];
    try (split; [by left|done]).
  2:{ split; [by right|done]. }
  set (name := str_from_jsv (JStr s) 48).
  set (cfg := jsvObjectGetChild h owner K_CFG).
  assert (Hcfg : (if is_undef cfg || negb (jsvIsObject h cfg) then JUndef
                  else if is_undef (getChildObj h cfg K_ACTIONS) then JUndef
                  else if jsvIsFunction
                            (jsvObjectGetChild h (getChildObj h cfg K_ACTIONS) name)
                       then jsvObjectGetChild h (getChildObj h cfg K_ACTIONS) name
                       else JUndef)
                 = if jsvIsFunction
                        (jsvObjectGetChild h (getChildObj h cfg K_ACTIONS) name)
                   then jsvObjectGetChild h (getChildObj h cfg K_ACTIONS) name
                   else JUndef).
  { destruct (is_undef cfg || negb (jsvIsObject h cfg)) eqn:E.
    - assert (Hn : jsvIsObject h cfg = false).
      { destruct cfg; try done. cbn in E. by apply negb_true_iff in E. }
      unfold getChildObj. rewrite (get_not_object _ cfg) by done. cbn.
      by rewrite get_not_object.
    - destruct (is_undef (getChildObj h cfg K_ACTIONS)) eqn:E2; [|done].
      by destruct (getChildObj h cfg K_ACTIONS). }
  cbn zeta. rewrite Hcfg. clear Hcfg.
  set (cfgFn := jsvObjectGetChild h (getChildObj h cfg K_ACTIONS) name).
  assert (Hglob : (if is_undef root then JUndef
                   else if jsvIsFunction (jsvObjectGetChild h root name)
                        then jsvObjectGetChild h root name else JUndef)
                  = if jsvIsFunction (jsvObjectGetChild h root name)
                    then jsvObjectGetChild h root name else JUndef).
  { by destruct root. }
  rewrite Hglob. clear Hglob.
  destruct (negb (str_nonempty name)); [split; [by left|done]|].
  destruct (jsvIsFunction cfgFn) eqn:Ec.
  { replace (is_undef cfgFn) with false by (by destruct cfgFn).
    split; [by right|done]. }
  cbn [is_undef].
  destruct (jsvIsFunction (jsvObjectGetChild h root name)) eqn:Eg.
  - split; [by right|done].
  - split; [by left|done].
Qed.

(** X4.  [resolveFunc] returns null or a function, never another value; a
    function stands for itself; a name, read through the 48-byte buffer, is
    looked up in [owner.config.actions] first, and a function found there
    wins over the global object. *)
Theorem resolveFunc_result h root owner item :
  let fn := resolveFunc h root owner item in
  (fn = JUndef \/ jsvIsFunction fn = true)
  /\ (jsvIsFunction item = true -> fn = item)
  /\ (jsvIsString item = true ->
      let name := str_from_jsv item 48 in
      let cfgFn :=
        jsvObjectGetChild h
          (getChildObj h (jsvObjectGetChild h owner K_CFG) K_ACTIONS) name in
      let globalFn := jsvObjectGetChild h root name in
      fn = if negb (str_nonempty name) then JUndef
           else if jsvIsFunction cfgFn then cfgFn
           else if jsvIsFunction globalFn then globalFn
           else JUndef).
Proof. exact (resolveFunc_cases h root owner item). Qed.

(** *** Strings read into C buffers *)

Lemma str_take_length n s : String.length (str_take n s) <= n.
Proof.
  revert s. induction n as [|n IH]; intros [|c s]; cbn; try lia.
  specialize (IH s). lia.
Qed.

Lemma c_str_length s : String.length (c_str s) <= String.length s.
Proof.
  induction s as [|c s IH]; cbn; [lia|].
  destruct (Ascii.eqb c Ascii.zero); cbn; lia.
Qed.

Lemma c_str_nul_free s : nul_free (c_str s) = true.
Proof.
  induction s as [|c s IH]; cbn; [done|].
  destruct (Ascii.eqb c Ascii.zero) eqn:E; cbn; [done|]. by rewrite E.
Qed.

Lemma c_str_prefix s : exists rest, s = String.append (c_str s) rest.
Proof.
  induction s as [|c s [rest IH]]; cbn; [by exists ""|].
  destruct (Ascii.eqb c Ascii.zero).
  - by exists (String c s).
  - exists rest. cbn. by rewrite <- IH.
Qed.

Lemma str_take_prefix n s : exists rest, s = String.append (str_take n s) rest.
Proof.
  revert s. induction n as [|n IH]; intros [|c s]; cbn;
    try (by eexists).
  destruct (IH s) as [rest Hr]. exists rest. by rewrite <- Hr.
Qed.

Lemma append_assoc a b c :
  String.append (String.append a b) c = String.append a (String.append b c).
Proof. induction a as [|x a IH]; cbn; [done|]. by rewrite IH. Qed.

Lemma c_str_id s : nul_free s = true -> c_str s = s.
Proof.
  induction s as [|c s IH]; cbn; [done|]. intros H.
  apply andb_prop in H as [Hc Hs]. apply negb_true_iff in Hc.
  rewrite Hc. by rewrite IH.
Qed.

Lemma str_take_id n s : String.length s <= n -> str_take n s = s.
Proof.
  revert s. induction n as [|n IH]; intros [|c s]; cbn; try done; try lia.
  intros H. rewrite IH; [done|lia].
Qed.

(** X5.  What [str_from_jsv] leaves in a buffer of [n] bytes always fits
    with its terminator, holds no NUL, and is an initial part of the string
    it was read from; a string without NUL that is at least two characters
    shorter than the buffer is read back unchanged; anything but a string
    reads as the empty string. *)
Theorem str_from_jsv_fits_buffer s n :
  String.length (str_from_jsv s n) <= n - 1
  /\ nul_free (str_from_jsv s n) = true
  /\ (jsvIsString s = false -> str_from_jsv s n = "")
  /\ (forall x, s = JStr x ->
        (exists rest, x = String.append (str_from_jsv s n) rest)
        /\ (nul_free x = true -> String.length x + 2 <= n ->
            str_from_jsv s n = x)).
Proof.
  unfold str_from_jsv, jsvGetString.
  destruct s as [| |b|z|x|f|r]; cbn [jsvIsString];
    try (split; [cbn; lia|]; split; [done|]; split; [done|]; intros; done).
  destruct (Nat.eqb n 0) eqn:En.
  - apply Nat.eqb_eq in En. subst n.
    split; [cbn; lia|]. split; [done|]. split; [done|].
    intros y [= <-]. split; [by exists x|]. intros _ H. lia.
  - apply Nat.eqb_neq in En. split; [|split; [|split; [done|]]].
    + pose proof (c_str_length (str_take (n - 1 - 1) x)).
      pose proof (str_take_length (n - 1 - 1) x). lia.
    + apply c_str_nul_free.
    + intros y [= <-]. split.
      * destruct (str_take_prefix (n - 1 - 1) x) as [r1 H1].
        destruct (c_str_prefix (str_take (n - 1 - 1) x)) as [r2 H2].
        exists (String.append r2 r1).
        rewrite <- append_assoc, <- H2. exact H1.
      * intros Hn Hl. rewrite str_take_id by lia. by apply c_str_id.
Qed.

(** *** The action pipeline: what a run leaves alone *)

Lemma isObject_frame h h' x :
  h `prefix_of` h' -> jsvIsObject h x = true -> jsvIsObject h' x = true.
Proof.
  intros Hp Ho. rewrite (isObject_prefix h h' Hp); [done|].
  by apply isObject_valid.
Qed.

Lemma jsvIsObject_not h c :
  is_undef c || negb (jsvIsObject h c) = false -> jsvIsObject h c = true.
Proof.
  intros H. apply orb_false_elim in H as [_ H]. by apply negb_false_iff in H.
Qed.

Lemma run_actions_raw_frame host svc ctx acts ev fN tN w :
  host_frame host ->
  run_frame (heap w) ctx
    (fst (run_actions_raw host svc ctx acts ev fN tN w))
    (heap (snd (run_actions_raw host svc ctx acts ev fN tN w))).
Proof.
  intros Hf.
  apply (run_actions_raw_inv host (run_frame (heap w) ctx)).
  - intros c fn th args h (Hl & Hc & Hx).
    pose proof (Hf fn th args h) as Hp.
    split; [apply prefix_length in Hp; lia|]. split; [done|].
    intros x Hv Hne. rewrite <- (Hx x Hv Hne).
    apply cell_of_prefix; [done|]. by apply (valid_mono (heap w)).
  - intros c h cell (Hl & Hc & Hx).
    split; [rewrite length_app; lia|]. split; [done|].
    intros x Hv Hne. rewrite <- (Hx x Hv Hne).
    apply cell_of_alloc. by apply (valid_mono (heap w)).
  - intros c k v h (Hl & Hc & Hx).
    split; [by rewrite set_length|]. split; [done|].
    intros x Hv Hne. rewrite <- (Hx x Hv Hne).
    apply cell_of_set_other. intros ->. destruct Hc as [->|Hc]; [done|].
    by rewrite Hv in Hc.
  - intros c h (Hl & Hc & Hx) _.
    split; [rewrite length_app; lia|]. split.
    + right. cbn. apply Nat.ltb_ge. lia.
    + intros x Hv Hne. rewrite <- (Hx x Hv Hne).
      apply cell_of_alloc. by apply (valid_mono (heap w)).
  - split; [lia|]. split; [by left|done].
Qed.

Lemma run_actions_raw_keeps_object host svc ctx acts ev fN tN w x :
  host_frame host ->
  jsvIsObject (heap w) x = true ->
  jsvIsObject (heap (snd (run_actions_raw host svc ctx acts ev fN tN w))) x
  = true.
Proof.
  intros Hf Ho.
  apply (run_actions_raw_inv host (fun _ h => jsvIsObject h x = true)); auto.
  - intros _ fn th args h. by apply isObject_frame.
  - intros _ h cell. apply isObject_frame. by apply prefix_app_r.
  - intros c k v h. by rewrite isObject_set.
  - intros _ h H _. revert H. apply isObject_frame. by apply prefix_app_r.
Qed.

(** X6.  Under a host that only allocates, a run of the pipeline writes no
    object of the store it started with other than the context it was
    given: the machine definition, the action list, the event and the
    Service keep their children; and the context it ends with is the one it
    was given or an object allocated during the run. *)
Theorem run_actions_writes_only_context
  host svc ctx acts ev fN tN w ctx1 w1 :
  host_frame host ->
  run_actions_raw host svc ctx acts ev fN tN w = (ctx1, w1) ->
  (ctx1 = ctx \/ valid (heap w) ctx1 = false)
  /\ forall x, valid (heap w) x = true -> x <> ctx ->
       cell_of (heap w1) x = cell_of (heap w) x.
Proof.
  intros Hf Hrun.
  pose proof (run_actions_raw_frame host svc ctx acts ev fN tN w Hf) as H.
  rewrite Hrun in H. by destruct H as (_ & H1 & H2).
Qed.

(** X7.  [apply_assignment] always ends with a context that is an object:
    the one it was given when that is an object, and otherwise a new object,
    which is created even when the action assigns nothing. *)
Theorem apply_assignment_ensures_context host svc ctx a ev w :
  host_frame host ->
  let ctx1 := fst (apply_assignment host svc ctx a ev w) in
  let w1 := snd (apply_assignment host svc ctx a ev w) in
  jsvIsObject (heap w1) ctx1 = true
  /\ ctx1 = (if jsvIsObject (heap w) ctx then ctx else JRef (length (heap w))).
Proof.
  intros Hf. cbn zeta.
  set (I := fun (c : JsVar) (h : Heap) => jsvIsObject h c = true).
  assert (I_host : forall c fn th args h,
             I c h -> I c (snd (host_exec host fn th args h))).
  { intros c fn th args h. by apply isObject_frame. }
  assert (I_alloc : forall c h cell, I c h -> I c (h ++ [cell])).
  { intros c h cell. apply isObject_frame. by apply prefix_app_r. }
  assert (I_set : forall c k v h, I c h -> I c (jsvObjectSetChild c k v h)).
  { intros c k v h. unfold I. by rewrite isObject_set. }
  unfold apply_assignment.
  set (r := if is_undef ctx || negb (jsvIsObject (heap w) ctx)
            then jsvNewObject w else (ctx, w)).
  assert (Hr : I (fst r) (heap (snd r))
               /\ fst r = if jsvIsObject (heap w) ctx then ctx
                          else JRef (length (heap w))).
  { subst r. destruct (is_undef ctx || negb (jsvIsObject (heap w) ctx)) eqn:E.
    - cbn. split; [apply alloc_isObject|].
      apply orb_prop in E as [E|E]; [by destruct ctx|].
      apply negb_true_iff in E. by rewrite E.
    - apply jsvIsObject_not in E. cbn. by rewrite E. }
  destruct r as [c1 w1]. cbn [fst snd] in Hr. destruct Hr as [Hi Hc].
  destruct (is_undef (assign_payload (heap w1) a)); [done|].
  destruct (jsvIsFunction (assign_payload (heap w1) a)).
  - pose proof (assign_args_inv I I_alloc c1 c1 ev w1 Hi) as Ha.
    destruct (assign_args c1 ev w1) as [args w2]. cbn [snd] in Ha.
    pose proof (xfsm_callJsFunction_inv host I I_host c1
                  (assign_payload (heap w1) a) JUndef args w2 Ha) as Hcall.
    destruct (xfsm_callJsFunction host (assign_payload (heap w1) a) JUndef
                args w2) as [res w3].
    cbn [snd] in Hcall.
    destruct (negb (is_undef res) && jsvIsObject (heap w3) res); cbn;
      [|done].
    split; [|done]. by apply (merge_result_inv I I_set).
  - destruct (jsvIsObject (heap w1) (assign_payload (heap w1) a)); cbn;
      [|done].
    split; [|done]. by apply (assign_map_inv host I I_host I_alloc I_set).
Qed.

(** *** The action pipeline: function actions *)

Lemma run_actions_loop_functions host svc actsMap acts ev ctx h0 :
  host_frame host ->
  valid h0 acts = true ->
  Forall (fun x => jsvIsFunction x = true) (arr_items h0 acts) ->
  is_undef ctx = false -> is_undef ev = false ->
  forall n i w,
    h0 `prefix_of` heap w ->
    i + n = length (arr_items h0 acts) ->
    fst (run_actions_loop host svc actsMap acts ev i n ctx w) = ctx
    /\ exists tr,
         calls (snd (run_actions_loop host svc actsMap acts ev i n ctx w))
         = calls w ++ tr
         /\ map call_fn tr = drop i (arr_items h0 acts)
         /\ Forall (fun c => call_this c = svc /\ call_args c = [ctx; ev]) tr.
Proof.
  intros Hf Hv Hall Hc He. induction n as [|n IH]; intros i w Hp Hlen.
  - cbn. split; [done|]. exists []. rewrite app_nil_r, drop_ge by lia. done.
  - cbn [run_actions_loop].
    rewrite (item_prefix h0 (heap w) Hp) by done.
    destruct (lookup_lt_is_Some_2 (arr_items h0 acts) i ltac:(lia)) as [x Hx].
    assert (Hfx : jsvIsFunction x = true).
    { by apply (Forall_lookup_1 _ _ i x Hall). }
    assert (Hitem : jsvGetArrayItem h0 acts i = x).
    { unfold jsvGetArrayItem. by rewrite Hx. }
    rewrite Hitem.
    replace (is_undef x) with false by (by destruct x).
    unfold run_action_item. rewrite Hfx.
    unfold exec_action, action_argv. rewrite Hc, He.
    cbv beta iota zeta. unfold jspExecuteFunction.
    pose proof (Hf x svc [ctx; ev] (heap w)) as Hp1.
    destruct (host_exec host x svc [ctx; ev] (heap w)) as [res h1].
    cbv beta iota zeta. cbn [snd fst] in *.
    destruct (IH (S i) (mkWorld h1 (calls w ++ [mkCall x svc [ctx; ev] res])))
      as (Hctx & tr & Hcalls & Hmap & Hfor).
    { cbn. by etrans. }
    { lia. }
    split; [done|].
    exists (mkCall x svc [ctx; ev] res :: tr). split; [|split].
    + rewrite Hcalls. cbn. by rewrite <- app_assoc.
    + cbn. rewrite Hmap. symmetry. by apply drop_S.
    + by constructor.
Qed.

(** X8.  When every item of the action list is a function, the pipeline
    calls each of them exactly once, in the order of the list, with the
    Service as [this] and the same context and event as arguments, and ends
    with the context it was given. *)
Theorem run_actions_functions_in_order
  host svc ctx acts ev fN tN w :
  host_frame host ->
  jsvIsArray (heap w) acts = true ->
  Forall (fun x => jsvIsFunction x = true) (arr_items (heap w) acts) ->
  is_undef ctx = false -> is_undef ev = false ->
  fst (run_actions_raw host svc ctx acts ev fN tN w) = ctx
  /\ exists tr,
       calls (snd (run_actions_raw host svc ctx acts ev fN tN w))
       = calls w ++ tr
       /\ map call_fn tr = arr_items (heap w) acts
       /\ Forall (fun c => call_this c = svc /\ call_args c = [ctx; ev]) tr.
Proof.
  intros Hf Ha Hall Hc He. unfold run_actions_raw.
  replace (is_undef acts) with false by (by destruct acts).
  rewrite Ha. cbn [negb orb].
  apply (run_actions_loop_functions host svc _ acts ev ctx (heap w)); auto.
  by apply isArray_valid.
Qed.

(** *** Machine.initialState: effects *)

Lemma validate_frame host cfg w :
  host_frame host ->
  let w1 := snd (xfsm_validate_no_nested_states host cfg w) in
  heap w `prefix_of` heap w1
  /\ (calls w1 = calls w
      \/ exists res,
           calls w1
           = calls w ++ [mkCall (jspEvaluateVar host validate_src) JUndef
                           [cfg] res]).
Proof.
  intros Hf. unfold xfsm_validate_no_nested_states.
  destruct (is_undef cfg || negb (jsvIsObject (heap w) cfg)); [by split; [|left]|].
  destruct (is_undef (jspEvaluateVar host validate_src)); [by split; [|left]|].
  destruct (jsvIsFunction (jspEvaluateVar host validate_src));
    [|by split; [|left]].
  unfold jspExecuteFunction.
  pose proof (Hf (jspEvaluateVar host validate_src) JUndef [cfg] (heap w)) as Hp.
  destruct (host_exec host (jspEvaluateVar host validate_src) JUndef [cfg]
              (heap w)) as [res h1].
  cbn [snd] in Hp.
  destruct res; cbn; (split; [done|]); right; eauto.
Qed.

Lemma initial_state_spec host m w st w' :
  host_frame host ->
  xfsm_machine_initial_state host m w = (st, w') ->
  let cfg := jsvObjectGetChild (heap w) m K_CFG in
  exists w1,
    heap w `prefix_of` heap w1
    /\ (calls w1 = calls w
        \/ exists res,
             calls w1
             = calls w ++ [mkCall (jspEvaluateVar host validate_src) JUndef
                             [cfg] res])
    /\ ((st = JUndef /\ w' = w1)
        \/ exists ctx acts,
             let value := str_from_jsv (jsvObjectGetChild (heap w1) cfg "initial")
                            64 in
             str_nonempty value = true
             /\ jsvIsObject (heap w) m = true
             /\ ctx = jsvObjectGetChild (heap w1) cfg K_CONTEXT
             /\ acts
                = (let node := jsvObjectGetChild (heap w1)
                                 (jsvObjectGetChild (heap w1) cfg K_STATES)
                                 value in
                   if negb (is_undef node) && jsvIsObject (heap w1) node
                   then jsvObjectGetChild (heap w1) node K_ENTRY else JUndef)
             /\ st = JRef (length (heap w1))
             /\ w' = mkWorld
                       (heap w1
                        ++ [CObj (state_fields host value ctx acts false)])
                       (calls w1)).
Proof.
  intros Hf. unfold xfsm_machine_initial_state. cbn zeta.
  destruct (is_undef m || negb (jsvIsObject (heap w) m)) eqn:Em.
  { intros [= <- <-]. exists w. split; [done|]. split; by left. }
  apply jsvIsObject_not in Em.
  destruct (is_undef (jsvObjectGetChild (heap w) m K_CFG)).
  { intros [= <- <-]. exists w. split; [done|]. split; by left. }
  pose proof (validate_frame host (jsvObjectGetChild (heap w) m K_CFG) w Hf)
    as Hv. cbn zeta in Hv.
  destruct (xfsm_validate_no_nested_states host
              (jsvObjectGetChild (heap w) m K_CFG) w) as [ok w1].
  cbn [snd] in Hv. destruct Hv as [Hp Hc].
  intros Hrun. exists w1. split; [done|]. split; [done|]. revert Hrun.
  destruct (negb (str_nonempty _)) eqn:Ei; [intros [= <- <-]; by left|].
  apply negb_false_iff in Ei.
  match goal with |- context [if ?b then (JUndef, w1) else _] => destruct b end;
    [intros [= <- <-]; by left|].
  rewrite new_state_obj_spec. intros [= <- <-]. right. eauto 10.
Qed.

(** X9.  [xfsm_machine_initial_state] writes no cell of the store and runs
    no action: under a host that only allocates, the store is only
    extended, the only function that may be called is the nested-states
    validator, on the configuration, and the state returned is an object
    that did not exist before. *)
Theorem initial_state_is_pure host m w st w' :
  host_frame host ->
  xfsm_machine_initial_state host m w = (st, w') ->
  heap w `prefix_of` heap w'
  /\ (calls w' = calls w
      \/ exists res,
           calls w'
           = calls w ++ [mkCall (jspEvaluateVar host validate_src) JUndef
                           [jsvObjectGetChild (heap w) m K_CFG] res])
  /\ (is_undef st = false ->
      valid (heap w) st = false /\ jsvIsObject (heap w') st = true).
Proof.
  intros Hf Hrun.
  destruct (initial_state_spec host m w st w' Hf Hrun)
    as (w1 & Hp & Hc & [[-> ->]|(ctx & acts & Hv & _ & _ & _ & -> & ->)]).
  - by split; [|split].
  - cbn [heap calls]. split; [|split; [done|]].
    + etrans; [done|]. by apply prefix_app_r.
    + intros _. split; [|apply alloc_isObject].
      cbn. apply Nat.ltb_ge. by apply prefix_length.
Qed.

(** *** Flat machine validation *)

(** X10.  The verdict of [xfsm_validate_no_nested_states] is negative exactly
    when the configuration is an object, the validator is a function, and
    its result is a string that starts with a character other than NUL: of
    the name copied into the 64-byte buffer only the first character
    counts. *)
Theorem validate_verdict host cfg w :
  fst (xfsm_validate_no_nested_states host cfg w) = false
  <-> jsvIsObject (heap w) cfg = true
      /\ jsvIsFunction (jspEvaluateVar host validate_src) = true
      /\ exists c rest,
           fst (host_exec host (jspEvaluateVar host validate_src) JUndef
                  [cfg] (heap w)) = JStr (String c rest)
           /\ c <> Ascii.zero.
Proof.
  unfold xfsm_validate_no_nested_states.
  destruct (is_undef cfg || negb (jsvIsObject (heap w) cfg)) eqn:Ec.
  { cbn. split; [done|]. intros (Ho & _). apply orb_prop in Ec as [Ec|Ec].
    - by destruct cfg.
    - by rewrite Ho in Ec. }
  apply jsvIsObject_not in Ec.
  destruct (jspEvaluateVar host validate_src) as [| |b|z|s|f|r] eqn:Efn;
    cbn [is_undef jsvIsFunction fst]; try (split; [done|by intros (_ & ? & _)]).
  unfold jspExecuteFunction.
  destruct (host_exec host (JFun f) JUndef [cfg] (heap w)) as [res h1].
  cbn [fst].
  destruct res as [| |b|z|s|g|r]; cbn [fst];
    try (split; [done|by intros (_ & _ & ? & ? & ? & _)]).
  destruct s as [|c rest]; cbn.
  { split; [done|by intros (_ & _ & ? & ? & ? & _)]. }
  destruct (Ascii.eqb c Ascii.zero) eqn:E; cbn.
  - apply Ascii.eqb_eq in E. split; [done|].
    intros (_ & _ & c' & rest' & [= <- <-] & Hne). done.
  - apply Ascii.eqb_neq in E. split; [|done]. intros _. eauto 10.
Qed.

(** *** The Service: life cycle *)

Lemma get_set_key_ne o k v h x k' :
  k <> k' ->
  jsvObjectGetChild (jsvObjectSetChild o k v h) x k' = jsvObjectGetChild h x k'.
Proof.
  intros Hk. destruct (decide (x = o)) as [->|Hne].
  - by apply get_set_ne.
  - by apply get_set_other.
Qed.

Lemma valid_fresh h : valid h (JRef (length h)) = false.
Proof. cbn. apply Nat.ltb_irrefl. Qed.

Lemma get_alloc h c x k :
  valid h x = true ->
  jsvObjectGetChild (h ++ [c]) x k = jsvObjectGetChild h x k.
Proof. intros Hv. apply get_prefix; [by apply prefix_app_r|done]. Qed.

Lemma notify_each_frame host svc st ls w :
  host_frame host -> heap w `prefix_of` heap (notify_each host svc st ls w).
Proof.
  intros Hf. revert w. induction ls as [|[k fn] rest IH]; intros w;
    cbn [notify_each]; [done|].
  destruct (negb (is_undef fn) && jsvIsFunction fn && negb (is_undef st));
    [|apply IH].
  etrans; [|apply IH]. unfold jspExecuteFunction.
  pose proof (Hf fn svc [st] (heap w)) as Hp.
  by destruct (host_exec host fn svc [st] (heap w)).
Qed.

Lemma notify_listeners_frame host svc w :
  host_frame host -> heap w `prefix_of` heap (xfsm_notify_listeners host svc w).
Proof.
  intros Hf. unfold xfsm_notify_listeners.
  destruct (is_undef svc || negb (jsvIsObject (heap w) svc)); [done|].
  match goal with |- context [if ?b then w else _] => destruct b end; [done|].
  by apply notify_each_frame.
Qed.

Lemma initial_state_prefix host m w :
  host_frame host ->
  heap w `prefix_of` heap (snd (xfsm_machine_initial_state host m w)).
Proof.
  intros Hf.
  destruct (xfsm_machine_initial_state host m w) as [st w'] eqn:E.
  destruct (initial_state_spec host m w st w' Hf E)
    as (w1 & Hp & _ & [[_ ->]|(ctx & acts & _ & _ & _ & _ & _ & ->)]); [done|].
  cbn. etrans; [done|]. by apply prefix_app_r.
Qed.

Lemma status_is_get h svc s t :
  jsvObjectGetChild h svc K_SSTATUS = JStr t ->
  status_is h svc s = String.eqb (str_from_jsv (JStr t) 16) s.
Proof. intros H. unfold status_is. by rewrite H. Qed.

(** X11.  [xfsm_service_init] binds the machine and leaves the Service not
    started; the context of the Service is the very object
    [machine.config.context], not a copy of it. *)
Theorem service_init_binds host svc m w :
  host_frame host ->
  jsvIsObject (heap w) svc = true ->
  jsvIsObject (heap w) m = true ->
  let w' := xfsm_service_init host svc m w in
  let ctx := jsvObjectGetChild (heap w)
               (jsvObjectGetChild (heap w) m K_CFG) K_CONTEXT in
  xfsm_service_get_status (heap w') svc = JStr "NotStarted"
  /\ xfsm_service_get_status_num (heap w') svc = 0%Z
  /\ jsvObjectGetChild (heap w') svc K_MACHINE = m
  /\ (is_undef ctx = false -> jsvObjectGetChild (heap w') svc K_SCTX = ctx).
Proof.
  intros Hf Hs Hm. cbn zeta. unfold xfsm_service_init.
  replace (is_undef svc) with false by (by destruct svc).
  replace (is_undef m) with false by (by destruct m).
  rewrite Hs, Hm. cbn [negb orb].
  set (w1 := set_child svc K_MACHINE m w).
  assert (Hcfg : jsvObjectGetChild (heap w1) m K_CFG
                 = jsvObjectGetChild (heap w) m K_CFG)
    by (by apply get_set_key_ne).
  rewrite Hcfg. set (cfg := jsvObjectGetChild (heap w) m K_CFG).
  assert (Hctx : jsvObjectGetChild (heap w1) cfg K_CONTEXT
                 = jsvObjectGetChild (heap w) cfg K_CONTEXT)
    by (by apply get_set_key_ne).
  rewrite Hctx. set (ctx := jsvObjectGetChild (heap w) cfg K_CONTEXT).
  set (w2 := if is_undef cfg then w1
             else if is_undef ctx then w1 else set_child svc K_SCTX ctx w1).
  assert (H2 : jsvIsObject (heap w2) svc = true
               /\ jsvObjectGetChild (heap w2) svc K_MACHINE = m
               /\ (is_undef ctx = false ->
                   jsvObjectGetChild (heap w2) svc K_SCTX = ctx)).
  { assert (H1 : jsvIsObject (heap w1) svc = true)
      by (subst w1; cbn; by rewrite isObject_set).
    assert (H1m : jsvObjectGetChild (heap w1) svc K_MACHINE = m)
      by (by apply get_set_eq).
    subst w2. destruct (is_undef cfg) eqn:Ec.
    { split; [done|]. split; [done|]. subst ctx. by destruct cfg. }
    destruct (is_undef ctx) eqn:Ex; [by split; [|split]|].
    cbn. rewrite isObject_set, get_set_key_ne by done.
    split; [done|]. split; [done|]. intros _. by apply get_set_eq. }
  destruct H2 as (Ho2 & Hm2 & Hc2).
  pose proof (initial_state_prefix host m w2 Hf) as Hp.
  destruct (xfsm_machine_initial_state host m w2) as [st w3]. cbn [snd] in Hp.
  set (w4 := if is_undef st then w3 else set_child svc K_SSTATE st w3).
  assert (Hv : valid (heap w2) svc = true) by (by apply isObject_valid).
  assert (H4 : jsvIsObject (heap w4) svc = true
               /\ jsvObjectGetChild (heap w4) svc K_MACHINE = m
               /\ (is_undef ctx = false ->
                   jsvObjectGetChild (heap w4) svc K_SCTX = ctx)).
  { assert (Ho3 : jsvIsObject (heap w3) svc = true)
      by (by apply (isObject_frame (heap w2))).
    subst w4. destruct (is_undef st); cbn;
      rewrite ?isObject_set, ?get_set_key_ne by done;
      rewrite !(get_prefix (heap w2) (heap w3) Hp) by done; done. }
  destruct H4 as (Ho4 & Hm4 & Hc4).
  assert (Hst : jsvObjectGetChild
                  (heap (set_child svc K_SSTATUS (JStr "NotStarted") w4))
                  svc K_SSTATUS = JStr "NotStarted")
    by (by apply get_set_eq).
  split; [|split; [|split]].
  - unfold xfsm_service_get_status. rewrite Hst. by destruct svc.
  - unfold xfsm_service_get_status_num.
    rewrite !(status_is_get _ _ _ _ Hst). by destruct svc.
  - cbn. by rewrite get_set_key_ne.
  - intros Hx. cbn. rewrite get_set_key_ne by done. by apply Hc4.
Qed.

(** X12.  Once [xfsm_service_stop] has run on a Service, the Service is
    stopped, its listener table is empty, its state and context are as they
    were, and [xfsm_service_send] returns null for every event and leaves the
    world as it is. *)
Theorem service_stop_then_send host svc w :
  jsvIsObject (heap w) svc = true ->
  let w1 := snd (xfsm_service_stop svc w) in
  (forall ev, xfsm_service_send host svc ev w1 = (JUndef, w1))
  /\ listener_fns (heap w1) svc = []
  /\ xfsm_service_get_status_num (heap w1) svc = 2%Z
  /\ xfsm_service_get_state (heap w1) svc = xfsm_service_get_state (heap w) svc
  /\ jsvObjectGetChild (heap w1) svc K_SCTX
     = jsvObjectGetChild (heap w) svc K_SCTX.
Proof.
  intros Ho. cbn zeta. unfold xfsm_service_stop.
  assert (Eu : is_undef svc = false) by (by destruct svc).
  rewrite Eu.
  cbn [snd jsvNewObject heap_alloc set_child with_heap heap calls].
  set (h1 := jsvObjectSetChild svc K_SSTATUS (JStr "Stopped") (heap w)).
  set (h2 := jsvObjectSetChild svc "_listeners" (JRef (length h1))
               (h1 ++ [CObj []])).
  assert (Hv1 : valid h1 svc = true).
  { apply isObject_valid. subst h1. by rewrite isObject_set. }
  assert (Ho1 : jsvIsObject (h1 ++ [CObj []]) svc = true).
  { apply (isObject_frame h1); [by apply prefix_app_r|].
    subst h1. by rewrite isObject_set. }
  assert (Hst : jsvObjectGetChild h2 svc K_SSTATUS = JStr "Stopped").
  { subst h2. rewrite get_set_key_ne, get_alloc by done.
    subst h1. by apply get_set_eq. }
  assert (Hl : jsvObjectGetChild h2 svc "_listeners" = JRef (length h1)).
  { subst h2. by apply get_set_eq. }
  assert (Hne : JRef (length h1) <> svc).
  { intros E. rewrite <- E in Hv1. by rewrite valid_fresh in Hv1. }
  split; [|split; [|split; [|split]]].
  - intros ev. unfold xfsm_service_send. cbn [heap]. rewrite Eu. cbn [orb].
    rewrite (status_is_get _ _ _ _ Hst).
    by destruct (is_undef ev).
  - unfold listener_fns. cbn [heap]. rewrite Hl.
    assert (He : obj_entries h2 (JRef (length h1)) = []).
    { subst h2. unfold obj_entries.
      rewrite cell_of_set_other by done. cbn.
      by rewrite lookup_app_r, Nat.sub_diag by lia. }
    rewrite He.
    by destruct (is_undef (jsvObjectGetChild h2 svc K_SSTATE)).
  - unfold xfsm_service_get_status_num. cbn [heap]. rewrite Eu.
    by rewrite !(status_is_get _ _ _ _ Hst).
  - unfold xfsm_service_get_state. cbn [heap]. rewrite Eu.
    subst h2. rewrite get_set_key_ne, get_alloc by done.
    subst h1. by rewrite get_set_key_ne.
  - cbn [heap]. subst h2. rewrite get_set_key_ne, get_alloc by done.
    subst h1. by rewrite get_set_key_ne.
Qed.

(** *** Closed stores *)

Lemma forallb_Forall {A} (f : A -> bool) (l : list A) :
  forallb f l = true <-> Forall (fun x => f x = true) l.
Proof.
  induction l as [|x l IH]; cbn.
  - split; [constructor|done].
  - rewrite andb_true_iff, IH. split.
    + intros [? ?]. by constructor.
    + by inversion 1.
Qed.

Lemma closed_Forall h :
  closed h = true
  <-> Forall (fun c => Forall (fun v => valid h v = true) (cell_vals c)) h.
Proof.
  unfold closed. rewrite forallb_Forall. apply Forall_iff. intros c.
  apply forallb_Forall.
Qed.

Lemma closed_alloc h c :
  closed h = true ->
  Forall (fun v => valid (h ++ [c]) v = true) (cell_vals c) ->
  closed (h ++ [c]) = true.
Proof.
  rewrite !closed_Forall. intros Hh Hc. apply Forall_app. split.
  - eapply Forall_impl; [exact Hh|]. intros x Hx. cbn in Hx.
    eapply Forall_impl; [exact Hx|]. intros v Hv. cbn in Hv.
    apply (valid_prefix h); [by apply prefix_app_r|done].
  - by constructor.
Qed.

Lemma assoc_set_vals (P : JsVar -> Prop) k v kvs :
  P v -> Forall P (map snd kvs) -> Forall P (map snd (assoc_set k v kvs)).
Proof.
  intros Hv. induction kvs as [|[k' v'] rest IH]; cbn; intros H.
  - by constructor.
  - inversion H; subst. destruct (String.eqb k k'); cbn; constructor; auto.
Qed.

Lemma closed_set o k v h :
  closed h = true -> valid h v = true ->
  closed (jsvObjectSetChild o k v h) = true.
Proof.
  intros Hc Hv. unfold jsvObjectSetChild.
  destruct o as [| |b|z|s|f|r]; try done.
  destruct (h !! r) as [[kvs|items]|] eqn:El; try done.
  apply closed_Forall. apply closed_Forall in Hc.
  assert (Hval : forall x, valid (<[r:=CObj (assoc_set k v kvs)]> h) x
                           = valid h x).
  { intros x. destruct x; try done. cbn. by rewrite length_insert. }
  apply Forall_insert.
  - eapply Forall_impl; [exact Hc|]. intros c Hx. cbn in Hx.
    eapply Forall_impl; [exact Hx|]. intros x Hvx. cbn in Hvx.
    by rewrite Hval.
  - cbn. apply assoc_set_vals; [by rewrite Hval|].
    pose proof (Forall_lookup_1 _ _ _ _ Hc El) as Hk. cbn in Hk.
    eapply Forall_impl; [exact Hk|]. intros x Hvx. cbn in Hvx.
    by rewrite Hval.
Qed.

Lemma normalize_event_closed ev w :
  closed (heap w) = true -> valid (heap w) ev = true ->
  let e := fst (xfsm_normalize_event ev w) in
  let w1 := snd (xfsm_normalize_event ev w) in
  closed (heap w1) = true /\ valid (heap w1) e = true
  /\ length (heap w) <= length (heap w1).
Proof.
  intros Hc Hv. unfold xfsm_normalize_event.
  destruct ev as [| |b|z|s|f|r]; cbn [is_undef jsvIsString];
    try (unfold jsvIsObject; cbn; done).
  - cbn. rewrite set_fresh. split; [|split].
    + apply closed_alloc; [done|]. cbn. by constructor.
    + rewrite length_app. cbn. apply Nat.ltb_lt. lia.
    + rewrite length_app. lia.
  - destruct (jsvIsObject (heap w) (JRef r)); [|done].
    match goal with |- context [if ?b then _ else (JRef r, w)] => destruct b end;
      cbn [fst snd]; [|done].
    cbn. split; [by apply closed_set|].
    rewrite set_length. split; [done|lia].
Qed.

(** *** The Service: committing a state *)

Lemma get_cell h h' x k :
  cell_of h' x = cell_of h x ->
  jsvObjectGetChild h' x k = jsvObjectGetChild h x k.
Proof. intros H. unfold jsvObjectGetChild, obj_entries. by rewrite H. Qed.

Lemma isObject_cell h h' x :
  cell_of h' x = cell_of h x -> jsvIsObject h' x = jsvIsObject h x.
Proof. intros H. unfold jsvIsObject. by rewrite H. Qed.

(** What the Service and the state object [st] hold once the action list
    has run, the context has been written back and the state has been
    stored (lines 1153-1165 and 1236-1246). *)
Lemma commit_spec host svc st ctx acts ev fN tN w3 :
  host_frame host ->
  jsvIsObject (heap w3) svc = true ->
  jsvIsObject (heap w3) st = true ->
  st <> svc -> ctx <> st ->
  ctx = jsvObjectGetChild (heap w3) svc K_SCTX ->
  let r := run_actions_raw host svc ctx acts ev fN tN w3 in
  let w5 := persist_context svc st (fst r) (snd r) in
  let w6 := set_child svc K_SSTATE st w5 in
  jsvIsObject (heap w6) svc = true
  /\ jsvIsObject (heap w6) st = true
  /\ jsvObjectGetChild (heap w6) svc K_SSTATE = st
  /\ (forall k, k <> S_CTX ->
        jsvObjectGetChild (heap w6) st k = jsvObjectGetChild (heap w3) st k)
  /\ (is_undef (jsvObjectGetChild (heap w6) svc K_SCTX) = false ->
      jsvObjectGetChild (heap w6) st S_CTX
      = jsvObjectGetChild (heap w6) svc K_SCTX).
Proof.
  intros Hf Hs Hst Hne Hcst Hctx. cbn zeta.
  pose proof (run_actions_raw_frame host svc ctx acts ev fN tN w3 Hf) as Hfr.
  pose proof (run_actions_raw_keeps_object host svc ctx acts ev fN tN w3 svc
                Hf Hs) as Hs4.
  destruct (run_actions_raw host svc ctx acts ev fN tN w3) as [ctx1 w4].
  cbn [fst snd] in *. destruct Hfr as (Hlen & Hc1 & Hcells).
  assert (Hst4 : cell_of (heap w4) st = cell_of (heap w3) st).
  { apply Hcells; [by apply isObject_valid|done]. }
  assert (Hso4 : jsvIsObject (heap w4) st = true)
    by (by rewrite (isObject_cell _ _ _ Hst4)).
  unfold persist_context, set_child, with_heap. cbn [heap].
  destruct (is_undef ctx1) eqn:Eu; cbn [heap].
  - rewrite !isObject_set. split; [done|]. split; [done|].
    split; [by apply get_set_eq|]. split.
    + intros k _. rewrite get_set_other by done. by apply get_cell.
    + intros Hd. exfalso. rewrite get_set_key_ne in Hd by done.
      destruct Hc1 as [->|Hc1]; [|by destruct ctx1].
      assert (Hsc : svc <> ctx) by (intros <-; by destruct svc).
      rewrite (get_cell (heap w3)) in Hd.
      * rewrite <- Hctx in Hd. by rewrite Eu in Hd.
      * apply Hcells; [by apply isObject_valid|done].
  - rewrite !isObject_set. split; [done|]. split; [done|].
    split; [by apply get_set_eq; rewrite !isObject_set|]. split.
    + intros k Hk. rewrite get_set_other by done.
      rewrite get_set_ne by (intros E; by rewrite E in Hk).
      rewrite get_set_other by done. by apply get_cell.
    + intros _. rewrite get_set_other by done.
      rewrite get_set_eq by (by rewrite isObject_set).
      rewrite get_set_key_ne by done.
      rewrite get_set_other by (by intros ->).
      symmetry. by apply get_set_eq.
Qed.

(** *** The action pipeline: the trace only grows *)

Lemma jspExecuteFunction_calls host fn th args w :
  calls w `prefix_of` calls (snd (jspExecuteFunction host fn th args w)).
Proof.
  unfold jspExecuteFunction.
  destruct (host_exec host fn th args (heap w)). cbn. by apply prefix_app_r.
Qed.

Lemma xfsm_callJsFunction_calls host fn th args w :
  calls w `prefix_of` calls (snd (xfsm_callJsFunction host fn th args w)).
Proof.
  unfold xfsm_callJsFunction.
  destruct (is_undef fn || negb (jsvIsFunction fn)); [done|].
  apply jspExecuteFunction_calls.
Qed.

Lemma exec_action_calls host fn svc x ev w :
  calls w `prefix_of` calls (exec_action host fn svc x ev w).
Proof.
  unfold exec_action, action_argv.
  destruct (is_undef x), (is_undef ev); cbn [jsvNewObject heap_alloc];
    apply (jspExecuteFunction_calls host fn svc _ (mkWorld _ (calls w))).
Qed.

Lemma assign_map_calls host c ev kvs w :
  calls w `prefix_of` calls (assign_map host c ev kvs w).
Proof.
  revert w. induction kvs as [|[k v] rest IH]; intros w; cbn [assign_map];
    [done|].
  etrans; [|apply IH].
  destruct (str_nonempty (jsvGetString k 64)); [|done].
  destruct (negb (is_undef v) && jsvIsFunction v).
  - unfold assign_args.
    assert (H : forall wa, calls wa = calls w ->
              calls w `prefix_of`
                calls (let '(out, w') := xfsm_callJsFunction host v JUndef
                                            [c; if is_undef ev
                                                then JRef (length (heap w))
                                                else ev] wa in
                       if is_undef out then w'
                       else set_child c (jsvGetString k 64) out w')).
    { intros wa Ha.
      pose proof (xfsm_callJsFunction_calls host v JUndef
                    [c; if is_undef ev then JRef (length (heap w)) else ev] wa)
        as Hc.
      destruct (xfsm_callJsFunction host v JUndef _ wa) as [out w'].
      cbn [snd] in Hc. rewrite Ha in Hc. by destruct (is_undef out). }
    destruct (is_undef ev); cbn [jsvNewObject heap_alloc]; by apply H.
  - by destruct (is_undef v).
Qed.

Lemma apply_assignment_calls host svc c a ev w :
  calls w `prefix_of` calls (snd (apply_assignment host svc c a ev w)).
Proof.
  unfold apply_assignment.
  set (r := if is_undef c || negb (jsvIsObject (heap w) c)
            then jsvNewObject w else (c, w)).
  assert (Hr : calls (snd r) = calls w).
  { subst r. by destruct (is_undef c || negb (jsvIsObject (heap w) c)). }
  destruct r as [c1 w1]. cbn [snd] in Hr. rewrite <- Hr.
  destruct (is_undef (assign_payload (heap w1) a)); [done|].
  destruct (jsvIsFunction (assign_payload (heap w1) a)).
  - unfold assign_args.
    assert (H : forall x wa, calls wa = calls w1 ->
              calls w1 `prefix_of`
                calls (snd (let '(res, w3) :=
                              xfsm_callJsFunction host
                                (assign_payload (heap w1) a) JUndef [c1; x] wa in
                            if negb (is_undef res) && jsvIsObject (heap w3) res
                            then (c1, with_heap
                                        (merge_result c1
                                           (obj_entries (heap w3) res)) w3)
                            else (c1, w3)))).
    { intros x wa Ha.
      pose proof (xfsm_callJsFunction_calls host (assign_payload (heap w1) a)
                    JUndef [c1; x] wa) as Hc.
      destruct (xfsm_callJsFunction host _ JUndef [c1; x] wa) as [res w3].
      cbn [snd] in Hc. rewrite Ha in Hc.
      by destruct (negb (is_undef res) && jsvIsObject (heap w3) res). }
    destruct (is_undef ev); cbn [jsvNewObject heap_alloc]; by apply H.
  - destruct (jsvIsObject (heap w1) (assign_payload (heap w1) a)); [|done].
    apply assign_map_calls.
Qed.

Lemma run_action_item_calls host svc actsMap ev item c w :
  calls w `prefix_of`
    calls (snd (run_action_item host svc actsMap ev item c w)).
Proof.
  unfold run_action_item.
  destruct (jsvIsFunction item); [apply exec_action_calls|].
  destruct (jsvIsObject (heap w) item).
  - match goal with |- context [if ?b then (c, exec_action _ _ _ _ _ _) else _] =>
      destruct b end; [apply exec_action_calls|].
    unfold run_typed_item.
    match goal with |- context [if ?b then _ else (false, (c, w))] =>
      destruct b end; [|apply apply_assignment_calls].
    match goal with |- context [if ?b then (true, _) else _] => destruct b end.
    { pose proof (apply_assignment_calls host svc c item ev w) as H.
      by destruct (apply_assignment host svc c item ev w). }
    match goal with |- context [if ?b then _ else (false, (c, w))] =>
      destruct b end; [|apply apply_assignment_calls].
    match goal with |- context [if ?b then (true, _) else _] => destruct b end;
      [apply exec_action_calls|apply apply_assignment_calls].
  - match goal with |- context [if ?b then _ else (c, w)] => destruct b end;
      [|done].
    match goal with |- context [if ?b then _ else (c, w)] => destruct b end;
      [|done].
    apply exec_action_calls.
Qed.

Lemma run_actions_loop_calls host svc actsMap acts ev n i c w :
  calls w `prefix_of`
    calls (snd (run_actions_loop host svc actsMap acts ev i n c w)).
Proof.
  revert i c w. induction n as [|n IH]; intros i c w; cbn [run_actions_loop];
    [done|].
  destruct (is_undef (jsvGetArrayItem (heap w) acts i)); [apply IH|].
  pose proof (run_action_item_calls host svc actsMap ev
                (jsvGetArrayItem (heap w) acts i) c w) as H.
  destruct (run_action_item host svc actsMap ev
              (jsvGetArrayItem (heap w) acts i) c w) as [c1 w1].
  etrans; [exact H|apply IH].
Qed.

Lemma run_actions_raw_calls host svc c acts ev fN tN w :
  calls w `prefix_of`
    calls (snd (run_actions_raw host svc c acts ev fN tN w)).
Proof.
  unfold run_actions_raw.
  destruct (is_undef acts || negb (jsvIsArray (heap w) acts)); [done|].
  apply run_actions_loop_calls.
Qed.

(** What the commit leaves alone: the trace only grows, the store does not
    shrink, and the children of the Service other than its state and its
    context are as they were, provided the context is not the Service
    itself. *)
Lemma commit_frame host svc st ctx acts ev fN tN w3 :
  host_frame host ->
  jsvIsObject (heap w3) svc = true ->
  st <> svc ->
  let r := run_actions_raw host svc ctx acts ev fN tN w3 in
  let w5 := persist_context svc st (fst r) (snd r) in
  let w6 := set_child svc K_SSTATE st w5 in
  calls w3 `prefix_of` calls w6
  /\ length (heap w3) <= length (heap w6)
  /\ (svc <> ctx -> forall k, k <> K_SCTX -> k <> K_SSTATE ->
        jsvObjectGetChild (heap w6) svc k = jsvObjectGetChild (heap w3) svc k).
Proof.
  intros Hf Hs Hne. cbn zeta.
  pose proof (run_actions_raw_frame host svc ctx acts ev fN tN w3 Hf) as Hfr.
  pose proof (run_actions_raw_calls host svc ctx acts ev fN tN w3) as Hc.
  destruct (run_actions_raw host svc ctx acts ev fN tN w3) as [ctx1 w4].
  cbn [fst snd] in *. destruct Hfr as (Hlen & _ & Hcells).
  unfold persist_context, set_child, with_heap.
  destruct (is_undef ctx1); cbn [heap calls]; rewrite ?set_length;
    (split; [done|]); (split; [done|]); intros Hsc k Hk1 Hk2;
    rewrite ?get_set_key_ne by (by intros E; rewrite E in Hk1 || rewrite E in Hk2).
  - apply get_cell. apply Hcells; [by apply isObject_valid|done].
  - rewrite get_set_other by (by intros E; symmetry in E).
    rewrite get_set_key_ne by (by intros E; rewrite E in Hk1).
    apply get_cell. apply Hcells; [by apply isObject_valid|done].
Qed.

Lemma listener_fns_prefix h h' svc :
  h `prefix_of` h' ->
  valid h svc = true ->
  valid h (jsvObjectGetChild h svc "_listeners") = true ->
  listener_fns h' svc = listener_fns h svc.
Proof.
  intros Hp Hv Hl. unfold listener_fns.
  rewrite !(get_prefix h h' Hp svc) by done.
  by rewrite (entries_prefix h h' Hp).
Qed.

Lemma alloc2_get h c kvs k :
  jsvObjectGetChild (h ++ [c; CObj kvs]) (JRef (S (length h))) k
  = assoc_get k kvs.
Proof.
  unfold jsvObjectGetChild, obj_entries, cell_of.
  rewrite lookup_app_r by lia.
  by replace (S (length h) - length h) with 1 by lia.
Qed.

Lemma alloc2_isObject h c kvs :
  jsvIsObject (h ++ [c; CObj kvs]) (JRef (S (length h))) = true.
Proof.
  unfold jsvIsObject, cell_of. rewrite lookup_app_r by lia.
  by replace (S (length h) - length h) with 1 by lia.
Qed.

(** X13.  [xfsm_service_start] is idempotent: when it returns the Service,
    the Service is running, and starting it again returns it at once,
    without running an action or notifying a listener. *)
Theorem service_start_idempotent host svc w r w' :
  host_frame host ->
  xfsm_service_start host svc w = (r, w') ->
  is_undef r = false ->
  r = svc
  /\ xfsm_service_get_status_num (heap w') svc = 1%Z
  /\ xfsm_service_start host svc w' = (svc, w').
Proof.
  intros Hf Hrun Hr.
  assert (Hgoal : status_is (heap w') svc "Running" = true /\ r = svc
                  /\ jsvIsObject (heap w') svc = true).
  { revert Hrun. unfold xfsm_service_start.
    destruct (is_undef svc || negb (jsvIsObject (heap w) svc)) eqn:Es.
    { intros [= <- <-]. done. }
    apply jsvIsObject_not in Es.
    destruct (status_is (heap w) svc "Running") eqn:Er.
    { by intros [= <- <-]. }
    destruct (is_undef (jsvObjectGetChild (heap w) svc K_MACHINE)).
    { intros [= <- <-]. done. }
    pose proof (initial_state_prefix host
                  (jsvObjectGetChild (heap w) svc K_MACHINE) w Hf) as Hp.
    destruct (xfsm_machine_initial_state host
                (jsvObjectGetChild (heap w) svc K_MACHINE) w) as [st w1].
    cbn [snd] in Hp.
    destruct (is_undef st). { intros [= <- <-]. done. }
    cbn [jsvNewObject heap_alloc].
    set (w3 := set_child _ "type" _ _).
    assert (Ho3 : jsvIsObject (heap w3) svc = true).
    { subst w3. cbn. rewrite isObject_set.
      apply (isObject_frame (heap w1)); [by apply prefix_app_r|].
      by apply (isObject_frame (heap w)). }
    pose proof (run_actions_raw_keeps_object host svc
                  (jsvObjectGetChild (heap w1) svc K_SCTX)
                  (jsvObjectGetChild (heap w1) st S_ACTS)
                  (JRef (length (heap w1))) ""
                  (str_from_jsv (jsvObjectGetChild (heap w1) st S_VALUE) 64)
                  w3 svc Hf Ho3) as Ho4.
    destruct (run_actions_raw host svc _ _ _ _ _ w3) as [ctx1 w4].
    cbn [snd] in Ho4.
    set (w7 := set_child svc K_SSTATUS (JStr "Running") _).
    intros [= <- <-].
    assert (Ho7 : jsvIsObject (heap w7) svc = true).
    { subst w7. unfold persist_context. cbn.
      destruct (is_undef ctx1); cbn; by rewrite !isObject_set. }
    assert (Hst7 : jsvObjectGetChild (heap w7) svc K_SSTATUS = JStr "Running").
    { subst w7. cbn. apply get_set_eq. rewrite isObject_set.
      unfold persist_context.
      destruct (is_undef ctx1); cbn; by rewrite ?isObject_set. }
    pose proof (notify_listeners_frame host svc w7 Hf) as Hp7.
    split; [|split; [done|by apply (isObject_frame (heap w7))]].
    rewrite (status_is_get _ _ _ "Running"); [done|].
    rewrite (get_prefix (heap w7)); [done|done|by apply isObject_valid]. }
  destruct Hgoal as (Hst & -> & Ho). split; [done|]. split.
  - unfold xfsm_service_get_status_num. rewrite Hst. by destruct svc.
  - unfold xfsm_service_start. rewrite Hst, Ho. by destruct svc.
Qed.

Lemma valid_lt h x : valid h x = true -> forall n, length h <= n -> x <> JRef n.
Proof.
  intros Hv n Hn ->. cbn in Hv. apply Nat.ltb_lt in Hv. lia.
Qed.

(** X14.  A successful [xfsm_service_start] of a Service that is not
    running commits a new state object: its value is the name
    [config.initial] of the machine, [changed] is false, and its context is
    the context of the Service whenever the Service has one. *)
Theorem service_start_commits host svc w r w' :
  host_frame host ->
  closed (heap w) = true ->
  status_is (heap w) svc "Running" = false ->
  xfsm_service_start host svc w = (r, w') ->
  is_undef r = false ->
  let cfg := jsvObjectGetChild (heap w)
               (jsvObjectGetChild (heap w) svc K_MACHINE) K_CFG in
  let st := xfsm_service_get_state (heap w') svc in
  valid (heap w) st = false
  /\ jsvObjectGetChild (heap w') st S_VALUE
     = JStr (str_from_jsv (jsvObjectGetChild (heap w) cfg "initial") 64)
  /\ jsvObjectGetChild (heap w') st "changed" = JBool false
  /\ (is_undef (jsvObjectGetChild (heap w') svc K_SCTX) = false ->
      jsvObjectGetChild (heap w') st S_CTX
      = jsvObjectGetChild (heap w') svc K_SCTX).
Proof.
  intros Hf Hcl Hnr Hrun Hr. cbn zeta. revert Hrun.
  unfold xfsm_service_start. rewrite Hnr.
  destruct (is_undef svc || negb (jsvIsObject (heap w) svc)) eqn:Es.
  { intros [= <- <-]. done. }
  apply jsvIsObject_not in Es.
  assert (Eu : is_undef svc = false) by (by destruct svc).
  set (m := jsvObjectGetChild (heap w) svc K_MACHINE).
  destruct (is_undef m). { intros [= <- <-]. done. }
  destruct (xfsm_machine_initial_state host m w) as [st w1] eqn:Ei.
  destruct (initial_state_spec host m w st w1 Hf Ei)
    as (wv & Hp & _ & [[-> ->]|(ctx0 & acts0 & Hval & _ & _ & _ & -> & ->)]).
  { intros [= <- <-]. done. }
  cbn [is_undef jsvNewObject heap_alloc heap calls].
  set (value := str_from_jsv
                  (jsvObjectGetChild (heap wv) (jsvObjectGetChild (heap w) m K_CFG)
                     "initial") 64) in *.
  set (fields := state_fields host value ctx0 acts0 false).
  set (h1 := heap wv ++ [CObj fields]).
  set (st := JRef (length (heap wv))).
  set (w3 := set_child (JRef (length h1)) "type" (JStr "xstate.init")
               (mkWorld (h1 ++ [CObj []]) (calls wv))).
  set (ctx := jsvObjectGetChild h1 svc K_SCTX).
  assert (Hsv : valid (heap w) svc = true) by (by apply isObject_valid).
  assert (Hp1 : heap w `prefix_of` h1).
  { subst h1. etrans; [done|]. by apply prefix_app_r. }
  assert (Hlen : length (heap w) <= length (heap wv))
    by (by apply prefix_length).
  assert (Hne : st <> svc).
  { intros E. symmetry in E. revert E. by apply (valid_lt (heap w)). }
  assert (Hctxw : ctx = jsvObjectGetChild (heap w) svc K_SCTX).
  { subst ctx. by apply get_prefix. }
  assert (Hcne : ctx <> st).
  { apply (valid_lt (heap w)); [|done]. rewrite Hctxw. by apply get_valid. }
  assert (Hev : JRef (length h1) <> svc /\ JRef (length h1) <> st).
  { split.
    - intros E. symmetry in E. revert E. apply (valid_lt (heap w)); [done|].
      subst h1. rewrite length_app. cbn. lia.
    - subst st h1. rewrite length_app. cbn. intros [= E]. lia. }
  destruct Hev as [Hev1 Hev2].
  assert (Ho3 : jsvIsObject (heap w3) svc = true).
  { subst w3. cbn. rewrite isObject_set.
    apply (isObject_frame (heap w)); [|done].
    etrans; [done|]. by apply prefix_app_r. }
  assert (Hst1 : forall k, jsvObjectGetChild (heap w3) st k = assoc_get k fields).
  { intros k. subst w3. cbn. rewrite get_set_other by done.
    rewrite get_alloc by (subst h1 st; cbn; rewrite length_app; cbn;
                          apply Nat.ltb_lt; lia).
    subst h1 st. apply alloc_get. }
  assert (Hso3 : jsvIsObject (heap w3) st = true).
  { subst w3. cbn. rewrite isObject_set.
    apply (isObject_frame h1); [by apply prefix_app_r|].
    subst h1 st. apply alloc_isObject. }
  assert (Hc3 : ctx = jsvObjectGetChild (heap w3) svc K_SCTX).
  { subst w3. cbn. rewrite get_set_other by done.
    rewrite get_alloc; [done|]. by apply (valid_prefix (heap w)). }
  pose proof (commit_spec host svc st ctx
                (jsvObjectGetChild h1 st S_ACTS) (JRef (length h1)) ""
                (str_from_jsv (jsvObjectGetChild h1 st S_VALUE) 64) w3
                Hf Ho3 Hso3 Hne Hcne Hc3) as Hcm. cbn zeta in Hcm.
  destruct (run_actions_raw host svc ctx _ _ _ _ w3) as [ctx1 w4].
  cbn [fst snd] in Hcm.
  set (w6 := set_child svc K_SSTATE st (persist_context svc st ctx1 w4)) in *.
  destruct Hcm as (Ho6 & Hso6 & Hg6 & Hk6 & Hx6).
  set (w7 := set_child svc K_SSTATUS (JStr "Running") w6).
  intros [= <- <-].
  pose proof (notify_listeners_frame host svc w7 Hf) as Hp7.
  assert (Hv7 : valid (heap w7) svc = true /\ valid (heap w7) st = true).
  { subst w7. unfold set_child, with_heap. cbn [heap].
    split; apply isObject_valid; by rewrite isObject_set. }
  destruct Hv7 as [Hv7 Hv7'].
  assert (Hgs : xfsm_service_get_state
                  (heap (xfsm_notify_listeners host svc w7)) svc = st).
  { unfold xfsm_service_get_state. rewrite Eu.
    rewrite (get_prefix (heap w7)) by done.
    subst w7. cbn. by rewrite get_set_key_ne. }
  rewrite Hgs.
  assert (Hrd : forall k,
             jsvObjectGetChild (heap (xfsm_notify_listeners host svc w7)) st k
             = jsvObjectGetChild (heap w6) st k).
  { intros k. rewrite (get_prefix (heap w7)) by done.
    subst w7. cbn. by rewrite get_set_other. }
  split; [|split; [|split]].
  - subst st. cbn. apply Nat.ltb_ge. lia.
  - rewrite Hrd, Hk6, Hst1 by done. subst fields.
    rewrite state_fields_value by done. subst value.
    rewrite (get_prefix (heap w) (heap wv)); [done|done|].
    by apply get_valid.
  - rewrite Hrd, Hk6, Hst1 by done. subst fields.
    by rewrite state_fields_changed.
  - rewrite Hrd.
    rewrite (get_prefix (heap w7)) by done.
    subst w7. cbn [heap set_child with_heap].
    rewrite get_set_key_ne by done. exact Hx6.
Qed.

(** *** The Service: send *)

Lemma normalize_event_keeps ev w x :
  let w1 := snd (xfsm_normalize_event ev w) in
  (jsvIsObject (heap w) x = true -> jsvIsObject (heap w1) x = true)
  /\ (forall k, k <> "type" -> valid (heap w) x = true ->
        jsvObjectGetChild (heap w1) x k = jsvObjectGetChild (heap w) x k).
Proof.
  unfold xfsm_normalize_event.
  destruct ev as [| |b|z|s|f|r]; cbn [is_undef jsvIsString];
    try (unfold jsvIsObject at 1; cbn; done).
  - cbn. rewrite set_fresh. split.
    + apply isObject_frame. by apply prefix_app_r.
    + intros k _ Hv. by apply get_alloc.
  - destruct (jsvIsObject (heap w) (JRef r)); [|done].
    match goal with |- context [if ?b then _ else (JRef r, w)] => destruct b end;
      cbn [fst snd]; [|done].
    cbn. split; [by rewrite isObject_set|].
    intros k Hk _. apply get_set_key_ne. by intros E; rewrite E in Hk.
Qed.

Lemma service_send_spec host svc ev w r w' :
  host_frame host ->
  closed (heap w) = true ->
  valid (heap w) ev = true ->
  xfsm_service_send host svc ev w = (r, w') ->
  let m := jsvObjectGetChild (heap w) svc K_MACHINE in
  let e := fst (xfsm_normalize_event ev w) in
  let h1 := heap (snd (xfsm_normalize_event ev w)) in
  (r = JUndef
   /\ (forall x, x <> ev -> valid (heap w) x = true ->
         cell_of (heap w') x = cell_of (heap w) x)
   /\ exists tr,
        calls w' = calls w ++ tr
        /\ forall c, In c tr ->
             exists p el,
               transition_prelude h1 m JUndef e = Some p
               /\ In el (cand_elems h1 (p_cands p))
               /\ rejected_by h1 (p_guardCtx p) e el c)
  \/ (exists name,
        r = JStr name /\ str_nonempty name = true
        /\ jsvIsObject (heap w) svc = true
        /\ let st := xfsm_service_get_state (heap w') svc in
           valid (heap w) st = false
           /\ jsvObjectGetChild (heap w') st S_VALUE = r
           /\ (is_undef (jsvObjectGetChild (heap w') svc K_SCTX) = false ->
               jsvObjectGetChild (heap w') st S_CTX
               = jsvObjectGetChild (heap w') svc K_SCTX)
           /\ exists mid tr,
                calls w' = calls w ++ mid ++ tr
                /\ Forall (fun c => call_this c = svc /\ call_args c = [st])
                     tr
                /\ (jsvObjectGetChild (heap w) svc K_SCTX <> svc ->
                    map call_fn tr = listener_fns (heap w') svc)).
Proof.
  intros Hf Hcl Hev. unfold xfsm_service_send.
  set (m := jsvObjectGetChild (heap w) svc K_MACHINE).
  assert (Hnone : forall (w0 : World) (h1 : Heap) (e : JsVar), w0 = w ->
            (JUndef = JUndef
             /\ (forall x, x <> ev -> valid (heap w) x = true ->
                   cell_of (heap w0) x = cell_of (heap w) x)
             /\ exists tr,
                  calls w0 = calls w ++ tr
                  /\ forall c, In c tr ->
                       exists p el,
                         transition_prelude h1 m JUndef e = Some p
                         /\ In el (cand_elems h1 (p_cands p))
                         /\ rejected_by h1 (p_guardCtx p) e el c)).
  { intros w0 h1 e ->. split; [done|]. split; [done|]. exists [].
    rewrite app_nil_r. split; [done|]. by intros c []. }
  destruct (is_undef svc || is_undef ev) eqn:Eu.
  { intros [= <- <-]. left. by apply Hnone. }
  apply orb_false_elim in Eu as [Eus Eue].
  destruct (status_is (heap w) svc "Running") eqn:Er; cbn [negb].
  2:{ intros [= <- <-]. left. by apply Hnone. }
  assert (Hso : jsvIsObject (heap w) svc = true).
  { destruct (jsvIsObject (heap w) svc) eqn:E; [done|].
    unfold status_is in Er. by rewrite get_not_object in Er. }
  destruct (is_undef m) eqn:Em.
  { intros [= <- <-]. left. by apply Hnone. }
  pose proof (normalize_event_cases ev w) as Hn.
  pose proof (normalize_event_closed ev w Hcl Hev) as Hnc.
  pose proof (normalize_event_keeps ev w svc) as Hnk.
  cbn zeta in Hn, Hnc, Hnk.
  destruct (xfsm_normalize_event ev w) as [e w1]. cbn [fst snd] in *.
  destruct Hn as (Hcalls1 & _ & Hcells1).
  destruct Hnc as (Hcl1 & Hve & Hlen1). destruct Hnk as [Hso1 Hget1].
  destruct (is_undef e) eqn:Ee.
  { intros [= <- <-]. left. split; [done|]. split; [by auto|].
    exists []. rewrite Hcalls1, app_nil_r. split; [done|]. by intros c []. }
  assert (Hsv : valid (heap w) svc = true) by (by apply isObject_valid).
  assert (Hmv : valid (heap w1) m = true).
  { apply (valid_mono (heap w)); [done|]. by apply get_valid. }
  destruct (xfsm_machine_transition_ex host m JUndef e w1) as [next w2] eqn:Et.
  pose proof (transition_spec host (heap w1) m JUndef e w1 next w2 Hf Hcl1
                (reflexivity _) Hmv eq_refl Hve Et) as Hts.
  destruct (transition_prelude (heap w1) m JUndef e) as [p|] eqn:Ep.
  2:{ destruct Hts as [-> ->]. intros [= <- <-]. left.
      split; [done|]. split; [by auto|]. exists [].
      rewrite Hcalls1, app_nil_r. split; [done|]. by intros c []. }
  destruct Hts as (tr & o & w1' & Hc1' & Hp1' & Hfm & Ho).
  destruct o as [el|].
  2:{ destruct Ho as [-> ->]. intros [= <- <-]. left.
      split; [done|]. split.
      - intros x Hx Hvx. rewrite <- (Hcells1 x Hx Hvx).
        apply cell_of_prefix; [done|]. by apply (valid_mono (heap w)).
      - exists tr. rewrite Hc1', Hcalls1. split; [done|]. intros c Hc.
        destruct (FirstMatch_none_rejected _ _ _ _ _ Hfm c Hc)
          as (el & Hel & _ & Hrej).
        by exists p, el. }
  destruct Ho as [-> ->]. cbn [is_undef heap calls].
  set (h2 := heap w1' ++ _).
  set (next := JRef (S (length (heap w1')))).
  set (ctx := jsvObjectGetChild h2 svc K_SCTX).
  assert (Hlen2 : length (heap w) <= length (heap w1')).
  { apply prefix_length in Hp1'. lia. }
  assert (Hp2 : heap w1 `prefix_of` h2).
  { subst h2. etrans; [done|]. by apply prefix_app_r. }
  assert (Hsv1 : valid (heap w1) svc = true)
    by (by apply (valid_mono (heap w))).
  assert (Ho2 : jsvIsObject h2 svc = true).
  { apply (isObject_frame (heap w1)); [done|]. by apply Hso1. }
  assert (Hno2 : jsvIsObject h2 next = true) by apply alloc2_isObject.
  assert (Hne : next <> svc).
  { intros E. symmetry in E. revert E. apply (valid_lt (heap w)); [done|lia]. }
  assert (Hctxw : ctx = jsvObjectGetChild (heap w) svc K_SCTX).
  { subst ctx. rewrite (get_prefix (heap w1) h2) by done. by apply Hget1. }
  assert (Hcne : ctx <> next).
  { apply (valid_lt (heap w)); [|lia]. rewrite Hctxw. by apply get_valid. }
  pose proof (commit_spec host svc next ctx
                (jsvObjectGetChild h2 next S_ACTS) e
                (if is_undef (jsvObjectGetChild (heap w1) svc K_SSTATE) then ""
                 else str_from_jsv
                        (jsvObjectGetChild (heap w1)
                           (jsvObjectGetChild (heap w1) svc K_SSTATE) S_VALUE)
                        64)
                (str_from_jsv (jsvObjectGetChild h2 next S_VALUE) 64)
                (mkWorld h2 (calls w1'))
                Hf Ho2 Hno2 Hne Hcne eq_refl) as Hcm. cbn zeta in Hcm.
  cbn [heap] in Hcm.
  pose proof (commit_frame host svc next ctx
                (jsvObjectGetChild h2 next S_ACTS) e
                (if is_undef (jsvObjectGetChild (heap w1) svc K_SSTATE) then ""
                 else str_from_jsv
                        (jsvObjectGetChild (heap w1)
                           (jsvObjectGetChild (heap w1) svc K_SSTATE) S_VALUE)
                        64)
                (str_from_jsv (jsvObjectGetChild h2 next S_VALUE) 64)
                (mkWorld h2 (calls w1')) Hf Ho2 Hne) as Hcf.
  cbn zeta in Hcf. cbn [heap calls] in Hcf.
  destruct (run_actions_raw host svc ctx _ e _ _ (mkWorld h2 (calls w1')))
    as [ctx1 w3].
  cbn [fst snd] in Hcm, Hcf.
  set (w5 := set_child svc K_SSTATE next (persist_context svc next ctx1 w3))
    in *.
  destruct Hcm as (Ho5 & Hno5 & Hg5 & Hk5 & Hx5).
  destruct Hcf as (Hcalls5 & Hlen5 & Hsvc5).
  pose proof (notify_listeners_frame host svc w5 Hf) as Hp5.
  intros [= <- <-]. right.
  assert (Hv5 : valid (heap w5) svc = true /\ valid (heap w5) next = true)
    by (split; by apply isObject_valid).
  destruct Hv5 as [Hv5 Hv5'].
  assert (Hval : jsvObjectGetChild
                   (heap (xfsm_notify_listeners host svc w5)) next S_VALUE
                 = JStr (next_value (heap w1) p el)).
  { rewrite (get_prefix (heap w5)) by done. rewrite Hk5 by done.
    subst h2 next. rewrite alloc2_get. apply state_fields_value.
    by eapply next_value_nonempty. }
  exists (next_value (heap w1) p el). split; [done|].
  split; [by eapply next_value_nonempty|]. split; [done|]. cbn zeta.
  assert (Hgs : xfsm_service_get_state
                  (heap (xfsm_notify_listeners host svc w5)) svc = next).
  { unfold xfsm_service_get_state. rewrite Eus.
    by rewrite (get_prefix (heap w5)). }
  rewrite Hgs. split; [|split; [done|split]].
  - subst next. unfold valid. apply Nat.ltb_ge. lia.
  - rewrite !(get_prefix (heap w5) _ Hp5) by done. exact Hx5.
  - destruct Hcalls5 as [mid Hmid].
    destruct (notify_listeners_trace host svc w5) as (trl & Htrl & Hfns & Hall).
    exists (tr ++ mid), trl. split; [|split].
    + rewrite Htrl, Hmid, Hc1', Hcalls1. by rewrite <- !app_assoc.
    + eapply Forall_impl; [exact Hall|]. intros c [H1 H2].
      split; [done|]. by rewrite H2, Hg5.
    + intros Hself. rewrite Hfns. symmetry.
      apply listener_fns_prefix; [done|done|].
      assert (Hsc : svc <> ctx) by (by rewrite Hctxw; intros E; symmetry in E).
      rewrite (Hsvc5 Hsc) by done.
      rewrite (get_prefix (heap w1) h2) by done.
      rewrite (Hget1 "_listeners") by done.
      apply (valid_mono (heap w)); [|by apply get_valid].
      pose proof (prefix_length _ _ Hp2) as Hl2. lia.
Qed.

(** X15.  A [xfsm_service_send] that returns a value has committed a new
    state object: the value returned is a non-empty string, it is the value
    of the state the Service now holds, and the context of that state is the
    context of the Service whenever the Service has one. *)
Theorem service_send_commits host svc ev w r w' :
  host_frame host ->
  closed (heap w) = true ->
  valid (heap w) ev = true ->
  xfsm_service_send host svc ev w = (r, w') ->
  is_undef r = false ->
  let st := xfsm_service_get_state (heap w') svc in
  (exists name, r = JStr name /\ str_nonempty name = true)
  /\ valid (heap w) st = false
  /\ jsvObjectGetChild (heap w') st S_VALUE = r
  /\ (is_undef (jsvObjectGetChild (heap w') svc K_SCTX) = false ->
      jsvObjectGetChild (heap w') st S_CTX
      = jsvObjectGetChild (heap w') svc K_SCTX).
Proof.
  intros Hf Hcl Hev Hrun Hr.
  destruct (service_send_spec host svc ev w r w' Hf Hcl Hev Hrun)
    as [(-> & _)|(name & -> & Hn & _ & H)]; [done|].
  cbn zeta in *. destruct H as (H1 & H2 & H3 & _). eauto 10.
Qed.

(** X16.  A [xfsm_service_send] that returns null has run no action and
    notified no listener, and has written no object of the store except,
    possibly, the [type] of the event it normalised: every call it made is
    the evaluation of the guard of an element of [on[event.type]], on the
    normalised event, and that guard refused; and the Service holds the
    state it held.  The elements are those of the source state the
    transition is computed from, in the store as the normalisation of the
    event leaves it. *)
Theorem service_send_no_transition host svc ev w w' :
  host_frame host ->
  closed (heap w) = true ->
  valid (heap w) ev = true ->
  xfsm_service_send host svc ev w = (JUndef, w') ->
  let m := jsvObjectGetChild (heap w) svc K_MACHINE in
  let e := fst (xfsm_normalize_event ev w) in
  let h1 := heap (snd (xfsm_normalize_event ev w)) in
  (forall x, x <> ev -> valid (heap w) x = true ->
     cell_of (heap w') x = cell_of (heap w) x)
  /\ (exists tr,
        calls w' = calls w ++ tr
        /\ forall c, In c tr ->
             exists p el,
               transition_prelude h1 m JUndef e = Some p
               /\ In el (cand_elems h1 (p_cands p))
               /\ rejected_by h1 (p_guardCtx p) e el c)
  /\ (svc <> ev -> valid (heap w) svc = true ->
      xfsm_service_get_state (heap w') svc
      = xfsm_service_get_state (heap w) svc).
Proof.
  intros Hf Hcl Hev Hrun m e h1.
  destruct (service_send_spec host svc ev w JUndef w' Hf Hcl Hev Hrun)
    as [(_ & Hc & Htr)|(name & [=] & _)].
  split; [done|]. split; [done|]. intros Hne Hv.
  unfold xfsm_service_get_state. destruct (is_undef svc); [done|].
  apply get_cell. by apply Hc.
Qed.

(** X28.  A [xfsm_service_send] that returns a value ends with the
    notification of the listeners: the last calls of the trace are the calls
    of the function-valued children of the listener table, each once and in
    table order, with the Service as [this] and the newly committed state as
    only argument.  The context of the Service is assumed not to be the
    Service itself. *)
Theorem service_send_notifies_listeners host svc ev w r w' :
  host_frame host ->
  closed (heap w) = true ->
  valid (heap w) ev = true ->
  jsvObjectGetChild (heap w) svc K_SCTX <> svc ->
  xfsm_service_send host svc ev w = (r, w') ->
  is_undef r = false ->
  exists mid tr,
    calls w' = calls w ++ mid ++ tr
    /\ map call_fn tr = listener_fns (heap w') svc
    /\ Forall (fun c => call_this c = svc
                        /\ call_args c
                           = [xfsm_service_get_state (heap w') svc]) tr.
Proof.
  intros Hf Hcl Hev Hself Hrun Hr.
  destruct (service_send_spec host svc ev w r w' Hf Hcl Hev Hrun)
    as [(-> & _)|(name & -> & Hn & _ & H)]; [done|].
  cbn zeta in H. destruct H as (_ & _ & _ & mid & tr & Hc & Hall & Hfns).
  exists mid, tr. split; [done|]. split; [by apply Hfns|done].
Qed.

(** *** Machine.transition with a string event *)

(** X29.  [xfsm_machine_transition], the form of the transition that takes
    the event as a string, writes nothing and calls only guards: the store
    is only extended; every call is the evaluation of the guard of an
    element of [on[event]] of the source state, and it hands the guard a new
    event object [{ type: event }], allocated first, never the string
    itself; and a state is returned only for a non-empty string event, as an
    object that did not exist before. *)
Theorem machine_transition_string_event host m sv e w st w' :
  host_frame host ->
  closed (heap w) = true ->
  valid (heap w) m = true ->
  valid (heap w) sv = true ->
  xfsm_machine_transition host m sv e w = (st, w') ->
  let ev := JRef (length (heap w)) in
  let h1 := heap w ++ [CObj [("type", e)]] in
  heap w `prefix_of` heap w'
  /\ (exists tr,
        calls w' = calls w ++ tr
        /\ (tr <> [] -> h1 `prefix_of` heap w')
        /\ forall c, In c tr ->
             exists p el,
               transition_prelude h1 m sv ev = Some p
               /\ In el (cand_elems h1 (p_cands p))
               /\ guard_call (p_guardCtx p) ev (cand_cond h1 el) c)
  /\ (is_undef st = false ->
      (exists s, e = JStr s /\ str_nonempty s = true)
      /\ valid (heap w) st = false).
Proof.
  intros Hf Hcl Hm Hsv Hrun ev0 h0. subst ev0 h0. revert Hrun.
  unfold xfsm_machine_transition.
  destruct (is_undef m || negb (jsvIsObject (heap w) m) || is_undef e
            || negb (jsvIsString e)) eqn:Eb.
  { intros [= <- <-]. split; [done|]. split; [|done].
    exists []. rewrite app_nil_r. split; [done|]. split; [done|].
    by intros c []. }
  assert (Hes : jsvIsString e = true).
  { apply orb_false_elim in Eb as [_ Eb]. by apply negb_false_iff in Eb. }
  destruct e as [| |b|z|s|f|r]; try done.
  cbn [jsvNewObject heap_alloc]. unfold set_child, with_heap. cbn [heap calls].
  rewrite set_fresh. cbn [assoc_set].
  set (h1 := heap w ++ [CObj [("type", JStr s)]]).
  set (ev := JRef (length (heap w))).
  assert (Hp1 : heap w `prefix_of` h1) by (by apply prefix_app_r).
  assert (Hcl1 : closed h1 = true).
  { apply closed_alloc; [done|]. cbn. by constructor. }
  assert (Hev : valid h1 ev = true).
  { subst h1 ev. unfold valid. rewrite length_app. cbn. apply Nat.ltb_lt. lia. }
  intros Ht.
  pose proof (transition_spec host h1 m sv ev (mkWorld h1 (calls w)) st w' Hf
                Hcl1 (reflexivity _) (valid_prefix _ _ _ Hp1 Hm)
                (valid_prefix _ _ _ Hp1 Hsv) Hev Ht) as Hts.
  destruct (transition_prelude h1 m sv ev) as [p|] eqn:Ep.
  2:{ destruct Hts as [-> ->]. cbn [heap calls]. split; [done|].
      split; [|done]. exists []. rewrite app_nil_r. split; [done|].
      split; [done|]. by intros c []. }
  assert (Hty : str_nonempty s = true).
  { destruct (str_nonempty s) eqn:E; [done|].
    rewrite transition_prelude_no_type in Ep; [done|].
    unfold event_type_ok. subst h1 ev. by rewrite alloc_get. }
  destruct Hts as (tr & o & w1' & Hc & Hp & Hfm & Ho). cbn [heap calls] in *.
  assert (Hg : forall c, In c tr ->
            exists p0 el,
              Some p = Some p0
              /\ In el (cand_elems h1 (p_cands p0))
              /\ guard_call (p_guardCtx p0) ev (cand_cond h1 el) c).
  { intros c Hin.
    destruct (FirstMatch_calls _ _ _ _ _ _ Hfm c Hin) as (el & Hel & _ & Hgc).
    by exists p, el. }
  assert (Hlen : length (heap w) <= length (heap w1')).
  { apply prefix_length in Hp. apply prefix_length in Hp1. lia. }
  destruct o as [el|].
  - destruct Ho as [-> ->]. cbn [heap calls]. split; [|split].
    + etrans; [exact Hp1|]. etrans; [exact Hp|]. by apply prefix_app_r.
    + exists tr. split; [done|]. split; [|done]. intros _.
      etrans; [exact Hp|]. by apply prefix_app_r.
    + intros _. split; [eauto|]. unfold valid. apply Nat.ltb_ge. lia.
  - destruct Ho as [-> ->]. split; [by etrans|]. split; [|done].
    exists tr. by split.
Qed.

(** *** The single-object FSM *)

Lemma getChildObj_set_key_ne o k v h x k' :
  k <> k' ->
  getChildObj (jsvObjectSetChild o k v h) x k' = getChildObj h x k'.
Proof.
  intros Hk. unfold getChildObj. by rewrite get_set_key_ne, isObject_set.
Qed.

Lemma start_chosen_string h fsm init :
  jsvIsString (start_chosen h fsm init) = true.
Proof.
  unfold start_chosen.
  destruct (negb (is_undef init) && jsvIsString init) eqn:E.
  { by apply andb_prop in E as [_ E]. }
  set (cfg0 := jsvObjectGetChild h fsm K_CFG).
  set (i := jsvObjectGetChild h cfg0 "initial").
  set (chosen := if negb (is_undef cfg0) && jsvIsObject h cfg0
                 then if negb (is_undef i) && jsvIsString i then i else JUndef
                 else JUndef).
  assert (H : chosen = JUndef \/ jsvIsString chosen = true).
  { subst chosen.
    destruct (negb (is_undef cfg0) && jsvIsObject h cfg0); [|by left].
    destruct (negb (is_undef i) && jsvIsString i) eqn:Ei; [|by left].
    right. by apply andb_prop in Ei as [_ ?]. }
  destruct H as [->|H]; [done|]. by destruct chosen.
Qed.

Lemma start_chosen_cases h fsm init :
  start_chosen h fsm init
  = (if jsvIsString init then init
     else if jsvIsString
               (jsvObjectGetChild h (jsvObjectGetChild h fsm K_CFG) "initial")
          then jsvObjectGetChild h (jsvObjectGetChild h fsm K_CFG) "initial"
          else JStr "idle").
Proof.
  unfold start_chosen.
  destruct (jsvIsString init) eqn:Ei.
  { by destruct init. }
  rewrite andb_false_r.
  set (cfg0 := jsvObjectGetChild h fsm K_CFG).
  destruct (jsvIsObject h cfg0) eqn:Eo.
  - replace (is_undef cfg0) with false by (by destruct cfg0). cbn [negb andb].
    set (i := jsvObjectGetChild h cfg0 "initial").
    destruct (jsvIsString i) eqn:Es; [by destruct i|].
    by rewrite andb_false_r.
  - rewrite andb_false_r. by rewrite get_not_object.
Qed.

Lemma status_object_get h fsm t :
  jsvObjectGetChild h fsm K_STATUS = JStr t ->
  xfsm_status_object h fsm
  = if String.eqb (str_from_jsv (JStr t) 16) "Running" then XFSM_STATUS_RUNNING
    else if String.eqb (str_from_jsv (JStr t) 16) "Stopped"
         then XFSM_STATUS_STOPPED else XFSM_STATUS_NOTSTARTED.
Proof.
  intros H. unfold xfsm_status_object. rewrite H.
  destruct (is_undef fsm) eqn:E; [|done].
  by destruct fsm.
Qed.

(** X17.  [xfsm_init_object] never overwrites a status: an object without
    one gets ["NotStarted"], any other object is left alone; initialising
    twice is initialising once; and the status [xfsm_status_object] reports
    is not changed by it. *)
Theorem init_object_keeps_status fsm w :
  jsvIsObject (heap w) fsm = true ->
  let w1 := xfsm_init_object fsm w in
  let old := jsvObjectGetChild (heap w) fsm K_STATUS in
  jsvObjectGetChild (heap w1) fsm K_STATUS
  = (if is_undef old then JStr "NotStarted" else old)
  /\ xfsm_init_object fsm w1 = w1
  /\ xfsm_status_object (heap w1) fsm = xfsm_status_object (heap w) fsm.
Proof.
  intros Ho. cbn zeta. unfold xfsm_init_object.
  assert (Eu : is_undef fsm = false) by (by destruct fsm).
  rewrite Eu.
  destruct (is_undef (jsvObjectGetChild (heap w) fsm K_STATUS)) eqn:E.
  - unfold set_status, set_child, with_heap. cbn [heap].
    rewrite get_set_eq by done. cbn [is_undef]. split; [done|]. split; [done|].
    rewrite (status_object_get _ _ "NotStarted") by (by apply get_set_eq).
    unfold xfsm_status_object. by rewrite Eu, E.
  - by rewrite E.
Qed.

(** X18.  After [xfsm_stop_object] an FSM object reports the status
    stopped, and its current state is the one it had. *)
Theorem stop_object_status fsm w :
  jsvIsObject (heap w) fsm = true ->
  let w1 := xfsm_stop_object fsm w in
  xfsm_status_object (heap w1) fsm = XFSM_STATUS_STOPPED
  /\ xfsm_current_state_var (heap w1) fsm
     = xfsm_current_state_var (heap w) fsm.
Proof.
  intros Ho. cbn zeta. unfold xfsm_stop_object.
  replace (is_undef fsm) with false by (by destruct fsm).
  unfold set_status, set_child, with_heap. cbn [heap]. split.
  - by rewrite (status_object_get _ _ "Stopped") by (by apply get_set_eq).
  - unfold xfsm_current_state_var. by rewrite get_set_key_ne.
Qed.

(** X19.  Started on an object, [xfsm_start_object] returns the status
    running; the FSM then reports that status, and its current state is the
    argument when that is a string, else [config.initial] when that is a
    string, else ["idle"].  The host is assumed only to allocate, and the
    context of the configuration is not the FSM object itself. *)
Theorem start_object_state host fsm init w s w' :
  host_frame host ->
  jsvIsObject (heap w) fsm = true ->
  jsvObjectGetChild (heap w) (getChildObj (heap w) fsm K_CFG) K_CONTEXT
  <> fsm ->
  xfsm_start_object host fsm init w = (s, w') ->
  let initial :=
    jsvObjectGetChild (heap w) (jsvObjectGetChild (heap w) fsm K_CFG)
      "initial" in
  s = XFSM_STATUS_RUNNING
  /\ xfsm_status_object (heap w') fsm = XFSM_STATUS_RUNNING
  /\ xfsm_current_state_var (heap w') fsm
     = (if jsvIsString init then init
        else if jsvIsString initial then initial
        else JStr "idle").
Proof.
  intros Hf Ho Hctx Hrun initial. subst initial.
  rewrite <- start_chosen_cases. revert Hrun. unfold xfsm_start_object.
  assert (Eu : is_undef fsm = false) by (by destruct fsm).
  rewrite Eu. unfold set_status.
  set (chosen := start_chosen (heap w) fsm init).
  set (w2 := set_child fsm K_STATUS (JStr "Running")
               (set_child fsm K_STATE chosen w)).
  assert (Ho2 : jsvIsObject (heap w2) fsm = true).
  { subst w2. unfold set_child, with_heap. cbn [heap].
    by rewrite !isObject_set. }
  assert (Hcfg : getChildObj (heap w2) fsm K_CFG = getChildObj (heap w) fsm K_CFG).
  { subst w2. unfold set_child, with_heap. cbn [heap].
    by rewrite !getChildObj_set_key_ne. }
  rewrite Hcfg. set (cfg := getChildObj (heap w) fsm K_CFG) in *.
  assert (Hcx : jsvObjectGetChild (heap w2) cfg K_CONTEXT
                = jsvObjectGetChild (heap w) cfg K_CONTEXT).
  { subst w2. unfold set_child, with_heap. cbn [heap].
    by rewrite !get_set_key_ne. }
  set (ctx := if is_undef cfg then JUndef
              else jsvObjectGetChild (heap w2) cfg K_CONTEXT).
  assert (Hne : fsm <> ctx).
  { subst ctx. destruct (is_undef cfg); [by destruct fsm|].
    rewrite Hcx. by intros E; apply Hctx. }
  assert (Hst2 : jsvObjectGetChild (heap w2) fsm K_STATE = chosen
                 /\ jsvObjectGetChild (heap w2) fsm K_STATUS = JStr "Running").
  { subst w2. unfold set_child, with_heap. cbn [heap]. split.
    - rewrite get_set_key_ne by done. by apply get_set_eq.
    - apply get_set_eq. by rewrite isObject_set. }
  destruct Hst2 as [Hs2 Hr2].
  match goal with
  | |- context [run_actions_raw host fsm ctx ?a ?e ?f ?t w2] =>
      pose proof (run_actions_raw_frame host fsm ctx a e f t w2 Hf) as Hfr;
      destruct (run_actions_raw host fsm ctx a e f t w2) as [ctx1 w3]
  end.
  cbn [fst snd] in Hfr. destruct Hfr as (_ & _ & Hcells).
  assert (Hc3 : cell_of (heap w3) fsm = cell_of (heap w2) fsm).
  { apply Hcells; [by apply isObject_valid|done]. }
  set (w4 := if is_undef cfg then w3
             else if is_undef ctx1 then w3 else set_child cfg K_CONTEXT ctx1 w3).
  intros [= <- <-]. split; [done|].
  assert (H4 : forall k, k <> K_CONTEXT ->
             jsvObjectGetChild (heap w4) fsm k
             = jsvObjectGetChild (heap w2) fsm k).
  { intros k Hk. subst w4.
    destruct (is_undef cfg); [by apply get_cell|].
    destruct (is_undef ctx1); [by apply get_cell|].
    unfold set_child, with_heap. cbn [heap].
    rewrite get_set_key_ne by (by intros E; rewrite E in Hk).
    by apply get_cell. }
  split.
  - rewrite (status_object_get _ _ "Running"); [done|].
    by rewrite H4.
  - unfold xfsm_current_state_var. rewrite Eu, H4, Hs2 by done.
    pose proof (start_chosen_string (heap w) fsm init) as Hstr.
    fold chosen in Hstr. by destruct chosen.
Qed.

Lemma resolveFunc_is_function h root owner item :
  is_undef (resolveFunc h root owner item) = false ->
  jsvIsFunction (resolveFunc h root owner item) = true.
Proof.
  intros H. destruct (resolveFunc_cases h root owner item) as ([E|E] & _);
    [|done].
  by rewrite E in H.
Qed.

(** The guard of [xfsm_send_object]: either no function is called and the
    transition proceeds, or the function the [cond] resolves to is called
    once, with a null [this], on the context, the event and a third
    argument, and its result decides. *)
Lemma send_guard_spec host root fsm ev p w :
  host_frame host ->
  let fn := resolveFunc (heap w) root fsm
              (jsvObjectGetChild (heap w) (sp_trans p) K_COND) in
  let r := send_guard host root fsm ev p w in
  heap w `prefix_of` heap (snd r)
  /\ ((r = (true, w)
       /\ (jsvIsObject (heap w) (sp_trans p) = false \/ is_undef fn = true))
      \/ (jsvIsObject (heap w) (sp_trans p) = true /\ is_undef fn = false
          /\ exists c,
               calls (snd r) = calls w ++ [c]
               /\ call_fn c = fn /\ call_this c = JNull
               /\ (exists ctxg meta, call_args c = [ctxg; JStr ev; meta])
               /\ fst r = jsvGetBool (call_res c))).
Proof.
  intros Hf. cbn zeta. unfold send_guard.
  destruct (jsvIsObject (heap w) (sp_trans p)) eqn:Ho;
    [|split; [done|left; split; [done|by left]]].
  set (cond := jsvObjectGetChild (heap w) (sp_trans p) K_COND).
  destruct (is_undef cond) eqn:Ec.
  { split; [done|]. left. split; [done|]. right. by destruct cond. }
  pose proof (resolveFunc_is_function (heap w) root fsm cond) as Hfn.
  set (fn := resolveFunc (heap w) root fsm cond) in *.
  destruct (is_undef fn) eqn:Efn.
  { split; [done|]. left. split; [done|by right]. }
  specialize (Hfn eq_refl).
  set (ctxg0 := jsvObjectGetChild (heap w) (sp_cfg p) K_CONTEXT).
  set (r1 := if is_undef ctxg0 || negb (jsvIsObject (heap w) ctxg0)
             then jsvNewObject w else (ctxg0, w)).
  assert (H1 : heap w `prefix_of` heap (snd r1) /\ calls (snd r1) = calls w).
  { subst r1. destruct (is_undef ctxg0 || negb (jsvIsObject (heap w) ctxg0));
      cbn; [|done]. split; [by apply prefix_app_r|done]. }
  destruct r1 as [ctxg w1]. cbn [snd] in H1. destruct H1 as [Hp1 Hc1].
  cbn [jsvNewObject heap_alloc].
  set (meta := JRef (length (heap w1))).
  set (w3 := if str_nonempty (sp_from p)
             then set_child meta "state" (JStr (sp_from p))
                    (mkWorld (heap w1 ++ [CObj []]) (calls w1))
             else mkWorld (heap w1 ++ [CObj []]) (calls w1)).
  assert (H3 : heap w1 `prefix_of` heap w3 /\ calls w3 = calls w1).
  { subst w3 meta. destruct (str_nonempty (sp_from p)); cbn.
    - rewrite set_fresh. split; [by apply prefix_app_r|done].
    - split; [by apply prefix_app_r|done]. }
  destruct H3 as [Hp3 Hc3].
  unfold xfsm_callJsFunction.
  replace (is_undef fn || negb (jsvIsFunction fn)) with false
    by (by rewrite Efn, Hfn).
  cbn [is_undef]. unfold jspExecuteFunction.
  pose proof (Hf fn JNull [ctxg; JStr ev; meta] (heap w3)) as Hp4.
  destruct (host_exec host fn JNull [ctxg; JStr ev; meta] (heap w3))
    as [res h4].
  cbn [snd fst heap calls] in *. split.
  { etrans; [exact Hp1|]. etrans; [exact Hp3|]. exact Hp4. }
  right. split; [done|]. split; [done|].
  exists (mkCall fn JNull [ctxg; JStr ev; meta] res).
  rewrite Hc3, Hc1. split; [done|]. split; [done|]. split; [done|].
  split; [eauto|]. cbn. by destruct res.
Qed.

(** X20.  For a transition whose [cond] resolves to a function, by name or
    directly, [xfsm_send_object] calls that function exactly once before
    anything else, with a null [this], on the context, the event and a third
    argument; a falsy result ends the send with a null result, and a truthy
    one lets the transition proceed. *)
Theorem send_object_evaluates_guard host root fsm ev w p :
  host_frame host ->
  send_prelude (heap w) fsm ev = Some p ->
  jsvIsObject (heap w) (sp_trans p) = true ->
  let fn := resolveFunc (heap w) root fsm
              (jsvObjectGetChild (heap w) (sp_trans p) K_COND) in
  is_undef fn = false ->
  exists c w1,
    calls w1 = calls w ++ [c]
    /\ call_fn c = fn /\ call_this c = JNull
    /\ (exists ctxg meta, call_args c = [ctxg; JStr ev; meta])
    /\ xfsm_send_object host root fsm ev w
       = if jsvGetBool (call_res c) then send_commit host fsm ev p w1
         else (JUndef, w1).
Proof.
  intros Hf Hp Ho fn Hfn. unfold xfsm_send_object. rewrite Hp.
  destruct (send_guard_spec host root fsm ev p w Hf)
    as (_ & [(_ & [H|H])|(_ & _ & c & Hc & Hcf & Hct & Ha & Hr)]).
  - by rewrite Ho in H.
  - fold fn in H. by rewrite Hfn in H.
  - destruct (send_guard host root fsm ev p w) as [pass w1].
    cbn [fst snd] in *. exists c, w1. subst pass. by repeat split.
Qed.

(** The call [send_guard] makes, if it makes one: the evaluation of the
    guard of the transition. *)
Lemma send_guard_pinned host root fsm ev p w :
  let r := send_guard host root fsm ev p w in
  calls (snd r) = calls w
  \/ exists c, calls (snd r) = calls w ++ [c]
               /\ send_guard_call (heap w) root fsm ev p c.
Proof.
  cbn zeta. unfold send_guard.
  destruct (jsvIsObject (heap w) (sp_trans p)) eqn:Ho; [|by left].
  set (cond := jsvObjectGetChild (heap w) (sp_trans p) K_COND).
  destruct (is_undef cond) eqn:Ec; [by left|].
  pose proof (resolveFunc_is_function (heap w) root fsm cond) as Hfn.
  set (fn := resolveFunc (heap w) root fsm cond) in *.
  destruct (is_undef fn) eqn:Efn; [by left|].
  specialize (Hfn eq_refl).
  set (ctxg0 := jsvObjectGetChild (heap w) (sp_cfg p) K_CONTEXT).
  set (r1 := if is_undef ctxg0 || negb (jsvIsObject (heap w) ctxg0)
             then jsvNewObject w else (ctxg0, w)).
  assert (H1 : calls (snd r1) = calls w
               /\ length (heap w) <= length (heap (snd r1))
               /\ fst r1 <> JRef (length (heap (snd r1)))
               /\ if jsvIsObject (heap w) ctxg0 then fst r1 = ctxg0
                  else valid (heap w) (fst r1) = false).
  { subst r1. destruct (jsvIsObject (heap w) ctxg0) eqn:Eo.
    - replace (is_undef ctxg0) with false by (by destruct ctxg0).
      cbn. split; [done|]. split; [done|]. split; [|done].
      apply isObject_valid in Eo. intros E. rewrite E in Eo.
      by rewrite valid_fresh in Eo.
    - rewrite orb_true_r. cbn. rewrite length_app. cbn.
      split; [done|]. split; [lia|]. split; [intros [= E]; lia|].
      apply Nat.ltb_irrefl. }
  destruct r1 as [ctxg w1]. cbn [fst snd] in H1.
  destruct H1 as (Hc1 & Hl1 & Hne & Hctxg).
  cbn [jsvNewObject heap_alloc].
  set (meta := JRef (length (heap w1))) in *.
  set (w3 := if str_nonempty (sp_from p)
             then set_child meta "state" (JStr (sp_from p))
                    (mkWorld (heap w1 ++ [CObj []]) (calls w1))
             else mkWorld (heap w1 ++ [CObj []]) (calls w1)).
  assert (Hc3 : calls w3 = calls w1).
  { subst w3. by destruct (str_nonempty (sp_from p)). }
  unfold xfsm_callJsFunction.
  replace (is_undef fn || negb (jsvIsFunction fn)) with false
    by (by rewrite Efn, Hfn).
  cbn [is_undef]. unfold jspExecuteFunction.
  destruct (host_exec host fn JNull [ctxg; JStr ev; meta] (heap w3))
    as [res h4].
  cbn [snd fst heap calls]. right.
  exists (mkCall fn JNull [ctxg; JStr ev; meta] res).
  rewrite Hc3, Hc1. split; [done|].
  unfold send_guard_call. cbn [call_fn call_this call_args].
  split; [done|]. split; [done|]. split; [done|]. split; [done|].
  exists ctxg, meta. split; [done|]. split; [exact Hctxg|]. split.
  - subst meta. unfold valid. apply Nat.ltb_ge. lia.
  - by intros E.
Qed.

(** X21.  A [xfsm_send_object] that returns null has run no action and has
    written no object of the store: the store is only extended, and at most
    one function was called, the guard of the transition for the event: the
    function its [cond] resolves to, with a null [this], on the context of
    the configuration, the event and a new object. *)
Theorem send_object_failure_frame host root fsm ev w w' :
  host_frame host ->
  xfsm_send_object host root fsm ev w = (JUndef, w') ->
  heap w `prefix_of` heap w'
  /\ (calls w' = calls w
      \/ exists p c,
           send_prelude (heap w) fsm ev = Some p
           /\ calls w' = calls w ++ [c]
           /\ send_guard_call (heap w) root fsm ev p c)
  /\ xfsm_current_state_var (heap w') fsm = xfsm_current_state_var (heap w) fsm.
Proof.
  intros Hf. unfold xfsm_send_object.
  destruct (send_prelude (heap w) fsm ev) as [p|] eqn:Ep.
  2:{ intros [= <-]. split; [done|]. split; [by left|done]. }
  assert (Hv : valid (heap w) fsm = true).
  { unfold send_prelude in Ep.
    destruct (is_undef fsm || negb (jsvIsObject (heap w) fsm)) eqn:E; [done|].
    apply jsvIsObject_not in E. by apply isObject_valid. }
  pose proof (send_guard_spec host root fsm ev p w Hf) as Hg. cbn zeta in Hg.
  pose proof (send_guard_pinned host root fsm ev p w) as Hpin.
  cbn zeta in Hpin.
  destruct (send_guard host root fsm ev p w) as [pass w1].
  cbn [fst snd] in Hg, Hpin. destruct Hg as [Hp _].
  assert (Hc1 : calls w1 = calls w
                \/ exists p0 c,
                     Some p = Some p0
                     /\ calls w1 = calls w ++ [c]
                     /\ send_guard_call (heap w) root fsm ev p0 c).
  { destruct Hpin as [H|(c & Hc & Hg)]; [by left|right].
    by exists p, c. }
  assert (Hcur : xfsm_current_state_var (heap w1) fsm
                 = xfsm_current_state_var (heap w) fsm).
  { unfold xfsm_current_state_var. by rewrite (get_prefix (heap w)). }
  destruct pass.
  2:{ intros [= <-]. by split; [|split]. }
  unfold send_commit.
  destruct (negb (str_nonempty (send_target (heap w1) (sp_trans p)))).
  { intros [= <-]. by split; [|split]. }
  repeat match goal with
  | |- context [run_actions_raw ?a ?b ?c ?d ?e ?f ?g ?x] =>
      destruct (run_actions_raw a b c d e f g x)
  end.
  done.
Qed.


(** *** The unsubscribe factory *)

(** X23.  The static factory variable holds null or a function after
    [xfsm_ensure_unsub_factory]; a function already there is kept, without
    evaluating the source again; and ensuring twice is ensuring once. *)
Theorem ensure_unsub_factory_cache host f :
  let f1 := xfsm_ensure_unsub_factory host f in
  (f1 = JUndef \/ jsvIsFunction f1 = true)
  /\ (jsvIsFunction f = true -> f1 = f)
  /\ xfsm_ensure_unsub_factory host f1 = f1.
Proof.
  cbn zeta. unfold xfsm_ensure_unsub_factory.
  destruct (negb (is_undef f) && jsvIsFunction f) eqn:E.
  - apply andb_prop in E as [_ E]. rewrite E.
    replace (is_undef f) with false by (by destruct f). cbn.
    split; [by right|done].
  - assert (Hf : jsvIsFunction f = false).
    { destruct f; try done. }
    destruct (negb (is_undef (jspEvaluateVar host unsub_src))
              && jsvIsFunction (jspEvaluateVar host unsub_src)) eqn:E2.
    + apply andb_prop in E2 as [_ E2].
      split; [by right|]. split; [by rewrite Hf|].
      by destruct (negb (is_undef (jspEvaluateVar host unsub_src))
                   && jsvIsFunction (jspEvaluateVar host unsub_src)).
    + cbn. split; [by left|]. split; [by rewrite Hf|done].
Qed.

(** X24.  [xfsm_make_unsubscribe] always returns a function: what the
    factory returns for the Service and the listener id when that is a
    function, and the native function that does nothing otherwise; without a
    factory nothing is called. *)
Theorem make_unsubscribe_returns_function host native factory svc id w :
  jsvIsFunction native = true ->
  let r := xfsm_make_unsubscribe host native factory svc id w in
  jsvIsFunction (fst r) = true
  /\ (if jsvIsFunction factory then
        exists res,
          calls (snd r)
          = calls w ++ [mkCall factory JUndef [svc; JInt id] res]
          /\ fst r = if jsvIsFunction res then res else native
      else r = (native, w)).
Proof.
  intros Hn. cbn zeta. unfold xfsm_make_unsubscribe.
  destruct (jsvIsFunction factory) eqn:Ef.
  - replace (is_undef factory) with false by (by destruct factory).
    cbn [negb andb]. unfold jspExecuteFunction.
    destruct (host_exec host factory JUndef [svc; JInt id] (heap w))
      as [res h1].
    destruct (jsvIsFunction res) eqn:Er.
    + replace (is_undef res) with false by (by destruct res).
      cbn. split; [done|]. exists res. by rewrite Er.
    + rewrite andb_false_r. cbn. split; [done|]. exists res. by rewrite Er.
  - rewrite andb_false_r. by cbn.
Qed.

(** *** The action pipeline: named actions *)

Lemma run_actions_loop_names host svc actsMap acts ev ctx w :
  Forall (fun x => match x with
                   | JStr s =>
                       jsvIsFunction
                         (jsvObjectGetChild (heap w) actsMap (jsvGetString s 31))
                       = false
                   | _ => False
                   end) (arr_items (heap w) acts) ->
  forall n i,
    run_actions_loop host svc actsMap acts ev i n ctx w = (ctx, w).
Proof.
  intros Hall. induction n as [|n IH]; intros i; cbn [run_actions_loop];
    [done|].
  unfold jsvGetArrayItem.
  destruct (arr_items (heap w) acts !! i) as [x|] eqn:Hx; [|by apply IH].
  pose proof (Forall_lookup_1 _ _ i x Hall Hx) as Hn. cbn in Hn.
  destruct x as [| |b|z|s|f|r]; try done.
  cbn [is_undef]. unfold run_action_item.
  cbn [jsvIsFunction jsvIsString].
  replace (jsvIsObject (heap w) (JStr s)) with false by done.
  cbn [andb].
  destruct (negb (is_undef actsMap) && jsvIsObject (heap w) actsMap);
    [|by apply IH].
  rewrite Hn, andb_false_r. by apply IH.
Qed.

(** X26.  A string in an action list names an action of the named-actions
    table, through a 32-byte buffer.  When no item of the list names a
    function of the table, the run does nothing at all: no call, no write,
    and the context is the one it was given. *)
Theorem run_actions_unknown_names_skipped host svc ctx acts ev fN tN w :
  Forall (fun x => match x with
                   | JStr s =>
                       jsvIsFunction
                         (jsvObjectGetChild (heap w)
                            (resolve_actions_map (heap w) svc)
                            (jsvGetString s 31))
                       = false
                   | _ => False
                   end) (arr_items (heap w) acts) ->
  run_actions_raw host svc ctx acts ev fN tN w = (ctx, w).
Proof.
  intros Hall. unfold run_actions_raw.
  destruct (is_undef acts || negb (jsvIsArray (heap w) acts)); [done|].
  by apply run_actions_loop_names.
Qed.

(** X27.  [xfsm_service_start] runs the entry actions of the initial state
    only when [entry] is an array.  When it is anything else, a single
    function for instance, starting the Service calls no action: after the
    initial state has been computed, the only calls are the notifications of
    the listeners, on the committed state, and the context of the Service is
    the one it had. *)
Theorem service_start_skips_single_entry host svc w r w' :
  host_frame host ->
  closed (heap w) = true ->
  status_is (heap w) svc "Running" = false ->
  xfsm_service_start host svc w = (r, w') ->
  is_undef r = false ->
  let m := jsvObjectGetChild (heap w) svc K_MACHINE in
  let cfg := jsvObjectGetChild (heap w) m K_CFG in
  let node := jsvObjectGetChild (heap w) (jsvObjectGetChild (heap w) cfg K_STATES)
                (str_from_jsv (jsvObjectGetChild (heap w) cfg "initial") 64) in
  jsvIsArray (heap w) (jsvObjectGetChild (heap w) node K_ENTRY) = false ->
  exists tr,
    calls w' = calls (snd (xfsm_machine_initial_state host m w)) ++ tr
    /\ Forall (fun c => call_this c = svc
                        /\ call_args c = [xfsm_service_get_state (heap w') svc])
         tr
    /\ jsvObjectGetChild (heap w') svc K_SCTX
       = jsvObjectGetChild (heap w) svc K_SCTX.
Proof.
  intros Hf Hcl Hnr Hrun Hr. cbn zeta. intros Hna. revert Hrun.
  unfold xfsm_service_start. rewrite Hnr.
  destruct (is_undef svc || negb (jsvIsObject (heap w) svc)) eqn:Es.
  { intros [= <- <-]. done. }
  apply jsvIsObject_not in Es.
  assert (Eu : is_undef svc = false) by (by destruct svc).
  set (m := jsvObjectGetChild (heap w) svc K_MACHINE) in *.
  destruct (is_undef m). { intros [= <- <-]. done. }
  destruct (xfsm_machine_initial_state host m w) as [st w1] eqn:Ei.
  destruct (initial_state_spec host m w st w1 Hf Ei)
    as (wv & Hp & _ & [[-> ->]|(ctx0 & acts0 & Hval & _ & _ & Hacts & -> & ->)]).
  { intros [= <- <-]. done. }
  cbn [is_undef jsvNewObject heap_alloc heap calls snd].
  set (cfg := jsvObjectGetChild (heap w) m K_CFG) in *.
  assert (Hg : forall x k, valid (heap w) x = true ->
             jsvObjectGetChild (heap wv) x k = jsvObjectGetChild (heap w) x k).
  { intros x k Hx. by apply get_prefix. }
  assert (Hvcfg : valid (heap w) cfg = true) by (by apply get_valid).
  cbn zeta in Hacts.
  rewrite !(Hg cfg) in Hacts by done. rewrite !(Hg cfg) in Hval by done.
  rewrite !(Hg cfg) by done.
  set (value := str_from_jsv (jsvObjectGetChild (heap w) cfg "initial") 64) in *.
  rewrite !(Hg (jsvObjectGetChild (heap w) cfg K_STATES)) in Hacts
    by (by apply get_valid).
  set (node := jsvObjectGetChild (heap w)
                 (jsvObjectGetChild (heap w) cfg K_STATES) value) in *.
  rewrite (Hg node) in Hacts by (by apply get_valid).
  rewrite (isObject_prefix (heap w) (heap wv) Hp) in Hacts
    by (by apply get_valid).
  set (fields := state_fields host value ctx0 acts0 false).
  set (h1 := heap wv ++ [CObj fields]).
  set (st := JRef (length (heap wv))).
  set (w3 := set_child (JRef (length h1)) "type" (JStr "xstate.init")
               (mkWorld (h1 ++ [CObj []]) (calls wv))).
  assert (Hw3 : heap w3 = h1 ++ [CObj [("type", JStr "xstate.init")]]
                /\ calls w3 = calls wv).
  { subst w3. unfold set_child, with_heap. cbn [heap calls].
    by rewrite set_fresh. }
  destruct Hw3 as [Hh3 Hc3].
  assert (Hp3 : heap w `prefix_of` heap w3).
  { rewrite Hh3. subst h1. etrans; [done|].
    etrans; by apply prefix_app_r. }
  assert (Hsv : valid (heap w) svc = true) by (by apply isObject_valid).
  assert (Hlen : length (heap w) <= length (heap wv))
    by (by apply prefix_length).
  assert (Hne : st <> svc).
  { intros E. symmetry in E. revert E. by apply (valid_lt (heap w)). }
  assert (Hst1 : jsvObjectGetChild h1 st S_ACTS = acts0).
  { subst h1 st. rewrite alloc_get. subst fields.
    by rewrite state_fields_acts. }
  rewrite Hst1.
  assert (Hskip : is_undef acts0 || negb (jsvIsArray (heap w3) acts0) = true).
  { rewrite Hacts. cbn zeta.
    destruct (negb (is_undef node) && jsvIsObject (heap w) node); [|done].
    rewrite (isArray_prefix (heap w) (heap w3) Hp3) by (by apply get_valid).
    rewrite Hna. by rewrite orb_true_r. }
  unfold run_actions_raw. rewrite Hskip.
  set (ctx := jsvObjectGetChild h1 svc K_SCTX).
  assert (Hctx : ctx = jsvObjectGetChild (heap w) svc K_SCTX).
  { subst ctx h1. rewrite get_alloc by (by apply (valid_prefix (heap w))).
    by apply Hg. }
  assert (Hv1 : valid h1 svc = true).
  { apply (valid_prefix (heap w)); [|done]. unfold h1.
    etrans; [exact Hp|]. apply prefix_app_r. reflexivity. }
  assert (Hc3x : jsvObjectGetChild (heap w3) svc K_SCTX = ctx).
  { rewrite Hh3. by rewrite get_alloc. }
  assert (Ho3 : jsvIsObject (heap w3) svc = true)
    by (by apply (isObject_frame (heap w))).
  set (w5 := persist_context svc st ctx w3).
  assert (H5 : jsvIsObject (heap w5) svc = true
               /\ jsvObjectGetChild (heap w5) svc K_SCTX = ctx
               /\ calls w5 = calls wv).
  { subst w5. unfold persist_context, set_child, with_heap.
    destruct (is_undef ctx) eqn:Ec; cbn [heap calls]; [done|].
    rewrite !isObject_set. split; [done|]. split; [|done].
    rewrite get_set_other by (by intros E; symmetry in E).
    by apply get_set_eq. }
  destruct H5 as (Ho5 & Hx5 & Hc5).
  set (w7 := set_child svc K_SSTATUS (JStr "Running")
               (set_child svc K_SSTATE st w5)).
  assert (H7 : jsvObjectGetChild (heap w7) svc K_SSTATE = st
               /\ jsvObjectGetChild (heap w7) svc K_SCTX = ctx
               /\ valid (heap w7) svc = true /\ calls w7 = calls wv).
  { subst w7. unfold set_child, with_heap. cbn [heap calls].
    split; [rewrite get_set_key_ne by done; by apply get_set_eq|].
    split; [by rewrite !get_set_key_ne|]. split; [|done].
    apply isObject_valid. by rewrite !isObject_set. }
  destruct H7 as (Hs7 & Hx7 & Hv7 & Hc7).
  intros [= <- <-].
  pose proof (notify_listeners_frame host svc w7 Hf) as Hp7.
  destruct (notify_listeners_trace host svc w7) as (tr & Htr & _ & Hall).
  exists tr. split; [by rewrite Htr, Hc7|]. split.
  - unfold xfsm_service_get_state. rewrite Eu.
    rewrite (get_prefix (heap w7)) by done. rewrite Hs7.
    eapply Forall_impl; [exact Hall|]. intros c [H1 H2].
    split; [done|]. by rewrite H2, Hs7.
  - rewrite (get_prefix (heap w7)) by done. by rewrite Hx7.
Qed.

(** ** The further properties on the example programs *)

(** X6, witness: the list [[{n:1}, f6]] run for the Service of the
    pipeline example. *)
Lemma run_actions_writes_only_context_witness :
  let r := run_actions_raw demo_host (JRef 0) (JRef 3) (JRef 7) (JRef 10)
             "" "" pipe_world in
  (fst r = JRef 3 \/ valid (heap pipe_world) (fst r) = false)
  /\ forall x, valid (heap pipe_world) x = true -> x <> JRef 3 ->
       cell_of (heap (snd r)) x = cell_of (heap pipe_world) x.
Proof.
  intros r.
  exact (run_actions_writes_only_context demo_host (JRef 0) (JRef 3) (JRef 7)
           (JRef 10) "" "" pipe_world (fst r) (snd r) demo_host_frame
           (surjective_pairing r)).
Defined.

(** X7, witness: the assignment [{n:1}] with no context to start with. *)
Lemma apply_assignment_ensures_context_witness :
  let r := apply_assignment demo_host (JRef 0) JUndef (JRef 8) (JRef 10)
             pipe_world in
  jsvIsObject (heap (snd r)) (fst r) = true
  /\ fst r = (if jsvIsObject (heap pipe_world) JUndef then JUndef
              else JRef (length (heap pipe_world))).
Proof.
  exact (apply_assignment_ensures_context demo_host (JRef 0) JUndef (JRef 8)
           (JRef 10) pipe_world demo_host_frame).
Defined.

(** X8, witness: the exit list [[f0]] of the machine with guards. *)
Lemma run_actions_functions_in_order_witness :
  let r := run_actions_raw demo_host (JRef 0) (JRef 2) (JRef 9) (JRef 20)
             "" "" guard_world in
  fst r = JRef 2
  /\ exists tr,
       calls (snd r) = calls guard_world ++ tr
       /\ map call_fn tr = arr_items (heap guard_world) (JRef 9)
       /\ Forall (fun c => call_this c = JRef 0
                           /\ call_args c = [JRef 2; JRef 20]) tr.
Proof.
  apply (run_actions_functions_in_order demo_host (JRef 0) (JRef 2) (JRef 9)
           (JRef 20) "" "" guard_world demo_host_frame eq_refl);
    [|reflexivity|reflexivity].
  vm_compute. repeat constructor.
Defined.

(** X9, witness: the initial state of the traffic light. *)
Lemma initial_state_is_pure_witness :
  let w := mkWorld traffic_heap [] in
  let r := xfsm_machine_initial_state demo_host traffic_machine w in
  heap w `prefix_of` heap (snd r)
  /\ (calls (snd r) = calls w
      \/ exists res,
           calls (snd r)
           = calls w ++ [mkCall (jspEvaluateVar demo_host validate_src) JUndef
                           [jsvObjectGetChild (heap w) traffic_machine K_CFG]
                           res])
  /\ (is_undef (fst r) = false ->
      valid (heap w) (fst r) = false /\ jsvIsObject (heap (snd r)) (fst r) = true).
Proof.
  intros w r.
  exact (initial_state_is_pure demo_host traffic_machine w (fst r) (snd r)
           demo_host_frame (surjective_pairing r)).
Defined.

(** X11, witness: the traffic-light Service bound to its machine. *)
Lemma service_init_binds_witness :
  let w := mkWorld traffic_heap [] in
  let w' := xfsm_service_init demo_host traffic_service traffic_machine w in
  let ctx := jsvObjectGetChild (heap w)
               (jsvObjectGetChild (heap w) traffic_machine K_CFG) K_CONTEXT in
  xfsm_service_get_status (heap w') traffic_service = JStr "NotStarted"
  /\ xfsm_service_get_status_num (heap w') traffic_service = 0%Z
  /\ jsvObjectGetChild (heap w') traffic_service K_MACHINE = traffic_machine
  /\ (is_undef ctx = false ->
      jsvObjectGetChild (heap w') traffic_service K_SCTX = ctx).
Proof.
  exact (service_init_binds demo_host traffic_service traffic_machine
           (mkWorld traffic_heap []) demo_host_frame eq_refl eq_refl).
Defined.

(** X12, witness: the traffic-light Service, started and then stopped. *)
Lemma service_stop_then_send_witness :
  let w1 := snd (xfsm_service_stop traffic_service traffic_started) in
  (forall ev, xfsm_service_send demo_host traffic_service ev w1 = (JUndef, w1))
  /\ listener_fns (heap w1) traffic_service = []
  /\ xfsm_service_get_status_num (heap w1) traffic_service = 2%Z
  /\ xfsm_service_get_state (heap w1) traffic_service
     = xfsm_service_get_state (heap traffic_started) traffic_service
  /\ jsvObjectGetChild (heap w1) traffic_service K_SCTX
     = jsvObjectGetChild (heap traffic_started) traffic_service K_SCTX.
Proof.
  exact (service_stop_then_send demo_host traffic_service traffic_started
           eq_refl).
Defined.

(** X13, witness: the traffic-light Service started once, then again. *)
Lemma service_start_idempotent_witness :
  let r := xfsm_service_start demo_host traffic_service traffic_bound in
  fst r = traffic_service
  /\ xfsm_service_get_status_num (heap (snd r)) traffic_service = 1%Z
  /\ xfsm_service_start demo_host traffic_service (snd r)
     = (traffic_service, snd r).
Proof.
  intros r.
  exact (service_start_idempotent demo_host traffic_service traffic_bound
           (fst r) (snd r) demo_host_frame (surjective_pairing r) eq_refl).
Defined.

(** X14, witness: the state the traffic-light Service commits when it
    starts. *)
Lemma service_start_commits_witness :
  let w := traffic_bound in
  let r := xfsm_service_start demo_host traffic_service w in
  let cfg := jsvObjectGetChild (heap w)
               (jsvObjectGetChild (heap w) traffic_service K_MACHINE) K_CFG in
  let st := xfsm_service_get_state (heap (snd r)) traffic_service in
  valid (heap w) st = false
  /\ jsvObjectGetChild (heap (snd r)) st S_VALUE
     = JStr (str_from_jsv (jsvObjectGetChild (heap w) cfg "initial") 64)
  /\ jsvObjectGetChild (heap (snd r)) st "changed" = JBool false
  /\ (is_undef (jsvObjectGetChild (heap (snd r)) traffic_service K_SCTX) = false ->
      jsvObjectGetChild (heap (snd r)) st S_CTX
      = jsvObjectGetChild (heap (snd r)) traffic_service K_SCTX).
Proof.
  intros w r.
  exact (service_start_commits demo_host traffic_service w (fst r) (snd r)
           demo_host_frame eq_refl eq_refl (surjective_pairing r) eq_refl).
Defined.

(** X15, witness: the first ["NEXT"] sent to the traffic-light Service. *)
Lemma service_send_commits_witness :
  let w := traffic_started in
  let r := xfsm_service_send demo_host traffic_service (JStr "NEXT") w in
  let st := xfsm_service_get_state (heap (snd r)) traffic_service in
  (exists name, fst r = JStr name /\ str_nonempty name = true)
  /\ valid (heap w) st = false
  /\ jsvObjectGetChild (heap (snd r)) st S_VALUE = fst r
  /\ (is_undef (jsvObjectGetChild (heap (snd r)) traffic_service K_SCTX) = false ->
      jsvObjectGetChild (heap (snd r)) st S_CTX
      = jsvObjectGetChild (heap (snd r)) traffic_service K_SCTX).
Proof.
  intros w r.
  exact (service_send_commits demo_host traffic_service (JStr "NEXT") w
           (fst r) (snd r) demo_host_frame eq_refl eq_refl
           (surjective_pairing r) eq_refl).
Defined.

(** X16, witness: the event ["NO"], whose only candidate has a guard that
    refuses; the guard is the one call made. *)
Lemma service_send_no_transition_witness :
  let w := refuse_world in
  let svc := JRef 10 in
  let ev := JStr "NO" in
  let r := xfsm_service_send demo_host svc ev w in
  let m := jsvObjectGetChild (heap w) svc K_MACHINE in
  let e := fst (xfsm_normalize_event ev w) in
  let h1 := heap (snd (xfsm_normalize_event ev w)) in
  fst r = JUndef
  /\ map call_fn (calls (snd r)) = [JFun 4]
  /\ (forall x, x <> ev -> valid (heap w) x = true ->
        cell_of (heap (snd r)) x = cell_of (heap w) x)
  /\ (exists tr,
        calls (snd r) = calls w ++ tr
        /\ forall c, In c tr ->
             exists p el,
               transition_prelude h1 m JUndef e = Some p
               /\ In el (cand_elems h1 (p_cands p))
               /\ rejected_by h1 (p_guardCtx p) e el c)
  /\ (svc <> ev -> valid (heap w) svc = true ->
      xfsm_service_get_state (heap (snd r)) svc
      = xfsm_service_get_state (heap w) svc).
Proof.
  intros w svc ev r m e h1.
  assert (H : xfsm_service_send demo_host svc ev w = (JUndef, snd r))
    by (vm_compute; reflexivity).
  split; [vm_compute; reflexivity|]. split; [vm_compute; reflexivity|].
  exact (service_send_no_transition demo_host svc ev w (snd r)
           demo_host_frame eq_refl eq_refl H).
Defined.

(** X3, witness: the listener of the traffic-light Service is notified. *)
Lemma notify_listeners_calls_witness :
  let w := traffic_subscribed in
  let svc := traffic_service in
  let listeners := jsvObjectGetChild (heap w) svc "_listeners" in
  let w' := xfsm_notify_listeners demo_host svc w in
  listener_fns (heap w) svc = [JFun 0]
  /\ (exists tr,
        calls w' = calls w ++ tr
        /\ map call_fn tr = listener_fns (heap w) svc
        /\ Forall (fun c => call_this c = svc
                            /\ call_args c
                               = [jsvObjectGetChild (heap w) svc K_SSTATE]) tr)
  /\ obj_entries (heap w') listeners = obj_entries (heap w) listeners.
Proof.
  intros w svc listeners w'. split; [reflexivity|].
  apply (notify_listeners_calls demo_host svc w).
  intros fn th args h. reflexivity.
Defined.

(** X28, witness: ["NEXT"] sent to the traffic-light Service with one
    listener. *)
Lemma service_send_notifies_listeners_witness :
  let w := traffic_subscribed in
  let r := xfsm_service_send demo_host traffic_service (JStr "NEXT") w in
  listener_fns (heap (snd r)) traffic_service = [JFun 0]
  /\ exists mid tr,
       calls (snd r) = calls w ++ mid ++ tr
       /\ map call_fn tr = listener_fns (heap (snd r)) traffic_service
       /\ Forall (fun c => call_this c = traffic_service
                           /\ call_args c
                              = [xfsm_service_get_state (heap (snd r))
                                   traffic_service]) tr.
Proof.
  intros w r. split; [reflexivity|].
  apply (service_send_notifies_listeners demo_host traffic_service
           (JStr "NEXT") w (fst r) (snd r) demo_host_frame);
    [reflexivity|reflexivity| |apply surjective_pairing|reflexivity].
  vm_compute. discriminate.
Defined.

(** X29, witness: the event ["GO"] given as a string to the machine with
    guards. *)
Lemma machine_transition_string_event_witness :
  let w := guard_world in
  let r := xfsm_machine_transition demo_host guard_machine (JStr "a")
             (JStr "GO") w in
  is_undef (fst r) = false
  /\ map call_fn (calls (snd r)) = [JFun 4; JFun 4]
  /\ heap w `prefix_of` heap (snd r)
  /\ (exists tr,
        calls (snd r) = calls w ++ tr
        /\ (tr <> [] ->
            heap w ++ [CObj [("type", JStr "GO")]] `prefix_of` heap (snd r))
        /\ forall c, In c tr ->
             let ev := JRef (length (heap w)) in
             let h1 := heap w ++ [CObj [("type", JStr "GO")]] in
             exists p el,
               transition_prelude h1 guard_machine (JStr "a") ev = Some p
               /\ In el (cand_elems h1 (p_cands p))
               /\ guard_call (p_guardCtx p) ev (cand_cond h1 el) c)
  /\ (is_undef (fst r) = false ->
      (exists s, JStr "GO" = JStr s /\ str_nonempty s = true)
      /\ valid (heap w) (fst r) = false).
Proof.
  intros w r. split; [reflexivity|]. split; [reflexivity|].
  exact (machine_transition_string_event demo_host guard_machine (JStr "a")
           (JStr "GO") w (fst r) (snd r) demo_host_frame eq_refl eq_refl
           eq_refl (surjective_pairing r)).
Defined.

(** X17, witness: the example FSM object, which has no status yet. *)
Lemma init_object_keeps_status_witness :
  let w := fsm_world in
  let w1 := xfsm_init_object fsm_object w in
  let old := jsvObjectGetChild (heap w) fsm_object K_STATUS in
  jsvObjectGetChild (heap w1) fsm_object K_STATUS
  = (if is_undef old then JStr "NotStarted" else old)
  /\ xfsm_init_object fsm_object w1 = w1
  /\ xfsm_status_object (heap w1) fsm_object
     = xfsm_status_object (heap w) fsm_object.
Proof. exact (init_object_keeps_status fsm_object fsm_world eq_refl). Defined.

(** X18, witness: the example FSM, started and then stopped. *)
Lemma stop_object_status_witness :
  let w1 := xfsm_stop_object fsm_object fsm_started in
  xfsm_status_object (heap w1) fsm_object = XFSM_STATUS_STOPPED
  /\ xfsm_current_state_var (heap w1) fsm_object
     = xfsm_current_state_var (heap fsm_started) fsm_object.
Proof. exact (stop_object_status fsm_object fsm_started eq_refl). Defined.

(** X19, witness: the example FSM, whose [config.initial] is ["idle"],
    started in the state ["busy"]. *)
Lemma start_object_state_witness :
  let r := xfsm_start_object demo_host fsm_object (JStr "busy") fsm_world in
  fst r = XFSM_STATUS_RUNNING
  /\ xfsm_status_object (heap (snd r)) fsm_object = XFSM_STATUS_RUNNING
  /\ xfsm_current_state_var (heap (snd r)) fsm_object = JStr "busy".
Proof.
  intros r.
  apply (start_object_state demo_host fsm_object (JStr "busy") fsm_world
           (fst r) (snd r) demo_host_frame eq_refl);
    [|apply surjective_pairing].
  vm_compute. discriminate.
Defined.

(** X20, witness: the event ["BLOCKED"], whose transition has the named
    guard ["never"]. *)
Lemma send_object_evaluates_guard_witness :
  let w := fsm_started in
  let p := mkSendPrelude "idle" (JRef 1) (JRef 3) (JRef 5) (JRef 12) in
  let fn := resolveFunc (heap w) JUndef fsm_object
              (jsvObjectGetChild (heap w) (sp_trans p) K_COND) in
  fn = JFun 4
  /\ exists c w1,
       calls w1 = calls w ++ [c]
       /\ call_fn c = fn /\ call_this c = JNull
       /\ (exists ctxg meta, call_args c = [ctxg; JStr "BLOCKED"; meta])
       /\ xfsm_send_object demo_host JUndef fsm_object "BLOCKED" w
          = if jsvGetBool (call_res c)
            then send_commit demo_host fsm_object "BLOCKED" p w1
            else (JUndef, w1).
Proof.
  intros w p fn. split; [reflexivity|].
  exact (send_object_evaluates_guard demo_host JUndef fsm_object "BLOCKED" w p
           demo_host_frame eq_refl eq_refl eq_refl).
Defined.

(** X21, witness: the event ["BLOCKED"] is refused by its guard. *)
Lemma send_object_failure_frame_witness :
  let w := fsm_started in
  let r := xfsm_send_object demo_host JUndef fsm_object "BLOCKED" w in
  fst r = JUndef
  /\ heap w `prefix_of` heap (snd r)
  /\ (calls (snd r) = calls w
      \/ exists p c,
           send_prelude (heap w) fsm_object "BLOCKED" = Some p
           /\ calls (snd r) = calls w ++ [c]
           /\ send_guard_call (heap w) JUndef fsm_object "BLOCKED" p c)
  /\ xfsm_current_state_var (heap (snd r)) fsm_object
     = xfsm_current_state_var (heap w) fsm_object.
Proof.
  intros w r.
  assert (H : xfsm_send_object demo_host JUndef fsm_object "BLOCKED" w
              = (JUndef, snd r)) by (vm_compute; reflexivity).
  split; [vm_compute; reflexivity|].
  exact (send_object_failure_frame demo_host JUndef fsm_object "BLOCKED" w
           (snd r) demo_host_frame H).
Defined.


(** X24, witness: a factory that returns no function ([f5] returns
    [true]). *)
Lemma make_unsubscribe_returns_function_witness :
  let r := xfsm_make_unsubscribe demo_host (JFun 0) (JFun 5) traffic_service 1
             traffic_started in
  jsvIsFunction (fst r) = true
  /\ (if jsvIsFunction (JFun 5) then
        exists res,
          calls (snd r)
          = calls traffic_started
            ++ [mkCall (JFun 5) JUndef [traffic_service; JInt 1] res]
          /\ fst r = if jsvIsFunction res then res else JFun 0
      else r = (JFun 0, traffic_started)).
Proof.
  exact (make_unsubscribe_returns_function demo_host (JFun 0) (JFun 5)
           traffic_service 1 traffic_started eq_refl).
Defined.

(** X26, witness: the list [["nope"]] against the table [{known: f0}]. *)
Lemma run_actions_unknown_names_skipped_witness :
  let w := mkWorld single_heap [] in
  resolve_actions_map single_heap (JRef 4) = JRef 7
  /\ run_actions_raw demo_host (JRef 4) JUndef (JRef 6) JUndef "" "" w
     = (JUndef, w).
Proof.
  intros w. split; [reflexivity|].
  apply (run_actions_unknown_names_skipped demo_host (JRef 4) JUndef (JRef 6)
           JUndef "" "" w).
  vm_compute. repeat constructor.
Defined.

(** X27, witness: the Service of the machine whose initial [entry] is the
    single function [f5]: starting it calls the validator and the listener,
    and never [f5]. *)
Lemma service_start_skips_single_entry_witness :
  let w := mkWorld single_heap [] in
  let svc := JRef 4 in
  let r := xfsm_service_start demo_host svc w in
  jsvObjectGetChild single_heap (JRef 3) K_ENTRY = JFun 5
  /\ exists tr,
       calls (snd r)
       = calls (snd (xfsm_machine_initial_state demo_host
                       (jsvObjectGetChild (heap w) svc K_MACHINE) w)) ++ tr
       /\ Forall (fun c => call_this c = svc
                           /\ call_args c
                              = [xfsm_service_get_state (heap (snd r)) svc])
            tr
       /\ jsvObjectGetChild (heap (snd r)) svc K_SCTX
          = jsvObjectGetChild (heap w) svc K_SCTX.
Proof.
  intros w svc r. split; [reflexivity|].
  exact (service_start_skips_single_entry demo_host svc w (fst r) (snd r)
           demo_host_frame eq_refl eq_refl (surjective_pairing r) eq_refl
           eq_refl).
Defined.
